(** * cupoch: the weighted graph and the occupancy grid

    A shallow embedding of the implementation of [cupoch::geometry::Graph]
    and of [cupoch::geometry::OccupancyGrid], and the properties of their
    specification that are checked against it.

    Conventions of the embedding.
    - [int] values are integers of [Z]; the arithmetic on them is the
      mathematical one (signed overflow is undefined in C++ and does not
      occur at the sizes used below).  A conversion to [size_t] is written
      out as a reduction modulo [2^64], and the linear index that
      [GetVoxelIndex] and [AddVoxel] keep in an [int] as the reduction to
      32 bits that the build makes, since the coordinates of a voxel are
      the caller's.
    - [float] values are IEEE-754 binary32 numbers, given by [spec_float]
      of the standard library at precision 24 and maximal exponent 128.
    - A [device_vector] is a list.  An element is read with [vget] and
      written with [vset]; what these do outside the bounds of the vector
      (undefined in C++) is stated at their definitions.
    - A thrust algorithm is the function computed by its sequential
      reference semantics; one bulk call is one step. *)

From Stdlib Require Import ZArith List Bool Lia SpecFloat Sorted Permutation.
From stdpp Require Import base list.

#[local] Open Scope Z_scope.

(** ** Binary32 numbers *)

Module F32.

Definition prec : Z := 24.
Definition emax : Z := 128.

Definition float : Type := spec_float.

Definition add : float -> float -> float := SFadd prec emax.
Definition sub : float -> float -> float := SFsub prec emax.
Definition mul : float -> float -> float := SFmul prec emax.
Definition div : float -> float -> float := SFdiv prec emax.
Definition sqrt : float -> float := SFsqrt prec emax.

Definition ltb : float -> float -> bool := SFltb.
Definition leb : float -> float -> bool := SFleb.
Definition gtb (a b : float) : bool := SFltb b a.
Definition geb (a b : float) : bool := SFleb b a.

Definition isnan (a : float) : bool :=
  match a with S754_nan => true | _ => false end.

Definition quiet_NaN : float := S754_nan.
Definition infinity : float := S754_infinity false.

(** The number [m * 2^e], rounded to nearest even. *)
Definition of_Z2 (m e : Z) : float := binary_normalize prec emax m e false.

(** Conversion [int -> float]. *)
Definition of_int (z : Z) : float := of_Z2 z 0.

Definition zero : float := S754_zero false.
Definition one : float := of_int 1.

(** [::floor]: the largest integral value not above the argument. *)
Definition floor (a : float) : float :=
  match a with
  | S754_finite s m e =>
      let v := cond_Zopp s (Zpos m) in
      if 0 <=? e then a
      else binary_normalize prec emax (Z.shiftr v (- e)) 0 s
  | _ => a
  end.

(** [::ceil]: the smallest integral value not below the argument. *)
Definition ceil (a : float) : float := SFopp (floor (SFopp a)).

Definition INT_MIN : Z := - 2 ^ 31.
Definition INT_MAX : Z := 2 ^ 31 - 1.

(** Conversion [float -> int]: truncation towards zero.  The conversion
    of a NaN, of an infinity or of a value that [int] cannot hold is
    undefined in C++; it is given the value [INT_MIN] here, which is what
    the conversion instructions of the usual targets deliver. *)
Definition to_int (a : float) : Z :=
  match a with
  | S754_zero _ => 0
  | S754_finite s m e =>
      let t := if 0 <=? e then Zpos m * 2 ^ e
               else Z.shiftr (Zpos m) (- e) in
      let v := cond_Zopp s t in
      if (INT_MIN <=? v) && (v <=? INT_MAX) then v else INT_MIN
  | _ => INT_MIN
  end.

(** [std::max] and [std::min] of the host code:
    [max(a,b) = (a < b) ? b : a] and [min(a,b) = (b < a) ? b : a]. *)
Definition std_max (a b : float) : float := if ltb a b then b else a.
Definition std_min (a b : float) : float := if ltb b a then b else a.

(** [max] and [min] of the device code ([fmaxf], [fminf]): when exactly
    one argument is a NaN the other one is returned. *)
Definition fmaxf (a b : float) : float :=
  if isnan a then b else if isnan b then a else if ltb a b then b else a.
Definition fminf (a b : float) : float :=
  if isnan a then b else if isnan b then a else if ltb b a then b else a.

End F32.

Abbreviation float := F32.float.

(** ** Eigen vectors *)

Definition Vector2i : Type := Z * Z.
Definition Vector3i : Type := Z * Z * Z.
Definition Vector3f : Type := float * float * float.

(** [operator==] of two integer vectors. *)
Definition Vector2i_eqb (a b : Vector2i) : bool :=
  (a.1 =? b.1) && (a.2 =? b.2).

Definition Vector3i_eqb (a b : Vector3i) : bool :=
  (a.1.1 =? b.1.1) && (a.1.2 =? b.1.2) && (a.2 =? b.2).

(** Modelled from the spec: [operator<] of the integer vectors is declared in
    a header that is not among the sources; edge lists are "sorted in
    lexicographic (src, dst) order", and so are voxel indices. *)
Definition Vector2i_ltb (a b : Vector2i) : bool :=
  (a.1 <? b.1) || ((a.1 =? b.1) && (a.2 <? b.2)).

Definition Vector2i_gtb (a b : Vector2i) : bool := Vector2i_ltb b a.

Definition Vector3i_ltb (a b : Vector3i) : bool :=
  (a.1.1 <? b.1.1)
  || ((a.1.1 =? b.1.1)
      && ((a.1.2 <? b.1.2) || ((a.1.2 =? b.1.2) && (a.2 <? b.2)))).

(** Modelled from the spec: [reverse_index_functor] is declared in
    geometry_functor.h, which is not among the sources; it yields the
    reverse [(b, a)] of an edge [(a, b)]. *)
Definition reverse_index_functor (e : Vector2i) : Vector2i := (e.2, e.1).

Definition Vector3f_Ones : Vector3f := (F32.one, F32.one, F32.one).
Definition Vector3f_Zero : Vector3f := (F32.zero, F32.zero, F32.zero).

Definition Vector3f_sub (a b : Vector3f) : Vector3f :=
  (F32.sub a.1.1 b.1.1, F32.sub a.1.2 b.1.2, F32.sub a.2 b.2).
Definition Vector3f_add (a b : Vector3f) : Vector3f :=
  (F32.add a.1.1 b.1.1, F32.add a.1.2 b.1.2, F32.add a.2 b.2).
Definition Vector3f_scale (k : float) (a : Vector3f) : Vector3f :=
  (F32.mul k a.1.1, F32.mul k a.1.2, F32.mul k a.2).
Definition Vector3f_div (a : Vector3f) (k : float) : Vector3f :=
  (F32.div a.1.1 k, F32.div a.1.2 k, F32.div a.2 k).
Definition Vector3f_floor (a : Vector3f) : Vector3f :=
  (F32.floor a.1.1, F32.floor a.1.2, F32.floor a.2).
Definition Vector3f_cast_int (a : Vector3f) : Vector3i :=
  (F32.to_int a.1.1, F32.to_int a.1.2, F32.to_int a.2).
Definition Vector3i_cast_float (a : Vector3i) : Vector3f :=
  (F32.of_int a.1.1, F32.of_int a.1.2, F32.of_int a.2).
Definition Vector3i_add (a b : Vector3i) : Vector3i :=
  (a.1.1 + b.1.1, a.1.2 + b.1.2, a.2 + b.2).
Definition Vector3i_sub (a b : Vector3i) : Vector3i :=
  (a.1.1 - b.1.1, a.1.2 - b.1.2, a.2 - b.2).
Definition Vector3i_Constant (c : Z) : Vector3i := (c, c, c).

(** [norm]: the square root of the sum of the squares, summed in order. *)
Definition Vector3f_norm (a : Vector3f) : float :=
  F32.sqrt (F32.add (F32.add (F32.mul a.1.1 a.1.1) (F32.mul a.1.2 a.1.2))
                    (F32.mul a.2 a.2)).

(** ** Device vectors *)

Section Vectors.
Context {A : Type}.

(** [v[i]] read: outside the vector the read is undefined in C++; the
    model delivers the default [d]. *)
Definition vget (d : A) (v : list A) (i : Z) : A :=
  if i <? 0 then d else default d (v !! Z.to_nat i).

(** [v[i] = x]: outside the vector the write is undefined in C++; the
    model leaves the vector as it is. *)
Definition vset (v : list A) (i : Z) (x : A) : list A :=
  if i <? 0 then v else <[Z.to_nat i := x]> v.

(** [v.resize(n, x)]. *)
Definition resize_to (n : nat) (x : A) (v : list A) : list A :=
  take n v ++ replicate (n - length v) x.

(** Writing the sequence [w] through an output iterator that starts at
    [v.begin()]: the prefix of [v] is overwritten.  C++ requires the storage
    behind the iterator to exist; the model lets the vector take every
    element that is written, so that a following [resize] to the number of
    written elements leaves exactly the written sequence. *)
Definition overwrite (v w : list A) : list A :=
  w ++ drop (length w) v.

(** The same write with the requirement of C++ kept: the storage behind the
    iterator is that of [v], so that a sequence that is longer than [v] is
    stored past the end of [v].  Such a store is undefined in C++ and the
    call that makes it has no result: [None]. *)
Definition store (v w : list A) : option (list A) :=
  if (length w <=? length v)%nat then Some (overwrite v w) else None.

End Vectors.

(** ** The thrust algorithms used by the two classes *)

Module thrust.

Section Sorting.
Context {A : Type} (comp : A -> A -> bool).

(** [x] goes in front of the first element that is not below it, so that
    elements that compare equal keep their order. *)
Fixpoint insert_by (x : A) (l : list A) : list A :=
  match l with
  | [] => [x]
  | y :: l' => if comp y x then y :: insert_by x l' else x :: y :: l'
  end.

(** [thrust::sort] with the comparison [comp].  thrust does not promise a
    stable sort; the stable one is one of the results it allows. *)
Definition sort (l : list A) : list A := foldr insert_by [] l.

(** [thrust::set_difference] of two ranges sorted by [comp]: the merge that
    copies the elements of the first range that have no partner in the
    second one. *)
Fixpoint set_difference (l1 l2 : list A) {struct l1} : list A :=
  match l1 with
  | [] => []
  | x :: l1' =>
      (fix scan (l2 : list A) : list A :=
         match l2 with
         | [] => x :: l1'
         | y :: l2' =>
             if comp x y then x :: set_difference l1' l2
             else if comp y x then scan l2'
             else set_difference l1' l2'
         end) l2
  end.

(** [thrust::is_sorted]: no element is below, by [comp], the element in
    front of it. *)
Fixpoint is_sorted (l : list A) : bool :=
  match l with
  | [] => true
  | x :: l' =>
      match l' with
      | [] => true
      | y :: _ => negb (comp y x) && is_sorted l'
      end
  end.

(** [thrust::set_difference] with its precondition: both ranges are to be
    sorted with respect to [comp].  On other ranges thrust determines no
    result: [None]. *)
Definition set_difference_of_sorted (l1 l2 : list A) : option (list A) :=
  if is_sorted l1 && is_sorted l2 then Some (set_difference l1 l2) else None.

End Sorting.

Section ByKey.
Context {K V : Type}.

(** The rows [v[perm[0]], v[perm[1]], ...] written over the front of [v];
    rows of [v] behind the permuted range stay. *)
Definition permute_front (perm : list nat) (v : list V) : list V :=
  imap (fun j x => match perm !! j with
                   | Some i => default x (v !! i)
                   | None => x
                   end) v.

(** [thrust::sort_by_key]: the keys are sorted and the values that start at
    [vals.begin()] are permuted with them. *)
Definition sort_by_key (comp : K -> K -> bool) (keys : list K) (vals : list V)
  : list K * list V :=
  let rows := sort (fun a b : K * nat => comp a.1 b.1)
                   (zip keys (seq 0 (length keys))) in
  (rows.*1, permute_front rows.*2 vals).

(** The runs of equal consecutive keys, each with the reduction of its
    values from left to right. *)
Fixpoint reduce_runs (eqb : K -> K -> bool) (op : V -> V -> V)
    (k : K) (acc : V) (rows : list (K * V)) : list (K * V) :=
  match rows with
  | [] => [(k, acc)]
  | (k', v') :: rest =>
      if eqb k k' then reduce_runs eqb op k (op acc v') rest
      else (k, acc) :: reduce_runs eqb op k' v' rest
  end.

(** [thrust::reduce_by_key]: one output row per run of equal keys. *)
Definition reduce_by_key (eqb : K -> K -> bool) (op : V -> V -> V)
    (keys : list K) (vals : list V) : list (K * V) :=
  match zip keys vals with
  | [] => []
  | (k, v) :: rest => reduce_runs eqb op k v rest
  end.

End ByKey.

Section Elementwise.
Context {A : Type}.

(** [thrust::remove_if] followed by the [resize] to the new end. *)
Definition remove_if (pred : A -> bool) (l : list A) : list A :=
  List.filter (fun x => negb (pred x)) l.

(** [thrust::remove_if] on a zipped range whose first component decides:
    [mask] holds the value of the predicate at every row. *)
Definition remove_rows (mask : list bool) (v : list A) : list A :=
  (List.filter (fun r : bool * A => negb r.1) (zip mask v)).*2.

Fixpoint unique_from (eqb : A -> A -> bool) (prev : A) (l : list A) : list A :=
  match l with
  | [] => []
  | y :: l' => if eqb prev y then unique_from eqb prev l'
               else y :: unique_from eqb y l'
  end.

(** [thrust::unique] followed by the [resize] to the new end: the first
    element of every group of equal consecutive elements is kept. *)
Definition unique (eqb : A -> A -> bool) (l : list A) : list A :=
  match l with
  | [] => []
  | x :: l' => x :: unique_from eqb x l'
  end.

(** [thrust::fill] of the elements from index [from] on. *)
Definition fill_from (from : nat) (x : A) (v : list A) : list A :=
  take from v ++ replicate (length v - from) x.

(** [thrust::gather]: [result[i] = input[map[i]]]. *)
Definition gather (d : A) (map_ : list Z) (input result : list A) : list A :=
  overwrite result ((fun i => vget d input i) <$> map_).

(** [thrust::scatter]: [result[map[i]] = input[i]]. *)
Definition scatter (input : list A) (map_ : list Z) (result : list A)
  : list A :=
  foldl (fun r (xi : A * Z) => vset r xi.2 xi.1) result (zip input map_).

End Elementwise.

(** [thrust::sequence] from 0, and the counting range [0, n). *)
Definition sequence (n : nat) : list Z := Z.of_nat <$> seq 0 n.

Fixpoint exclusive_scan_from (acc : Z) (l : list Z) : list Z :=
  match l with
  | [] => []
  | x :: l' => acc :: exclusive_scan_from (acc + x) l'
  end.

(** [thrust::exclusive_scan], in place, with the initial value 0. *)
Definition exclusive_scan (l : list Z) : list Z := exclusive_scan_from 0 l.

End thrust.

(** ** The graph *)

(** The state of a [Graph]: the members of [LineSet] ([points_], [lines_],
    [colors_]) and those that [Graph] adds. *)
Record Graph : Type := mkGraph {
  points_ : list Vector3f;
  lines_ : list Vector2i;
  colors_ : list Vector3f;
  edge_index_offsets_ : list Z;
  edge_weights_ : list float;
  node_colors_ : list Vector3f;
  is_directed_ : bool
}.

(** The failures that the operations report through [utility::LogError]
    before they return the object. *)
Inductive GraphError : Type :=
| EmptyGraph
| SizeMismatch
| NotConstructed.

Definition set_lines (l : list Vector2i) (g : Graph) : Graph :=
  mkGraph (points_ g) l (colors_ g) (edge_index_offsets_ g) (edge_weights_ g)
          (node_colors_ g) (is_directed_ g).
Definition set_colors (c : list Vector3f) (g : Graph) : Graph :=
  mkGraph (points_ g) (lines_ g) c (edge_index_offsets_ g) (edge_weights_ g)
          (node_colors_ g) (is_directed_ g).
Definition set_edge_index_offsets (o : list Z) (g : Graph) : Graph :=
  mkGraph (points_ g) (lines_ g) (colors_ g) o (edge_weights_ g)
          (node_colors_ g) (is_directed_ g).
Definition set_edge_weights (w : list float) (g : Graph) : Graph :=
  mkGraph (points_ g) (lines_ g) (colors_ g) (edge_index_offsets_ g) w
          (node_colors_ g) (is_directed_ g).
Definition set_node_colors (c : list Vector3f) (g : Graph) : Graph :=
  mkGraph (points_ g) (lines_ g) (colors_ g) (edge_index_offsets_ g)
          (edge_weights_ g) c (is_directed_ g).

(** [Graph(points)]: the vertices and no edge.  The orientation flag is a
    public member; it is a parameter here. *)
Definition Graph_of_points (directed : bool) (pts : list Vector3f) : Graph :=
  mkGraph pts [] [] [] [] [] directed.

(** Modelled from the spec: [HasColors], [HasWeights], [HasNodeColors] and
    [IsConstructed] are declared in lineset.h and graph.h, which are not
    among the sources.  Edge colours and edge weights are "parallel to
    edges", the weights of "same length"; node colours are "parallel to
    vertices"; the offsets of a constructed graph have "length n+1".  A side
    array is present when it is parallel to the array it decorates, and
    edge colours are present only on a graph that has edges. *)
Definition HasColors (g : Graph) : bool :=
  negb (Nat.eqb (length (lines_ g)) 0)
  && Nat.eqb (length (colors_ g)) (length (lines_ g)).
Definition HasWeights (g : Graph) : bool :=
  Nat.eqb (length (edge_weights_ g)) (length (lines_ g)).
Definition HasNodeColors (g : Graph) : bool :=
  Nat.eqb (length (node_colors_ g)) (length (points_ g)).
Definition IsConstructed (g : Graph) : bool :=
  Nat.eqb (length (edge_index_offsets_ g)) (length (points_ g) + 1).

(** Modelled from the spec: [tuple_element_compare_functor<T, 0, Func>] is
    declared in geometry_functor.h, which is not among the sources; it
    compares two rows by applying [Func] to their edges. *)
Definition tuple_element_compare_functor {V : Type}
    (Func : Vector2i -> Vector2i -> bool) (a b : Vector2i * V) : bool :=
  Func a.1 b.1.

(** Modelled from the spec: [resize_all(n, v1, v2, ...)] is declared in a
    header that is not among the sources; it truncates the edge list and its
    side arrays together, to [n] rows. *)
Definition resize_all {A : Type} (n : nat) (d : A) (v : list A) : list A :=
  resize_to n d v.

Definition Vector2i_Zero : Vector2i := (0, 0).

(** The first half of [Graph::ConstructGraph]: the edge list is sorted and
    the side arrays that are present are permuted with it; when neither is
    present the vector of the weights is resized to the number of edges, its
    new entries being 1. *)
Definition sort_edges (g : Graph) : Graph :=
  let has_colors := HasColors g in
  let has_weights := HasWeights g in
  if has_colors && has_weights then
    let '(l, wc) := thrust.sort_by_key Vector2i_ltb (lines_ g)
                      (zip (edge_weights_ g) (colors_ g)) in
    set_colors wc.*2 (set_edge_weights wc.*1 (set_lines l g))
  else if negb has_colors && has_weights then
    let '(l, w) := thrust.sort_by_key Vector2i_ltb (lines_ g)
                     (edge_weights_ g) in
    set_edge_weights w (set_lines l g)
  else if has_colors && negb has_weights then
    let '(l, c) := thrust.sort_by_key Vector2i_ltb (lines_ g)
                     (colors_ g) in
    set_colors c (set_lines l g)
  else
    let l := thrust.sort Vector2i_ltb (lines_ g) in
    set_edge_weights (resize_to (length l) F32.one (edge_weights_ g))
                     (set_lines l g).

(** The second half of [Graph::ConstructGraph]: the number of edges of
    every source, gathered into the offsets and scanned. *)
Definition count_offsets (g : Graph) : list Z :=
  let offsets0 :=
    resize_to (length (points_ g) + 1) 0 (edge_index_offsets_ g) in
  let m := length (lines_ g) in
  let runs := thrust.reduce_by_key Z.eqb Z.add
                ((lines_ g).*1) (replicate m 1) in
  let indices :=
    resize_to (length runs) 0 (overwrite (replicate m 0) runs.*1) in
  let counts :=
    resize_to (length runs) 0 (overwrite (replicate m 0) runs.*2) in
  thrust.exclusive_scan (thrust.gather 0 indices counts offsets0).

(** [Graph::ConstructGraph] *)
Definition ConstructGraph (g : Graph) : Graph * option GraphError :=
  if Nat.eqb (length (lines_ g)) 0 then (g, Some EmptyGraph)
  else
    let g1 := sort_edges g in
    (set_edge_index_offsets (count_offsets g1) g1, None).

(** [Graph::AddEdge] *)
Definition AddEdge (edge : Vector2i) (weight : float) (g : Graph)
  : Graph * option GraphError :=
  let g1 := set_edge_weights (edge_weights_ g ++ [weight])
              (set_lines (lines_ g ++ [edge]) g) in
  let g2 :=
    if negb (is_directed_ g1) then
      set_edge_weights (edge_weights_ g1 ++ [weight])
        (set_lines (lines_ g1 ++ [(edge.2, edge.1)]) g1)
    else g1 in
  let g3 :=
    if HasColors g2 then
      let g' := set_colors (colors_ g2 ++ [Vector3f_Ones]) g2 in
      if negb (is_directed_ g') then
        set_colors (colors_ g' ++ [Vector3f_Ones]) g'
      else g'
    else g2 in
  ConstructGraph g3.

(** [Graph::AddEdges] *)
Definition AddEdges (edges : list Vector2i) (weights : list float) (g : Graph)
  : Graph * option GraphError :=
  if negb (Nat.eqb (length weights) 0)
     && negb (Nat.eqb (length edges) (length weights))
  then (g, Some SizeMismatch)
  else
    let n_old_lines := length (lines_ g) in
    let g1 := set_lines (lines_ g ++ edges) g in
    let g2 :=
      if negb (is_directed_ g1) then
        set_lines (lines_ g1 ++ (reverse_index_functor <$> edges)) g1
      else g1 in
    let g3 :=
      if Nat.eqb (length weights) 0 then
        let w :=
          if negb (is_directed_ g2) then
            resize_to (2 * length (lines_ g2)) F32.zero (edge_weights_ g2)
          else
            resize_to (length (lines_ g2)) F32.zero (edge_weights_ g2) in
        set_edge_weights (thrust.fill_from n_old_lines F32.one w) g2
      else
        let w := edge_weights_ g2 ++ weights in
        set_edge_weights
          (if negb (is_directed_ g2) then w ++ weights else w) g2 in
    let g4 :=
      if HasColors g3 then
        set_colors
          (thrust.fill_from n_old_lines Vector3f_Ones
             (resize_to (length (lines_ g3)) Vector3f_Zero (colors_ g3))) g3
      else g3 in
    ConstructGraph g4.

(** The lambda [check_edge] of [Graph::RemoveEdge]. *)
Definition check_edge (edge : Vector2i) (is_directed : bool) (l : Vector2i)
  : bool :=
  Vector2i_eqb l edge
  || (negb is_directed && Vector2i_eqb l (edge.2, edge.1)).

(** [Graph::RemoveEdge] *)
Definition RemoveEdge (edge : Vector2i) (g : Graph)
  : Graph * option GraphError :=
  let has_colors := HasColors g in
  let has_weights := HasWeights g in
  let mask := check_edge edge (is_directed_ g) <$> lines_ g in
  let g1 :=
    if has_colors && has_weights then
      let n := length (thrust.remove_rows mask
                         (zip (lines_ g) (zip (edge_weights_ g) (colors_ g)))) in
      set_colors (resize_all n Vector3f_Zero (thrust.remove_rows mask (colors_ g)))
        (set_edge_weights
           (resize_all n F32.zero (thrust.remove_rows mask (edge_weights_ g)))
           (set_lines
              (resize_all n Vector2i_Zero (thrust.remove_rows mask (lines_ g))) g))
    else if has_colors && negb has_weights then
      let n := length (thrust.remove_rows mask
                         (zip (lines_ g) (colors_ g))) in
      set_colors (resize_all n Vector3f_Zero (thrust.remove_rows mask (colors_ g)))
        (set_lines
           (resize_all n Vector2i_Zero (thrust.remove_rows mask (lines_ g))) g)
    else if negb has_colors && has_weights then
      let n := length (thrust.remove_rows mask
                         (zip (lines_ g) (edge_weights_ g))) in
      set_edge_weights
        (resize_all n F32.zero (thrust.remove_rows mask (edge_weights_ g)))
        (set_lines
           (resize_all n Vector2i_Zero (thrust.remove_rows mask (lines_ g))) g)
    else
      set_lines
        (thrust.remove_if (check_edge edge (is_directed_ g)) (lines_ g)) g in
  ConstructGraph g1.

(** One pass of [Graph::RemoveEdges]: the rows of the graph that no row of
    [removed] cancels under [func] are stored from the start of the output
    vectors, which are then resized to the number of stored rows.  The pass
    has no result when the ranges are not sorted with respect to [func] or
    when a row is stored past the end of an output vector. *)
Definition difference_pass {V : Type} (func : Vector2i * V -> Vector2i * V -> bool)
    (d : V) (rows : list (Vector2i * V)) (removed : list Vector2i) (cnst : V)
    (out : list Vector2i * list V) : option (list Vector2i * list V) :=
  res ← thrust.set_difference_of_sorted func rows
          ((fun e => (e, cnst)) <$> removed);
  new_lines ← store out.1 res.*1;
  new_side ← store out.2 res.*2;
  Some (resize_all (length res) Vector2i_Zero new_lines,
        resize_all (length res) d new_side).

(** The pass of the branch without side arrays. *)
Definition difference_pass_lines (rows removed out : list Vector2i)
  : option (list Vector2i) :=
  res ← thrust.set_difference_of_sorted Vector2i_ltb rows removed;
  new_lines ← store out res;
  Some (resize_to (length res) Vector2i_Zero new_lines).

(** [Graph::RemoveEdges].  The vectors [new_lines], [new_weights] and
    [new_colors] are declared empty and are not sized before the passes
    store into them; [None] is the call without a result. *)
Definition RemoveEdges (edges : list Vector2i) (g : Graph)
  : option (Graph * option GraphError) :=
  let has_colors := HasColors g in
  let has_weights := HasWeights g in
  let new_lines : list Vector2i := [] in
  let new_weights : list float := [] in
  let new_colors : list Vector3f := [] in
  let sorted_edges := thrust.sort Vector2i_ltb edges in
  let reversed_edges := reverse_index_functor <$> sorted_edges in
  let cnst_w := F32.one in
  let cnst_c := Vector3f_Ones in
  new ←
    (if has_colors && has_weights then
       let func := tuple_element_compare_functor Vector2i_gtb in
       let rows := zip (lines_ g) (zip (edge_weights_ g) (colors_ g)) in
       out1 ← difference_pass func (F32.zero, Vector3f_Zero) rows
                sorted_edges (cnst_w, cnst_c)
                (new_lines, zip new_weights new_colors);
       out2 ← (if negb (is_directed_ g) then
                 difference_pass func (F32.zero, Vector3f_Zero) rows
                   reversed_edges (cnst_w, cnst_c) out1
               else Some out1);
       Some (out2.1, out2.2.*1, out2.2.*2)
     else if has_colors && negb has_weights then
       let func := tuple_element_compare_functor Vector2i_gtb in
       let rows := zip (lines_ g) (colors_ g) in
       out1 ← difference_pass func Vector3f_Zero rows
                sorted_edges cnst_c (new_lines, new_colors);
       out2 ← (if negb (is_directed_ g) then
                 difference_pass func Vector3f_Zero rows reversed_edges
                   cnst_c out1
               else Some out1);
       Some (out2.1, new_weights, out2.2)
     else if negb has_colors && has_weights then
       let func := tuple_element_compare_functor Vector2i_gtb in
       let rows := zip (lines_ g) (edge_weights_ g) in
       out1 ← difference_pass func F32.zero rows
                sorted_edges cnst_w (new_lines, new_weights);
       out2 ← (if negb (is_directed_ g) then
                 difference_pass func F32.zero rows reversed_edges
                   cnst_w out1
               else Some out1);
       Some (out2.1, out2.2, new_colors)
     else
       out1 ← difference_pass_lines (lines_ g) sorted_edges new_lines;
       out2 ← (if negb (is_directed_ g) then
                 difference_pass_lines (lines_ g) reversed_edges out1
               else Some out1);
       Some (out2, new_weights, new_colors));
  Some (ConstructGraph
          (set_colors new.2
             (set_edge_weights new.1.2 (set_lines new.1.1 g)))).

(** [replace_color_functor] *)
Definition replace_color_functor (lines : list Vector2i) (edge : Vector2i)
    (color : Vector3f) (is_directed : bool)
    (colors : list Vector3f) (idx : Z) : list Vector3f :=
  let l := vget Vector2i_Zero lines idx in
  if Vector2i_eqb l edge
     || (negb is_directed && Vector2i_eqb l (edge.2, edge.1))
  then vset colors idx color
  else colors.

(** [replace_colors_functor] *)
Definition replace_colors_functor (color : Vector3f)
    (colors : list Vector3f) (idx : Z) : list Vector3f :=
  vset colors idx color.

(** [Graph::PaintEdgeColor] *)
Definition PaintEdgeColor (edge : Vector2i) (color : Vector3f) (g : Graph)
  : Graph :=
  let g1 :=
    if negb (HasColors g) then
      set_colors (resize_to (length (lines_ g)) Vector3f_Ones (colors_ g)) g
    else g in
  set_colors
    (foldl (replace_color_functor (lines_ g1) edge color (is_directed_ g1))
           (colors_ g1) (thrust.sequence (length (lines_ g1))))
    g1.

(** [Graph::PaintNodeColor] *)
Definition PaintNodeColor (node : Z) (color : Vector3f) (g : Graph) : Graph :=
  let g1 :=
    if negb (HasNodeColors g) then
      set_node_colors
        (resize_to (length (points_ g)) Vector3f_Ones (node_colors_ g)) g
    else g in
  set_node_colors (vset (node_colors_ g1) node color) g1.

(** [Graph::PaintNodesColor] *)
Definition PaintNodesColor (nodes : list Z) (color : Vector3f) (g : Graph)
  : Graph :=
  let g1 :=
    if negb (HasNodeColors g) then
      set_node_colors
        (resize_to (length (points_ g)) Vector3f_Ones (node_colors_ g)) g
    else g in
  set_node_colors
    (foldl (replace_colors_functor color) (node_colors_ g1)
           (thrust.sequence (length nodes)))
    g1.

(** [Graph::SetEdgeWeightsFromDistance] *)
Definition SetEdgeWeightsFromDistance (g : Graph) : Graph :=
  let w := resize_to (length (lines_ g)) F32.zero (edge_weights_ g) in
  set_edge_weights
    (overwrite w
       ((fun edge : Vector2i =>
           Vector3f_norm
             (Vector3f_sub (vget Vector3f_Zero (points_ g) edge.1)
                           (vget Vector3f_Zero (points_ g) edge.2)))
          <$> lines_ g))
    g.

(** ** Single-source shortest paths *)

Record SSSPResult : Type := mkSSSPResult {
  shortest_distance_ : float;
  prev_index_ : Z
}.

(** Modelled from the spec: the default constructor of [SSSPResult] is
    declared in graph.h, which is not among the sources.  "Initial: distance
    +∞, prev -1". *)
Definition SSSPResult_default : SSSPResult := mkSSSPResult F32.infinity (-1).

(** The conversion of an [int] that is stored into a vector of [size_t]. *)
Definition to_size_t (z : Z) : Z := z mod 2 ^ 64.

(** The value of a variable of type [int] that is initialised with the
    integer [z]: the build keeps the low 32 bits, in two's complement. *)
Definition wrap_int (z : Z) : Z := (z + 2 ^ 31) mod 2 ^ 32 - 2 ^ 31.

(** [relax_functor]: the state is [(open_flags, res_tmp)]; [res] is read
    only. *)
Definition relax_functor (lines : list Vector2i) (edge_index_offsets : list Z)
    (edge_weights : list float) (edge_table : list Z) (res : list SSSPResult)
    (st : list Z * list SSSPResult) (idx : Z) : list Z * list SSSPResult :=
  let '(open_flags, res_tmp) := st in
  if vget 0 open_flags idx =? 0 then st
  else
    let open_flags' := vset open_flags idx 0 in
    let s_edge := vget 0 edge_index_offsets idx in
    let e_edge := vget 0 edge_index_offsets (idx + 1) in
    (open_flags',
     foldl (fun rt j =>
              let k := (vget Vector2i_Zero lines j).1 in
              vset rt (vget 0 edge_table j)
                (mkSSSPResult
                   (F32.add (shortest_distance_ (vget SSSPResult_default res k))
                            (vget F32.zero edge_weights j))
                   k))
           res_tmp (seqZ s_edge (e_edge - s_edge))).

(** [update_shortest_distances_functor]: the state is [(open_flags, res)];
    [res_tmp] is read only. *)
Definition update_shortest_distances_functor (res_tmp : list SSSPResult)
    (st : list Z * list SSSPResult) (idx : Z) : list Z * list SSSPResult :=
  let '(open_flags, res) := st in
  if F32.gtb (shortest_distance_ (vget SSSPResult_default res idx))
             (shortest_distance_ (vget SSSPResult_default res_tmp idx))
  then (vset open_flags idx 1, vset res idx (vget SSSPResult_default res_tmp idx))
  else st.

(** [compare_path_length_functor] *)
Definition compare_path_length_functor (res : list SSSPResult)
    (open_flags : list Z) (end_node_index : Z) (idx : Z) : bool :=
  negb (vget 0 open_flags idx =? 0)
  && F32.ltb (shortest_distance_ (vget SSSPResult_default res idx))
             (shortest_distance_ (vget SSSPResult_default res end_node_index)).

(** The binary operation of the segmented reduction in [DijkstraPaths]. *)
Definition min_result (lhs rhs : SSSPResult) : SSSPResult :=
  if F32.leb (shortest_distance_ lhs) (shortest_distance_ rhs) then lhs else rhs.

(** The variables that the loop of [DijkstraPaths] changes. *)
Record SSSPState : Type := mkSSSPState {
  st_out : list SSSPResult;
  st_open_flags : list Z;
  st_indices : list Z;
  st_res_tmp : list SSSPResult;
  st_res_tmp_s : list SSSPResult;
  st_nt : nat
}.

(** The [while] loop of [DijkstraPaths]; [None] when [fuel] iterations did
    not empty the open set. *)
Fixpoint DijkstraPaths_loop (fuel : nat) (g : Graph)
    (sorted_lines : list Vector2i) (old_to_new_edge_table : list Z)
    (end_node_index : Z) (st : SSSPState) : option (list SSSPResult) :=
  match fuel with
  | O => None
  | S fuel' =>
      if negb (existsb (Z.eqb 1) (st_open_flags st)) then Some (st_out st)
      else if (0 <=? end_node_index)
              && Nat.eqb (length (List.filter
                   (compare_path_length_functor (st_out st) (st_open_flags st)
                      end_node_index)
                   (take (st_nt st) (st_indices st)))) 0
      then Some (st_out st)
      else
        let '(open1, res_tmp1) :=
          foldl (relax_functor (lines_ g) (edge_index_offsets_ g)
                   (edge_weights_ g) old_to_new_edge_table (st_out st))
                (st_open_flags st, st_res_tmp st)
                (take (st_nt st) (st_indices st)) in
        let runs := thrust.reduce_by_key Z.eqb min_result
                      (sorted_lines.*2) res_tmp1 in
        let indices1 := overwrite (st_indices st) (to_size_t <$> runs.*1) in
        let res_tmp_s1 := overwrite (st_res_tmp_s st) runs.*2 in
        let nt1 := length runs in
        let '(open2, out2) :=
          foldl (update_shortest_distances_functor res_tmp_s1)
                (open1, st_out st) (take nt1 indices1) in
        DijkstraPaths_loop fuel' g sorted_lines old_to_new_edge_table
          end_node_index
          (mkSSSPState out2 open2 indices1 res_tmp1 res_tmp_s1 nt1)
  end.

(** [Graph::DijkstraPaths]; the second component reports [NotConstructed]. *)
Definition DijkstraPaths (fuel : nat) (start_node_index end_node_index : Z)
    (g : Graph) : option (list SSSPResult * option GraphError) :=
  let n := length (points_ g) in
  let m := length (lines_ g) in
  let out := replicate n SSSPResult_default in
  if negb (IsConstructed g) then Some (out, Some NotConstructed)
  else
    let '(sorted_lines, new_to_old_edge_table) :=
      thrust.sort_by_key (fun lhs rhs : Vector2i => lhs.2 <? rhs.2)
        (lines_ g) (thrust.sequence m) in
    let old_to_new_edge_table :=
      thrust.scatter (thrust.sequence m) new_to_old_edge_table
        (replicate m 0) in
    let open_flags := vset (replicate n 0) start_node_index 1 in
    let indices := thrust.sequence n in
    let res_tmp := replicate m SSSPResult_default in
    let res_tmp_s := replicate n SSSPResult_default in
    let out := vset out start_node_index
                 (mkSSSPResult F32.zero start_node_index) in
    match DijkstraPaths_loop fuel g sorted_lines old_to_new_edge_table
            end_node_index
            (mkSSSPState out open_flags indices res_tmp res_tmp_s n) with
    | Some res => Some (res, None)
    | None => None
    end.

(** *** The reference: Dijkstra's algorithm, one vertex at a time *)

(** The unvisited vertex of least distance, the first one among equals. *)
Fixpoint closest_unvisited (dist : list float) (visited : list bool)
    (i : nat) (best : option (nat * float)) : option (nat * float) :=
  match dist, visited with
  | d :: dist', v :: visited' =>
      let best' :=
        if v then best
        else match best with
             | None => Some (i, d)
             | Some (_, bd) => if F32.ltb d bd then Some (i, d) else best
             end in
      closest_unvisited dist' visited' (S i) best'
  | _, _ => best
  end.

(** The edges that leave [u] lower the distances of their targets. *)
Definition relax_from (u : nat) (du : float)
    (edges : list (Vector2i * float)) (dist : list float) : list float :=
  foldl (fun ds (e : Vector2i * float) =>
           if e.1.1 =? Z.of_nat u then
             let cand := F32.add du e.2 in
             if F32.ltb cand (vget F32.infinity ds e.1.2)
             then vset ds e.1.2 cand else ds
           else ds)
        dist edges.

Fixpoint reference_dijkstra_loop (rounds : nat)
    (edges : list (Vector2i * float)) (dist : list float)
    (visited : list bool) : list float :=
  match rounds with
  | O => dist
  | S rounds' =>
      match closest_unvisited dist visited 0 None with
      | None => dist
      | Some (u, du) =>
          reference_dijkstra_loop rounds' edges
            (relax_from u du edges dist) (<[u := true]> visited)
      end
  end.

(** Dijkstra's algorithm from [start] on [n] vertices: every vertex is
    settled once, in the order of its distance. *)
Definition reference_dijkstra (n : nat) (edges : list (Vector2i * float))
    (start : Z) : list float :=
  reference_dijkstra_loop n edges
    (vset (replicate n F32.infinity) start F32.zero) (replicate n false).

(** ** The occupancy grid *)

(** [OccupancyVoxel]: the members of [Voxel] and the log-odds. *)
Record OccupancyVoxel : Type := mkOccupancyVoxel {
  grid_index_ : Vector3i;
  color_ : Vector3f;
  prob_log_ : float
}.

(** [OccupancyVoxel()]: the colour [(0, 0, 1)] and a NaN for the log-odds.
    The index of a default [Voxel] is the origin. *)
Definition OccupancyVoxel_default : OccupancyVoxel :=
  mkOccupancyVoxel (0, 0, 0) (F32.zero, F32.zero, F32.one) F32.quiet_NaN.

(** The state of an [OccupancyGrid]: the members of [DenseGrid] and the
    parameters of the log-odds update. *)
Record OccupancyGrid : Type := mkOccupancyGrid {
  voxel_size_ : float;
  resolution_ : Z;
  origin_ : Vector3f;
  voxels_ : list OccupancyVoxel;
  clamping_thres_min_ : float;
  clamping_thres_max_ : float;
  prob_hit_log_ : float;
  prob_miss_log_ : float;
  occ_prob_thres_log_ : float;
  visualize_free_area_ : bool
}.

Definition set_voxels (v : list OccupancyVoxel) (g : OccupancyGrid)
  : OccupancyGrid :=
  mkOccupancyGrid (voxel_size_ g) (resolution_ g) (origin_ g) v
    (clamping_thres_min_ g) (clamping_thres_max_ g) (prob_hit_log_ g)
    (prob_miss_log_ g) (occ_prob_thres_log_ g) (visualize_free_area_ g).

(** Modelled from the spec: the constructor of [DenseGrid] is declared in
    densegrid.h, which is not among the sources.  "The dense array is
    allocated up-front at resolution³"; every voxel is unobserved.  The
    parameters of the update take the initial values of occupancygrid.h:
    -2.0, 3.5, 0.85, -0.4 and 0.0. *)
Definition OccupancyGrid_new (voxel_size : float) (resolution : Z)
    (origin : Vector3f) : OccupancyGrid :=
  mkOccupancyGrid voxel_size resolution origin
    (replicate (Z.to_nat (resolution * resolution * resolution))
               OccupancyVoxel_default)
    (F32.of_int (-2)) (F32.of_Z2 7 (-1))
    (F32.div (F32.of_int 17) (F32.of_int 20))
    (F32.div (F32.of_int (-2)) (F32.of_int 5))
    F32.zero true.

(** Modelled from the spec: [IndexOf] is declared in densegrid.h, which is
    not among the sources.  "IndexOf(i,j,k, R) = i + j·R + k·R²". *)
Definition IndexOf (idx : Vector3i) (resolution : Z) : Z :=
  idx.1.1 + idx.1.2 * resolution + idx.2 * resolution * resolution.

(** [OccupancyGrid::GetVoxelIndex] *)
Definition GetVoxelIndex (point : Vector3f) (g : OccupancyGrid) : Z :=
  let voxel_f := Vector3f_div (Vector3f_sub point (origin_ g)) (voxel_size_ g) in
  let h_res := Z.quot (resolution_ g) 2 in
  let voxel_idx :=
    Vector3i_add (Vector3f_cast_int (Vector3f_floor voxel_f))
                 (Vector3i_Constant h_res) in
  let idx := wrap_int (IndexOf voxel_idx (resolution_ g)) in
  if (idx <? 0) || (resolution_ g * resolution_ g * resolution_ g <=? idx)
  then -1 else idx.

(** [OccupancyGrid::IsOccupied] *)
Definition IsOccupied (point : Vector3f) (g : OccupancyGrid) : bool :=
  let idx := GetVoxelIndex point g in
  if idx <? 0 then false
  else
    let voxel := vget OccupancyVoxel_default (voxels_ g) idx in
    negb (F32.isnan (prob_log_ voxel))
    && F32.gtb (prob_log_ voxel) (occ_prob_thres_log_ g).

(** [OccupancyGrid::IsUnknown] *)
Definition IsUnknown (point : Vector3f) (g : OccupancyGrid) : bool :=
  let idx := GetVoxelIndex point g in
  if idx <? 0 then true
  else F32.isnan (prob_log_ (vget OccupancyVoxel_default (voxels_ g) idx)).

(** [OccupancyGrid::ReconstructVoxels] *)
Definition ReconstructVoxels (voxel_size : float) (resolution : Z)
    (g : OccupancyGrid) : OccupancyGrid :=
  mkOccupancyGrid voxel_size resolution (origin_ g)
    (resize_to (Z.to_nat (resolution * resolution * resolution))
               OccupancyVoxel_default (voxels_ g))
    (clamping_thres_min_ g) (clamping_thres_max_ g) (prob_hit_log_ g)
    (prob_miss_log_ g) (occ_prob_thres_log_ g) (visualize_free_area_ g).

(** [OccupancyGrid::AddVoxel] *)
Definition AddVoxel (voxel : Vector3i) (occupied : bool) (g : OccupancyGrid)
  : OccupancyGrid :=
  let idx := wrap_int (IndexOf voxel (resolution_ g)) in
  let max_idx := to_size_t (resolution_ g * resolution_ g * resolution_ g) in
  if (idx <? 0) || (max_idx <=? to_size_t idx) then g
  else
    let org_ov := vget OccupancyVoxel_default (voxels_ g) idx in
    let p0 := if F32.isnan (prob_log_ org_ov) then F32.zero
              else prob_log_ org_ov in
    let p1 := F32.add p0 (if occupied then prob_hit_log_ g
                          else prob_miss_log_ g) in
    let p2 := F32.std_min (F32.std_max p1 (clamping_thres_min_ g))
                          (clamping_thres_max_ g) in
    set_voxels
      (vset (voxels_ g) idx (mkOccupancyVoxel voxel (color_ org_ov) p2)) g.

(** [add_occupancy_functor] *)
Definition add_occupancy_functor (resolution : Z)
    (clamping_thres_min clamping_thres_max prob_miss_log prob_hit_log : float)
    (occupied : bool) (voxels : list OccupancyVoxel) (voxel : Vector3i)
  : list OccupancyVoxel :=
  let idx := to_size_t (IndexOf voxel resolution) in
  let p := prob_log_ (vget OccupancyVoxel_default voxels idx) in
  let p := if F32.isnan p then F32.zero else p in
  let p := F32.add p (if occupied then prob_hit_log else prob_miss_log) in
  let voxels1 :=
    vset voxels idx
      (mkOccupancyVoxel
         (grid_index_ (vget OccupancyVoxel_default voxels idx))
         (color_ (vget OccupancyVoxel_default voxels idx))
         (F32.fminf (F32.fmaxf p clamping_thres_min) clamping_thres_max)) in
  vset voxels1 idx
    (mkOccupancyVoxel voxel
       (color_ (vget OccupancyVoxel_default voxels1 idx))
       (prob_log_ (vget OccupancyVoxel_default voxels1 idx))).

(** [OccupancyGrid::AddVoxels] *)
Definition AddVoxels (voxels : list Vector3i) (occupied : bool)
    (g : OccupancyGrid) : OccupancyGrid :=
  set_voxels
    (foldl (add_occupancy_functor (resolution_ g) (clamping_thres_min_ g)
              (clamping_thres_max_ g) (prob_miss_log_ g) (prob_hit_log_ g)
              occupied)
           (voxels_ g) voxels)
    g.

(** The table [voxel_offset]. *)
Definition voxel_offset : list Vector3f :=
  Vector3i_cast_float <$>
    [(0, 0, 0); (1, 0, 0); (-1, 0, 0); (0, 1, 0); (0, -1, 0); (0, 0, 1);
     (0, 0, -1)].

(** The predicate of the [remove_if] of [ComputeFreeVoxels] and of
    [ComputeOccupiedVoxels]; [max_idx] is a [size_t]. *)
Definition out_of_range_voxel (max_idx : Z) (idx : Vector3i) : bool :=
  (idx.1.1 <? 0) || (idx.1.2 <? 0) || (idx.2 <? 0)
  || (max_idx <=? to_size_t idx.1.1) || (max_idx <=? to_size_t idx.1.2)
  || (max_idx <=? to_size_t idx.2).

(** The end of [ComputeFreeVoxels] and of [ComputeOccupiedVoxels]: the
    [remove_if], the [sort] and the [unique]. *)
Definition compact_voxels (max_idx : Z) (candidates : list Vector3i)
  : list Vector3i :=
  thrust.unique Vector3i_eqb
    (thrust.sort Vector3i_ltb
       (thrust.remove_if (out_of_range_voxel max_idx) candidates)).

(** [thrust::max_element]: the first of the largest elements. *)
Definition max_element (d : float) (l : list float) : float :=
  match l with
  | [] => d
  | x :: l' => foldl (fun best y => if F32.ltb best y then y else best) x l'
  end.

Section Insertion.

(** [intersection_test::LineSegmentAABB] and [INVALID_VOXEL_INDEX] are
    declared in intersection_test.h and voxelgrid.h, which are not among the
    sources: the test of a segment against a box and the sentinel are
    parameters of the insertion. *)
Variable LineSegmentAABB : Vector3f -> Vector3f -> Vector3f -> Vector3f -> bool.
Variable INVALID_VOXEL_INDEX : Z.

(** [compute_intersect_voxel_segment_functor] *)
Definition compute_intersect_voxel_segment_functor
    (points steps : list Vector3f) (viewpoint : Vector3f)
    (half_resolution : Vector3i) (voxel_size : float) (origin : Vector3f)
    (n_div : Z) (idx : Z) : Vector3i :=
  let box_half_size :=
    (F32.div voxel_size (F32.of_int 2), F32.div voxel_size (F32.of_int 2),
     F32.div voxel_size (F32.of_int 2)) in
  let pidx := Z.quot idx (n_div * 7) in
  let svidx := Z.rem idx (n_div * 7) in
  let sidx := Z.quot svidx 7 in
  let vidx := Z.rem svidx 7 in
  let center :=
    Vector3f_add (Vector3f_scale (F32.of_int sidx)
                    (vget Vector3f_Zero steps pidx)) viewpoint in
  let voxel_idx :=
    Vector3f_floor (Vector3f_div (Vector3f_sub center origin) voxel_size) in
  let voxel_center :=
    Vector3f_scale voxel_size
      (Vector3f_add voxel_idx (vget Vector3f_Zero voxel_offset vidx)) in
  let is_intersect :=
    LineSegmentAABB viewpoint (vget Vector3f_Zero points pidx)
      (Vector3f_sub voxel_center box_half_size)
      (Vector3f_add voxel_center box_half_size) in
  if is_intersect
  then Vector3i_add (Vector3f_cast_int voxel_idx) half_resolution
  else (INVALID_VOXEL_INDEX, INVALID_VOXEL_INDEX, INVALID_VOXEL_INDEX).

(** [ComputeFreeVoxels]; the last argument is the vector that it fills. *)
Definition ComputeFreeVoxels (points : list Vector3f) (viewpoint : Vector3f)
    (voxel_size : float) (resolution : Z) (origin : Vector3f)
    (steps : list Vector3f) (n_div : Z) (free_voxels : list Vector3i)
  : list Vector3i :=
  if Nat.eqb (length points) 0 then free_voxels
  else
    let n_points := Z.of_nat (length points) in
    let max_idx := to_size_t (resolution * resolution * resolution) in
    let half_resolution := Vector3i_Constant (Z.quot resolution 2) in
    compact_voxels max_idx
      (compute_intersect_voxel_segment_functor points steps viewpoint
         half_resolution voxel_size origin n_div
       <$> seqZ 0 (n_div * n_points * 7)).

(** [create_occupancy_voxels_functor] *)
Definition create_occupancy_voxels_functor (origin : Vector3f)
    (half_resolution : Vector3i) (voxel_size : float)
    (x : Vector3f * bool) : Vector3i :=
  let ref_coord := Vector3f_div (Vector3f_sub x.1 origin) voxel_size in
  if x.2
  then Vector3i_add (Vector3f_cast_int (Vector3f_floor ref_coord))
                    half_resolution
  else (INVALID_VOXEL_INDEX, INVALID_VOXEL_INDEX, INVALID_VOXEL_INDEX).

(** [ComputeOccupiedVoxels] *)
Definition ComputeOccupiedVoxels (points : list Vector3f)
    (hit_flags : list bool) (voxel_size : float) (resolution : Z)
    (origin : Vector3f) : list Vector3i :=
  let max_idx := to_size_t (resolution * resolution * resolution) in
  let half_resolution := Vector3i_Constant (Z.quot resolution 2) in
  compact_voxels max_idx
    (create_occupancy_voxels_functor origin half_resolution voxel_size
     <$> zip points hit_flags).

(** The range clamping of [Insert]: the point, its distance and the hit
    flag. *)
Definition clamp_range (viewpoint : Vector3f) (max_range : float)
    (pt : Vector3f) : Vector3f * float * bool :=
  let pt_vp := Vector3f_sub pt viewpoint in
  let dist := Vector3f_norm pt_vp in
  let is_hit := F32.ltb max_range F32.zero || F32.leb dist max_range in
  (if is_hit then pt
   else Vector3f_add viewpoint
          (Vector3f_scale max_range (Vector3f_div pt_vp dist)),
   if is_hit then dist else max_range,
   is_hit).

(** [OccupancyGrid::Insert] *)
Definition Insert (points : list Vector3f) (viewpoint : Vector3f)
    (max_range : float) (g : OccupancyGrid) : OccupancyGrid :=
  if Nat.eqb (length points) 0 then g
  else
    let ranged := clamp_range viewpoint max_range <$> points in
    let ranged_points := (ranged.*1).*1 in
    let ranged_dists := (ranged.*1).*2 in
    let hit_flags := ranged.*2 in
    let max_dist := max_element F32.zero ranged_dists in
    let n_div := F32.to_int (F32.ceil (F32.div max_dist (voxel_size_ g))) in
    let '(free_voxels, ranged_points, hit_flags) :=
      if 0 <? n_div then
        let steps :=
          (fun pt => Vector3f_div (Vector3f_sub pt viewpoint) (F32.of_int n_div))
            <$> ranged_points in
        (ComputeFreeVoxels ranged_points viewpoint (voxel_size_ g)
           (resolution_ g) (origin_ g) steps (n_div + 1) [],
         ranged_points, hit_flags)
      else ([], points, replicate (length hit_flags) true) in
    let occupied_voxels :=
      ComputeOccupiedVoxels ranged_points hit_flags (voxel_size_ g)
        (resolution_ g) (origin_ g) in
    let g1 :=
      if 0 <? n_div then
        AddVoxels
          (thrust.set_difference Vector3i_ltb free_voxels occupied_voxels)
          false g
      else g in
    AddVoxels occupied_voxels true g1.

End Insertion.

(** ** Sequences of mutations *)

(** The four mutators of the edge list. *)
Inductive GraphOp : Type :=
| Op_AddEdge (edge : Vector2i) (weight : float)
| Op_AddEdges (edges : list Vector2i) (weights : list float)
| Op_RemoveEdge (edge : Vector2i)
| Op_RemoveEdges (edges : list Vector2i).

(** The graph that a call leaves behind; [None] when the call has no
    result, which only [RemoveEdges] can do. *)
Definition apply_op (op : GraphOp) (g : Graph) : option Graph :=
  match op with
  | Op_AddEdge edge weight => Some (AddEdge edge weight g).1
  | Op_AddEdges edges weights => Some (AddEdges edges weights g).1
  | Op_RemoveEdge edge => Some (RemoveEdge edge g).1
  | Op_RemoveEdges edges => fst <$> RemoveEdges edges g
  end.

(** The graphs after the first, the second, ... call of a sequence; the
    sequence ends at a call without a result. *)
Fixpoint states_after (ops : list GraphOp) (g : Graph) : list Graph :=
  match ops with
  | [] => []
  | op :: ops' =>
      match apply_op op g with
      | Some g' => g' :: states_after ops' g'
      | None => []
      end
  end.

(** The calls that change the voxels of a grid. *)
Inductive GridOp : Type :=
| Op_AddVoxel (voxel : Vector3i) (occupied : bool)
| Op_AddVoxels (voxels : list Vector3i) (occupied : bool)
| Op_Insert (points : list Vector3f) (viewpoint : Vector3f) (max_range : float).

Definition apply_grid_op
    (LineSegmentAABB : Vector3f -> Vector3f -> Vector3f -> Vector3f -> bool)
    (INVALID_VOXEL_INDEX : Z) (op : GridOp) (g : OccupancyGrid)
  : OccupancyGrid :=
  match op with
  | Op_AddVoxel voxel occupied => AddVoxel voxel occupied g
  | Op_AddVoxels voxels occupied => AddVoxels voxels occupied g
  | Op_Insert points viewpoint max_range =>
      Insert LineSegmentAABB INVALID_VOXEL_INDEX points viewpoint max_range g
  end.

(** The grids after the first, the second, ... call of a sequence. *)
Fixpoint grids_after
    (LineSegmentAABB : Vector3f -> Vector3f -> Vector3f -> Vector3f -> bool)
    (INVALID_VOXEL_INDEX : Z) (ops : list GridOp) (g : OccupancyGrid)
  : list OccupancyGrid :=
  match ops with
  | [] => []
  | op :: ops' =>
      let g' := apply_grid_op LineSegmentAABB INVALID_VOXEL_INDEX op g in
      g' :: grids_after LineSegmentAABB INVALID_VOXEL_INDEX ops' g'
  end.

(** The invariant of the log-odds: a NaN, or a value between the two
    clamping thresholds. *)
Definition prob_log_in_range (lo hi p : float) : Prop :=
  F32.isnan p = true \/ (F32.leb lo p = true /\ F32.leb p hi = true).

Definition voxels_in_range (g : OccupancyGrid) : Prop :=
  Forall (fun v => prob_log_in_range (clamping_thres_min_ g)
                     (clamping_thres_max_ g) (prob_log_ v))
         (voxels_ g).

(** ** Paths and queries *)

(** The walk of [Graph::DijkstraPath] along the predecessors, from the
    predecessor of the target back to the start; [path_nodes] is in the
    order of the pushes.  [None] when [fuel] steps did not reach the start. *)
Fixpoint DijkstraPath_walk (fuel : nat) (h_res : list SSSPResult)
    (start_node_index prev_index : Z) (path_nodes : list Z)
  : option (list Z) :=
  match fuel with
  | O => None
  | S fuel' =>
      if negb (prev_index =? start_node_index) then
        DijkstraPath_walk fuel' h_res start_node_index
          (prev_index_ (vget SSSPResult_default h_res prev_index))
          (path_nodes ++ [prev_index])
      else Some path_nodes
  end.

(** [Graph::DijkstraPath]; [fuel] bounds the loop of [DijkstraPaths] and the
    walk. *)
Definition DijkstraPath (fuel : nat) (start_node_index end_node_index : Z)
    (g : Graph) : option (list Z) :=
  match DijkstraPaths fuel start_node_index end_node_index g with
  | None => None
  | Some (h_res, _) =>
      if prev_index_ (vget SSSPResult_default h_res end_node_index) <? 0
      then Some []
      else
        match DijkstraPath_walk fuel h_res start_node_index
                (prev_index_ (vget SSSPResult_default h_res end_node_index))
                [end_node_index] with
        | None => None
        | Some path_nodes => Some (rev (path_nodes ++ [start_node_index]))
        end
  end.

(** The three predicates on a voxel that the counts and the extractions of
    the grid share. *)
Definition is_known_voxel (v : OccupancyVoxel) : bool :=
  negb (F32.isnan (prob_log_ v)).
Definition is_free_voxel (th : float) (v : OccupancyVoxel) : bool :=
  negb (F32.isnan (prob_log_ v)) && F32.leb (prob_log_ v) th.
Definition is_occupied_voxel (th : float) (v : OccupancyVoxel) : bool :=
  negb (F32.isnan (prob_log_ v)) && F32.gtb (prob_log_ v) th.

(** [thrust::count_if] *)
Definition count_if {A : Type} (pred : A -> bool) (l : list A) : nat :=
  length (List.filter pred l).

(** [OccupancyGrid::CountKnownVoxels], [CountFreeVoxels] and
    [CountOccupiedVoxels] *)
Definition CountKnownVoxels (g : OccupancyGrid) : nat :=
  count_if is_known_voxel (voxels_ g).
Definition CountFreeVoxels (g : OccupancyGrid) : nat :=
  count_if (is_free_voxel (occ_prob_thres_log_ g)) (voxels_ g).
Definition CountOccupiedVoxels (g : OccupancyGrid) : nat :=
  count_if (is_occupied_voxel (occ_prob_thres_log_ g)) (voxels_ g).

(** [thrust::copy_if] into a vector [out]. *)
Definition copy_if {A : Type} (pred : A -> bool) (l out : list A) : list A :=
  overwrite out (List.filter pred l).

(** [OccupancyGrid::ExtractKnownVoxels], [ExtractFreeVoxels] and
    [ExtractOccupiedVoxels]: a vector of the counted size is filled by
    [copy_if]. *)
Definition ExtractKnownVoxels (g : OccupancyGrid) : list OccupancyVoxel :=
  copy_if is_known_voxel (voxels_ g)
    (replicate (CountKnownVoxels g) OccupancyVoxel_default).
Definition ExtractFreeVoxels (g : OccupancyGrid) : list OccupancyVoxel :=
  copy_if (is_free_voxel (occ_prob_thres_log_ g)) (voxels_ g)
    (replicate (CountFreeVoxels g) OccupancyVoxel_default).
Definition ExtractOccupiedVoxels (g : OccupancyGrid) : list OccupancyVoxel :=
  copy_if (is_occupied_voxel (occ_prob_thres_log_ g)) (voxels_ g)
    (replicate (CountOccupiedVoxels g) OccupancyVoxel_default).

(** [OccupancyGrid::ExtractKnownVoxelIndices], [ExtractFreeVoxelIndices] and
    [ExtractOccupiedVoxelIndices]: the indices of the voxels that pass, the
    log-odds going to the discard iterator. *)
Definition ExtractKnownVoxelIndices (g : OccupancyGrid) : list Vector3i :=
  overwrite (replicate (CountKnownVoxels g) (0, 0, 0))
    (grid_index_ <$> List.filter is_known_voxel (voxels_ g)).
Definition ExtractFreeVoxelIndices (g : OccupancyGrid) : list Vector3i :=
  overwrite (replicate (CountFreeVoxels g) (0, 0, 0))
    (grid_index_
       <$> List.filter (is_free_voxel (occ_prob_thres_log_ g)) (voxels_ g)).
Definition ExtractOccupiedVoxelIndices (g : OccupancyGrid) : list Vector3i :=
  overwrite (replicate (CountOccupiedVoxels g) (0, 0, 0))
    (grid_index_
       <$> List.filter (is_occupied_voxel (occ_prob_thres_log_ g)) (voxels_ g)).

(** [OccupancyGrid::GetVoxel] *)
Definition GetVoxel (point : Vector3f) (g : OccupancyGrid)
  : bool * OccupancyVoxel :=
  let idx := GetVoxelIndex point g in
  if idx <? 0 then (false, OccupancyVoxel_default)
  else
    let voxel := vget OccupancyVoxel_default (voxels_ g) idx in
    (negb (F32.isnan (prob_log_ voxel)), voxel).

(** [OccupancyGrid::HasVoxels] *)
Definition HasVoxels (g : OccupancyGrid) : bool :=
  negb (Nat.eqb (length (voxels_ g)) 0).

(** The world coordinates of [GetMinBound] and [GetMaxBound]: the index,
    moved by [shift], scaled by the size of a voxel, minus the origin. *)
Definition bound_of (g : OccupancyGrid) (shift : Z) (v : OccupancyVoxel)
  : Vector3f :=
  Vector3f_sub
    (Vector3f_scale (voxel_size_ g)
       (Vector3i_cast_float
          (Vector3i_sub (grid_index_ v) (Vector3i_Constant shift))))
    (origin_ g).

(** [OccupancyGrid::GetMinBound] *)
Definition GetMinBound (g : OccupancyGrid) : Vector3f :=
  match ExtractKnownVoxels g with
  | [] => origin_ g
  | v :: _ => bound_of g (Z.quot (resolution_ g) 2) v
  end.

(** [OccupancyGrid::GetMaxBound] *)
Definition GetMaxBound (g : OccupancyGrid) : Vector3f :=
  match ExtractKnownVoxels g with
  | [] => origin_ g
  | vs => bound_of g (Z.quot (resolution_ g) 2 - 1)
            (List.last vs OccupancyVoxel_default)
  end.

(** ** Orders and predicates of the properties *)

(** [a] is not above [b] in the lexicographic order of the edges. *)
Definition Vector2i_le (a b : Vector2i) : Prop := Vector2i_ltb b a = false.

(** [a] is below [b] in the lexicographic order of the voxel indices. *)
Definition Vector3i_lt (a b : Vector3i) : Prop := Vector3i_ltb a b = true.

(** Every edge of the graph is there in both orientations. *)
Definition symmetric_edges (g : Graph) : Prop :=
  forall a b : Z, In (a, b) (lines_ g) -> In (b, a) (lines_ g).

(** The calls other than [RemoveEdges]. *)
Definition not_bulk_removal (op : GraphOp) : Prop :=
  match op with
  | Op_RemoveEdges _ => False
  | _ => True
  end.

(** The colours that a paint operation starts from: those of the graph when
    [present], else the vector resized to [n] entries, the new ones white. *)
Definition materialised (present : bool) (n : nat) (colors : list Vector3f)
  : list Vector3f :=
  if present then colors else resize_to n Vector3f_Ones colors.

(** A voxel is observed, with log-odds between the thresholds. *)
Definition observed_between (lo hi : float) (v : OccupancyVoxel) : Prop :=
  F32.isnan (prob_log_ v) = false
  /\ F32.leb lo (prob_log_ v) = true /\ F32.leb (prob_log_ v) hi = true.

(** ** Inputs of the examples *)

(** Three vertices: the origin and the two unit points of the plane. *)
Definition three_points : list Vector3f :=
  [(F32.zero, F32.zero, F32.zero); (F32.one, F32.zero, F32.zero);
   (F32.zero, F32.one, F32.zero)].

Definition two_points : list Vector3f := take 2 three_points.

Definition red : Vector3f := (F32.one, F32.zero, F32.zero).

(** [quarters z] is the number [z / 4]. *)
Definition quarters (z : Z) : float := F32.of_Z2 z (-2).

(** A grid of resolution 4 with voxels of side 1, centred on the origin. *)
Definition small_grid : OccupancyGrid :=
  OccupancyGrid_new F32.one 4 Vector3f_Zero.

(** * Properties *)

(** ** Lengths of the vectors *)

Lemma length_resize_to {A : Type} (n : nat) (d : A) (v : list A) :
  length (resize_to n d v) = n.
Proof.
  unfold resize_to. rewrite length_app, length_take, length_replicate. lia.
Qed.


Lemma length_insert_by {A : Type} (comp : A -> A -> bool) (x : A) (l : list A) :
  length (thrust.insert_by comp x l) = S (length l).
Proof.
  induction l as [|y l IH]; simpl; [reflexivity|].
  destruct (comp y x); simpl; [rewrite IH|]; reflexivity.
Qed.

Lemma length_sort {A : Type} (comp : A -> A -> bool) (l : list A) :
  length (thrust.sort comp l) = length l.
Proof.
  unfold thrust.sort.
  induction l as [|x l IH]; simpl; [reflexivity|].
  rewrite length_insert_by. f_equal. exact IH.
Qed.



(** ** The weights stay parallel to the edges *)





Ltac graph_fields :=
  cbn [points_ lines_ colors_ edge_index_offsets_ edge_weights_ node_colors_
       is_directed_ set_lines set_colors set_edge_index_offsets
       set_edge_weights set_node_colors negb andb fst snd] in *.





Lemma store_nil {A : Type} (w l : list A) :
  store [] w = Some l -> w = [] /\ l = [].
Proof.
  unfold store, overwrite. destruct w as [|x w]; cbn.
  - intros H. inversion H. split; reflexivity.
  - discriminate.
Qed.

Lemma difference_pass_nil {V : Type}
    (func : Vector2i * V -> Vector2i * V -> bool) (d : V)
    (rows : list (Vector2i * V)) (removed : list Vector2i) (cnst : V)
    (out : list Vector2i * list V) :
  difference_pass func d rows removed cnst ([], []) = Some out ->
  out = ([], []).
Proof.
  unfold difference_pass.
  destruct (thrust.set_difference_of_sorted func rows
              ((fun e => (e, cnst)) <$> removed)) as [res|];
    [|discriminate].
  cbn [mbind option_bind fst snd].
  destruct (store [] res.*1) as [l|] eqn:E1; [|discriminate].
  destruct (store [] res.*2) as [r|] eqn:E2; [|discriminate].
  cbn [mbind option_bind].
  apply store_nil in E1 as [E1 ->]. apply store_nil in E2 as [_ ->].
  apply fmap_nil_inv in E1. subst res.
  intros H. inversion H. reflexivity.
Qed.

Lemma difference_pass_lines_nil (rows removed out : list Vector2i) :
  difference_pass_lines rows removed [] = Some out -> out = [].
Proof.
  unfold difference_pass_lines.
  destruct (thrust.set_difference_of_sorted Vector2i_ltb rows removed)
    as [res|]; [|discriminate].
  cbn [mbind option_bind].
  destruct (store [] res) as [l|] eqn:E1; [|discriminate].
  cbn [mbind option_bind].
  apply store_nil in E1 as [-> ->].
  intros H. inversion H. reflexivity.
Qed.

(** [RemoveEdges] has a result only when no pass stores a row: the three
    vectors that it swaps in are then empty, and [ConstructGraph] reports
    the graph without edges. *)
Lemma RemoveEdges_returns (edges : list Vector2i) (g : Graph)
    (r : Graph * option GraphError) :
  RemoveEdges edges g = Some r ->
  r = (set_colors [] (set_edge_weights [] (set_lines [] g)),
       Some EmptyGraph).
Proof.
  unfold RemoveEdges. cbv zeta.
  assert (Hz : zip (@nil float) (@nil Vector3f) = []) by reflexivity.
  rewrite Hz.
  destruct (HasColors g), (HasWeights g), (is_directed_ g);
    cbn [andb negb];
    repeat
      match goal with
      | |- context [difference_pass ?f ?d ?rows ?rem ?c ([], [])] =>
          let E := fresh "E" in
          destruct (difference_pass f d rows rem c ([], [])) as [?|] eqn:E;
          [apply difference_pass_nil in E; subst;
           cbn [mbind option_bind fst snd]
          |cbn [mbind option_bind]; discriminate]
      | |- context [difference_pass_lines ?rows ?rem []] =>
          let E := fresh "E" in
          destruct (difference_pass_lines rows rem []) as [?|] eqn:E;
          [apply difference_pass_lines_nil in E; subst;
           cbn [mbind option_bind fst snd]
          |cbn [mbind option_bind]; discriminate]
      end;
    cbn [mbind option_bind fst snd fmap list_fmap];
    intros H; inversion H; reflexivity.
Qed.





(** The calls other than [RemoveEdges] have a result on every graph, so
    that a sequence of them is followed to its end. *)
Lemma states_after_all_calls (ops : list GraphOp) (g : Graph) :
  Forall not_bulk_removal ops -> length (states_after ops g) = length ops.
Proof.
  intros Hops. revert g.
  induction Hops as [|op ops Hop _ IH]; intros g; [reflexivity|].
  cbn [states_after].
  destruct op; cbn [apply_op length]; try (f_equal; apply IH).
  destruct Hop.
Qed.


(** ** The order of binary32 numbers *)

Lemma SFcompare_antisym (a b : float) (c : comparison) :
  SFcompare a b = Some c -> SFcompare b a = Some (CompOpp c).
Proof.
  destruct a as [sa|sa| |sa ma ea], b as [sb|sb| |sb mb eb]; simpl;
    try discriminate;
    try (intros [= <-]; destruct sa; try destruct sb; reflexivity).
  intros [= <-]. f_equal.
  rewrite (Z.compare_antisym ea eb).
  pose proof (Pos.compare_cont_antisym ma mb Eq) as Hm. simpl in Hm.
  destruct sa, sb; simpl; try reflexivity;
    destruct (ea ?= eb); simpl; try reflexivity.
  - rewrite Hm. reflexivity.
  - symmetry. exact Hm.
Qed.

Lemma SFcompare_defined (a b : float) :
  F32.isnan a = false -> F32.isnan b = false ->
  exists c, SFcompare a b = Some c.
Proof.
  destruct a, b; simpl; try discriminate; intros _ _; eexists; reflexivity.
Qed.

Lemma SFcompare_refl (a : float) :
  F32.isnan a = false -> SFcompare a a = Some Eq.
Proof.
  destruct a as [s|s| |s m e]; simpl; try discriminate; intros _;
    try (destruct s; reflexivity).
  rewrite Z.compare_refl, Pos.compare_cont_refl. destruct s; reflexivity.
Qed.

Lemma leb_refl (a : float) : F32.isnan a = false -> F32.leb a a = true.
Proof.
  intros H. unfold F32.leb, SFleb. rewrite (SFcompare_refl a H). reflexivity.
Qed.

Lemma leb_not_nan (a b : float) :
  F32.leb a b = true -> F32.isnan a = false /\ F32.isnan b = false.
Proof.
  unfold F32.leb, SFleb.
  destruct a, b; simpl; try discriminate; intros _; split; reflexivity.
Qed.

Lemma ltb_false_leb (a b : float) :
  F32.isnan a = false -> F32.isnan b = false ->
  F32.ltb a b = false -> F32.leb b a = true.
Proof.
  intros Ha Hb. unfold F32.ltb, F32.leb, SFltb, SFleb.
  destruct (SFcompare_defined a b Ha Hb) as [c Hc].
  rewrite Hc, (SFcompare_antisym a b c Hc).
  destruct c; simpl; try reflexivity; discriminate.
Qed.

Lemma leb_ltb_false (a b : float) :
  F32.leb a b = true -> F32.ltb b a = false.
Proof.
  unfold F32.ltb, F32.leb, SFltb, SFleb.
  destruct (SFcompare a b) as [c|] eqn:Hc; [|discriminate].
  rewrite (SFcompare_antisym a b c Hc).
  destruct c; simpl; try reflexivity; discriminate.
Qed.

Lemma ltb_nan_l (a : float) : F32.ltb S754_nan a = false.
Proof. reflexivity. Qed.

Lemma ltb_nan_r (a : float) : F32.ltb a S754_nan = false.
Proof. destruct a; reflexivity. Qed.

(** ** Clamping *)

(** The clamping of the host code, [std::min(std::max(p, lo), hi)]. *)
Lemma std_clamp_in_range (lo hi p : float) :
  F32.leb lo hi = true ->
  prob_log_in_range lo hi (F32.std_min (F32.std_max p lo) hi).
Proof.
  intros Hle. destruct (leb_not_nan lo hi Hle) as [Hlo Hhi].
  unfold F32.std_min, F32.std_max.
  destruct (F32.isnan p) eqn:Hp.
  - destruct p; try discriminate. rewrite ltb_nan_l, ltb_nan_r. left. reflexivity.
  - right. destruct (F32.ltb p lo) eqn:H1.
    + rewrite (leb_ltb_false lo hi Hle). split; [apply leb_refl, Hlo|exact Hle].
    + pose proof (ltb_false_leb p lo Hp Hlo H1) as Hlp.
      destruct (F32.ltb hi p) eqn:H2.
      * split; [exact Hle|apply leb_refl, Hhi].
      * split; [exact Hlp|apply (ltb_false_leb hi p Hhi Hp H2)].
Qed.

(** The clamping of the device code, [min(max(p, lo), hi)]. *)
Lemma device_clamp_in_range (lo hi p : float) :
  F32.leb lo hi = true ->
  prob_log_in_range lo hi (F32.fminf (F32.fmaxf p lo) hi).
Proof.
  intros Hle. destruct (leb_not_nan lo hi Hle) as [Hlo Hhi].
  right. unfold F32.fminf, F32.fmaxf. rewrite Hlo.
  destruct (F32.isnan p) eqn:Hp.
  - rewrite Hlo, Hhi, (leb_ltb_false lo hi Hle).
    split; [apply leb_refl, Hlo|exact Hle].
  - destruct (F32.ltb p lo) eqn:H1.
    + rewrite Hlo, Hhi, (leb_ltb_false lo hi Hle).
      split; [apply leb_refl, Hlo|exact Hle].
    + pose proof (ltb_false_leb p lo Hp Hlo H1) as Hlp.
      rewrite Hp, Hhi. destruct (F32.ltb hi p) eqn:H2.
      * split; [exact Hle|apply leb_refl, Hhi].
      * split; [exact Hlp|apply (ltb_false_leb hi p Hhi Hp H2)].
Qed.

(** ** The log-odds stay clamped *)

Lemma Forall_vset {A : Type} (P : A -> Prop) (v : list A) (i : Z) (x : A) :
  Forall P v -> P x -> Forall P (vset v i x).
Proof.
  intros Hv Hx. unfold vset. destruct (i <? 0); [exact Hv|].
  apply Forall_insert; assumption.
Qed.

Lemma Forall_vget {A : Type} (P : A -> Prop) (d : A) (v : list A) (i : Z) :
  Forall P v -> P d -> P (vget d v i).
Proof.
  intros Hv Hd. unfold vget. destruct (i <? 0); [exact Hd|].
  destruct (v !! Z.to_nat i) as [x|] eqn:Hx; simpl; [|exact Hd].
  exact (Forall_lookup_1 P v _ x Hv Hx).
Qed.

Lemma AddVoxel_in_range (voxel : Vector3i) (occupied : bool)
    (g : OccupancyGrid) :
  F32.leb (clamping_thres_min_ g) (clamping_thres_max_ g) = true ->
  voxels_in_range g -> voxels_in_range (AddVoxel voxel occupied g).
Proof.
  intros Hle Hg. unfold AddVoxel.
  destruct ((wrap_int (IndexOf voxel (resolution_ g)) <? 0)
            || (to_size_t (resolution_ g * resolution_ g * resolution_ g)
                <=? to_size_t (wrap_int (IndexOf voxel (resolution_ g)))));
    [exact Hg|].
  unfold voxels_in_range. cbn.
  apply Forall_vset; [exact Hg|]. cbn.
  apply std_clamp_in_range, Hle.
Qed.

Lemma add_occupancy_functor_in_range (resolution : Z)
    (lo hi miss hit : float) (occupied : bool)
    (voxels : list OccupancyVoxel) (voxel : Vector3i) :
  F32.leb lo hi = true ->
  Forall (fun v => prob_log_in_range lo hi (prob_log_ v)) voxels ->
  Forall (fun v => prob_log_in_range lo hi (prob_log_ v))
         (add_occupancy_functor resolution lo hi miss hit occupied voxels voxel).
Proof.
  intros Hle Hv. unfold add_occupancy_functor.
  assert (H1 : Forall (fun v => prob_log_in_range lo hi (prob_log_ v))
            (vset voxels (to_size_t (IndexOf voxel resolution))
               (mkOccupancyVoxel
                  (grid_index_ (vget OccupancyVoxel_default voxels
                                  (to_size_t (IndexOf voxel resolution))))
                  (color_ (vget OccupancyVoxel_default voxels
                             (to_size_t (IndexOf voxel resolution))))
                  (F32.fminf
                     (F32.fmaxf
                        (F32.add
                           (if F32.isnan
                                 (prob_log_
                                    (vget OccupancyVoxel_default voxels
                                       (to_size_t (IndexOf voxel resolution))))
                            then F32.zero
                            else prob_log_
                                   (vget OccupancyVoxel_default voxels
                                      (to_size_t (IndexOf voxel resolution))))
                           (if occupied then hit else miss)) lo) hi)))).
  { apply Forall_vset; [exact Hv|]. cbn. apply device_clamp_in_range, Hle. }
  apply Forall_vset; [exact H1|]. cbn.
  apply (Forall_vget (fun v => prob_log_in_range lo hi (prob_log_ v)));
    [exact H1|]. left. reflexivity.
Qed.

Lemma AddVoxels_in_range (voxels : list Vector3i) (occupied : bool)
    (g : OccupancyGrid) :
  F32.leb (clamping_thres_min_ g) (clamping_thres_max_ g) = true ->
  voxels_in_range g -> voxels_in_range (AddVoxels voxels occupied g).
Proof.
  intros Hle Hg. unfold AddVoxels, voxels_in_range. cbn.
  unfold voxels_in_range in Hg. revert Hg.
  generalize (voxels_ g) as vs.
  induction voxels as [|voxel voxels IH]; intros vs Hvs; simpl; [exact Hvs|].
  apply IH, add_occupancy_functor_in_range; assumption.
Qed.

Lemma Insert_in_range
    (LineSegmentAABB : Vector3f -> Vector3f -> Vector3f -> Vector3f -> bool)
    (INVALID_VOXEL_INDEX : Z) (points : list Vector3f) (viewpoint : Vector3f)
    (max_range : float) (g : OccupancyGrid) :
  F32.leb (clamping_thres_min_ g) (clamping_thres_max_ g) = true ->
  voxels_in_range g ->
  voxels_in_range
    (Insert LineSegmentAABB INVALID_VOXEL_INDEX points viewpoint max_range g).
Proof.
  intros Hle Hg. unfold Insert.
  destruct (Nat.eqb (length points) 0); [exact Hg|].
  cbv zeta.
  destruct (0 <? F32.to_int _).
  - apply AddVoxels_in_range; [exact Hle|].
    apply AddVoxels_in_range; assumption.
  - apply AddVoxels_in_range; assumption.
Qed.

Lemma apply_grid_op_thresholds
    (LineSegmentAABB : Vector3f -> Vector3f -> Vector3f -> Vector3f -> bool)
    (INVALID_VOXEL_INDEX : Z) (op : GridOp) (g : OccupancyGrid) :
  clamping_thres_min_ (apply_grid_op LineSegmentAABB INVALID_VOXEL_INDEX op g)
  = clamping_thres_min_ g
  /\ clamping_thres_max_ (apply_grid_op LineSegmentAABB INVALID_VOXEL_INDEX op g)
     = clamping_thres_max_ g.
Proof.
  destruct op; cbn [apply_grid_op].
  - unfold AddVoxel. destruct (_ || _); split; reflexivity.
  - split; reflexivity.
  - unfold Insert. destruct (Nat.eqb _ _); [split; reflexivity|].
    cbv zeta. destruct (0 <? F32.to_int _); split; reflexivity.
Qed.

Lemma apply_grid_op_in_range
    (LineSegmentAABB : Vector3f -> Vector3f -> Vector3f -> Vector3f -> bool)
    (INVALID_VOXEL_INDEX : Z) (op : GridOp) (g : OccupancyGrid) :
  F32.leb (clamping_thres_min_ g) (clamping_thres_max_ g) = true ->
  voxels_in_range g ->
  voxels_in_range (apply_grid_op LineSegmentAABB INVALID_VOXEL_INDEX op g).
Proof.
  destruct op; cbn [apply_grid_op].
  - apply AddVoxel_in_range.
  - apply AddVoxels_in_range.
  - apply Insert_in_range.
Qed.

Lemma unobserved_in_range (g : OccupancyGrid) :
  Forall (fun v => F32.isnan (prob_log_ v) = true) (voxels_ g) ->
  voxels_in_range g.
Proof.
  unfold voxels_in_range. intros H. eapply Forall_impl; [exact H|].
  intros v Hv. left. exact Hv.
Qed.

Lemma grids_after_in_range
    (LineSegmentAABB : Vector3f -> Vector3f -> Vector3f -> Vector3f -> bool)
    (INVALID_VOXEL_INDEX : Z) (ops : list GridOp) (g : OccupancyGrid) :
  F32.leb (clamping_thres_min_ g) (clamping_thres_max_ g) = true ->
  voxels_in_range g ->
  Forall voxels_in_range
         (grids_after LineSegmentAABB INVALID_VOXEL_INDEX ops g).
Proof.
  revert g. induction ops as [|op ops IH]; intros g Hle Hg; cbn.
  - constructor.
  - destruct (apply_grid_op_thresholds LineSegmentAABB INVALID_VOXEL_INDEX
                op g) as [Hlo Hhi].
    constructor.
    + apply apply_grid_op_in_range; assumption.
    + apply IH.
      * rewrite Hlo, Hhi. exact Hle.
      * apply apply_grid_op_in_range; assumption.
Qed.

(** C8: when the lower clamping threshold is not above the upper one, the
    log-odds of every voxel is a NaN or lies between the two thresholds in
    the grid whose voxels are all unobserved and after each call of a
    sequence of [AddVoxel], [AddVoxels] and [Insert] on it. *)
Theorem prob_log_clamped_after_each_call
    (LineSegmentAABB : Vector3f -> Vector3f -> Vector3f -> Vector3f -> bool)
    (INVALID_VOXEL_INDEX : Z) (g : OccupancyGrid) (ops : list GridOp) :
  F32.leb (clamping_thres_min_ g) (clamping_thres_max_ g) = true ->
  Forall (fun v => F32.isnan (prob_log_ v) = true) (voxels_ g) ->
  voxels_in_range g
  /\ Forall voxels_in_range
            (grids_after LineSegmentAABB INVALID_VOXEL_INDEX ops g).
Proof.
  intros Hle Hnan. pose proof (unobserved_in_range g Hnan) as Hg.
  split; [exact Hg|]. apply grids_after_in_range; assumption.
Qed.

(** The grid of resolution 4 after one call of each kind. *)
Lemma prob_log_clamped_small_grid :
  F32.leb (clamping_thres_min_ small_grid) (clamping_thres_max_ small_grid)
  = true
  /\ Forall (fun v => F32.isnan (prob_log_ v) = true) (voxels_ small_grid)
  /\ (voxels_in_range small_grid
      /\ Forall voxels_in_range
            (grids_after (fun _ _ _ _ => true) F32.INT_MIN
               [Op_AddVoxel (3, 2, 2) true;
                Op_AddVoxels [(0, 2, 2); (1, 2, 2)] false;
                Op_Insert [(quarters 6, quarters 2, quarters 2)]
                          (quarters (-6), quarters 2, quarters 2)
                          (F32.of_int (-1))]
               small_grid)).
Proof.
  assert (Hle : F32.leb (clamping_thres_min_ small_grid)
                        (clamping_thres_max_ small_grid) = true)
    by reflexivity.
  assert (Hnan : Forall (fun v => F32.isnan (prob_log_ v) = true)
                        (voxels_ small_grid))
    by (repeat constructor).
  split; [exact Hle|]. split; [exact Hnan|].
  exact (prob_log_clamped_after_each_call (fun _ _ _ _ => true) F32.INT_MIN
           small_grid _ Hle Hnan).
Defined.

(** ** Errors *)

(** C9: [AddEdges] with a list of weights that is not empty and whose length
    differs from the number of edges reports [SizeMismatch] and returns the
    graph as it was: [lines_], [edge_weights_], [colors_] and
    [edge_index_offsets_] are those of the argument. *)
Theorem AddEdges_size_mismatch
    (edges : list Vector2i) (weights : list float) (g : Graph) :
  weights <> [] -> length weights <> length edges ->
  AddEdges edges weights g = (g, Some SizeMismatch)
  /\ lines_ (AddEdges edges weights g).1 = lines_ g
  /\ edge_weights_ (AddEdges edges weights g).1 = edge_weights_ g
  /\ colors_ (AddEdges edges weights g).1 = colors_ g
  /\ edge_index_offsets_ (AddEdges edges weights g).1 = edge_index_offsets_ g.
Proof.
  intros Hne Hlen.
  assert (H : AddEdges edges weights g = (g, Some SizeMismatch)).
  { unfold AddEdges.
    destruct weights as [|w weights]; [congruence|].
    replace (Nat.eqb (length edges) (length (w :: weights))) with false
      by (symmetry; apply Nat.eqb_neq; congruence).
    reflexivity. }
  rewrite H. repeat split.
Qed.

(** Two weights for one edge on a graph that has the edge already. *)
Lemma AddEdges_size_mismatch_two_weights :
  [F32.one; F32.one] <> []
  /\ length [F32.one; F32.one] <> length [(1, 2)]
  /\ (let g := (AddEdge (0, 1) F32.one (Graph_of_points false three_points)).1 in
      AddEdges [(1, 2)] [F32.one; F32.one] g = (g, Some SizeMismatch)
      /\ lines_ (AddEdges [(1, 2)] [F32.one; F32.one] g).1 = lines_ g
      /\ edge_weights_ (AddEdges [(1, 2)] [F32.one; F32.one] g).1
         = edge_weights_ g
      /\ colors_ (AddEdges [(1, 2)] [F32.one; F32.one] g).1 = colors_ g
      /\ edge_index_offsets_ (AddEdges [(1, 2)] [F32.one; F32.one] g).1
         = edge_index_offsets_ g).
Proof.
  assert (H1 : [F32.one; F32.one] <> ([] : list float)) by discriminate.
  assert (H2 : length [F32.one; F32.one] <> length [((1, 2) : Vector2i)])
    by (simpl; lia).
  split; [exact H1|]. split; [exact H2|].
  exact (AddEdges_size_mismatch [(1, 2)] [F32.one; F32.one]
           (AddEdge (0, 1) F32.one (Graph_of_points false three_points)).1
           H1 H2).
Defined.

(** ** The scenarios of the specification *)

(** Scenario 1: the undirected path 0 - 1 - 2 with default weights. *)
Example ConstructGraph_path :
  let g := (AddEdges [(0, 1); (1, 2)] []
              (Graph_of_points false three_points)).1 in
  lines_ g = [(0, 1); (1, 0); (1, 2); (2, 1)]
  /\ edge_index_offsets_ g = [0; 1; 3; 4]
  /\ edge_weights_ g = [F32.one; F32.one; F32.one; F32.one].
Proof. vm_compute. repeat split; reflexivity. Qed.

(** Scenario 2: on that graph the distances from the vertex 0 are 0, 1 and
    2, as Dijkstra's algorithm finds them. *)
Example DijkstraPaths_path :
  let g := (AddEdges [(0, 1); (1, 2)] []
              (Graph_of_points false three_points)).1 in
  DijkstraPaths 8 0 (-1) g
  = Some ([mkSSSPResult F32.zero 0; mkSSSPResult F32.one 0;
           mkSSSPResult (F32.of_int 2) 1], None)
  /\ reference_dijkstra 3 (zip (lines_ g) (edge_weights_ g)) 0
     = [F32.zero; F32.one; F32.of_int 2].
Proof. vm_compute. split; reflexivity. Qed.

(** Scenario 4: the ray from (-3/2, 1/2, 1/2) to (3/2, 1/2, 1/2) in the grid
    of resolution 4 makes the voxels (0, 2, 2), (1, 2, 2) and (2, 2, 2) free
    and the voxel (3, 2, 2) occupied, whatever boxes the segment test
    accepts among those that the samples yield. *)
Example Insert_ray :
  let g := Insert (fun _ _ _ _ => true) F32.INT_MIN
             [(quarters 6, quarters 2, quarters 2)]
             (quarters (-6), quarters 2, quarters 2) (F32.of_int (-1))
             small_grid in
  (fun v => (grid_index_ v, F32.leb (prob_log_ v) (occ_prob_thres_log_ g)))
    <$> List.filter (fun v => negb (F32.isnan (prob_log_ v))) (voxels_ g)
  = [((0, 2, 2), true); ((1, 2, 2), true); ((2, 2, 2), true);
     ((3, 2, 2), false)].
Proof. vm_compute. reflexivity. Qed.

(** ** Membership through the compaction of the voxel candidates *)

Lemma In_insert_by {A : Type} (comp : A -> A -> bool) (x y : A) (l : list A) :
  x = y \/ In x l -> In x (thrust.insert_by comp y l).
Proof.
  induction l as [|z l IH]; simpl.
  - intros [->|[]]. left. reflexivity.
  - intros H. destruct (comp z y); simpl.
    + destruct H as [->|[->|H]].
      * right. apply IH. left. reflexivity.
      * left. reflexivity.
      * right. apply IH. right. exact H.
    + destruct H as [->|[->|H]]; auto.
Qed.

Lemma In_sort {A : Type} (comp : A -> A -> bool) (x : A) (l : list A) :
  In x l -> In x (thrust.sort comp l).
Proof.
  unfold thrust.sort. induction l as [|y l IH]; simpl; [tauto|].
  intros [->|H]; apply In_insert_by; [left; reflexivity|right; apply IH, H].
Qed.

Lemma In_remove_if {A : Type} (pred : A -> bool) (x : A) (l : list A) :
  In x l -> pred x = false -> In x (thrust.remove_if pred l).
Proof.
  intros Hin Hp. unfold thrust.remove_if. apply filter_In.
  split; [exact Hin|]. rewrite Hp. reflexivity.
Qed.

Lemma In_unique_from {A : Type} (eqb : A -> A -> bool) :
  (forall a b, eqb a b = true -> a = b) ->
  forall (l : list A) (prev x : A),
    In x l -> x = prev \/ In x (thrust.unique_from eqb prev l).
Proof.
  intros Heq. induction l as [|y l IH]; intros prev x; simpl; [tauto|].
  intros [->|H].
  - destruct (eqb prev x) eqn:E.
    + left. symmetry. apply Heq, E.
    + right. left. reflexivity.
  - destruct (eqb prev y) eqn:E.
    + apply IH, H.
    + destruct (IH y x H) as [->|H']; right; [left; reflexivity|right; exact H'].
Qed.

Lemma In_unique {A : Type} (eqb : A -> A -> bool) (x : A) (l : list A) :
  (forall a b, eqb a b = true -> a = b) ->
  In x l -> In x (thrust.unique eqb l).
Proof.
  intros Heq. destruct l as [|y l]; simpl; [tauto|].
  intros [->|H]; [left; reflexivity|].
  destruct (In_unique_from eqb Heq l y x H) as [->|H'];
    [left; reflexivity|right; exact H'].
Qed.

Lemma Vector3i_eqb_eq (a b : Vector3i) : Vector3i_eqb a b = true -> a = b.
Proof.
  destruct a as [[a1 a2] a3], b as [[b1 b2] b3]. unfold Vector3i_eqb. simpl.
  rewrite !andb_true_iff, !Z.eqb_eq. intros [[-> ->] ->]. reflexivity.
Qed.

(** A candidate that the predicate of the [remove_if] lets pass is in the
    set of voxels. *)
Lemma compact_voxels_keeps (max_idx : Z) (x : Vector3i)
    (candidates : list Vector3i) :
  In x candidates -> out_of_range_voxel max_idx x = false ->
  In x (compact_voxels max_idx candidates).
Proof.
  intros Hin Hp. unfold compact_voxels.
  apply In_unique; [exact Vector3i_eqb_eq|].
  apply In_sort, In_remove_if; assumption.
Qed.

(** ** Evaluations *)

(** C3: the voxel grid has resolution 4, voxels of side 1 and its centre at
    the origin; the ray goes from (1/4, 1/4, 1/4) to (13/4, 1/4, 1/4), in
    four samples.  Whenever the segment test accepts the box that the last
    sample yields, the voxel (5, 2, 2) is a free voxel, although 5 is not
    below the resolution: the filter compares every coordinate with
    [resolution^3 = 64]. *)
Theorem ComputeFreeVoxels_keeps_voxel_outside_cube
    (LineSegmentAABB : Vector3f -> Vector3f -> Vector3f -> Vector3f -> bool)
    (INVALID_VOXEL_INDEX : Z) :
  LineSegmentAABB (quarters 1, quarters 1, quarters 1)
                  (quarters 13, quarters 1, quarters 1)
                  (quarters 10, quarters (-2), quarters (-2))
                  (quarters 14, quarters 2, quarters 2) = true ->
  In (5, 2, 2)
     (ComputeFreeVoxels LineSegmentAABB INVALID_VOXEL_INDEX
        [(quarters 13, quarters 1, quarters 1)]
        (quarters 1, quarters 1, quarters 1)
        F32.one 4 Vector3f_Zero [(F32.one, F32.zero, F32.zero)] 4 []).
Proof.
  intros H. unfold ComputeFreeVoxels.
  change (Nat.eqb (length [(quarters 13, quarters 1, quarters 1)]) 0)
    with false. cbv iota zeta.
  apply compact_voxels_keeps; [|reflexivity].
  apply list_elem_of_In, (list_elem_of_fmap_2' _ _ 21).
  - apply elem_of_seqZ. simpl. lia.
  - vm_compute. vm_compute in H. rewrite H. reflexivity.
Qed.

(** The segment test that accepts every box. *)
Lemma ComputeFreeVoxels_keeps_voxel_outside_cube_all_boxes :
  (fun _ _ _ _ : Vector3f => true)
    (quarters 1, quarters 1, quarters 1)
    (quarters 13, quarters 1, quarters 1)
    (quarters 10, quarters (-2), quarters (-2))
    (quarters 14, quarters 2, quarters 2) = true
  /\ In (5, 2, 2)
        (ComputeFreeVoxels (fun _ _ _ _ => true) F32.INT_MIN
           [(quarters 13, quarters 1, quarters 1)]
           (quarters 1, quarters 1, quarters 1)
           F32.one 4 Vector3f_Zero [(F32.one, F32.zero, F32.zero)] 4 []).
Proof.
  split; [reflexivity|].
  exact (ComputeFreeVoxels_keeps_voxel_outside_cube
           (fun _ _ _ _ => true) F32.INT_MIN eq_refl).
Defined.

(** C1: the directed graph on two vertices with the edge (0, 1) of weight 1,
    built by [AddEdge], is in the constructed state.  From the start vertex
    0, without target, [DijkstraPaths] ends after one pass and leaves the
    distance of the vertex 1 at infinity; Dijkstra's algorithm on the same
    weighted edge list gives the distance 1.  The segmented reduction writes
    its result for the destination 1 to the row 0 of [res_tmp_s], and the
    update reads the row 1. *)
Theorem DijkstraPaths_misses_reachable_vertex :
  let g := (AddEdge (0, 1) F32.one (Graph_of_points true two_points)).1 in
  lines_ g = [(0, 1)]
  /\ edge_weights_ g = [F32.one]
  /\ edge_index_offsets_ g = [0; 1; 1]
  /\ IsConstructed g = true
  /\ DijkstraPaths 4 0 (-1) g
     = Some ([mkSSSPResult F32.zero 0; mkSSSPResult F32.infinity (-1)], None)
  /\ reference_dijkstra (length (points_ g))
       (zip (lines_ g) (edge_weights_ g)) 0
     = [F32.zero; F32.one].
Proof. vm_compute. repeat split; reflexivity. Qed.

(** C4: in the grid of resolution 4 with voxels of side 1 around the origin,
    the point (-1/2, 5/2, -1/2) has the grid coordinate (1, 4, 1), whose
    second component is not below the resolution.  Its linear index 33 is
    that of the voxel (1, 0, 2); once this voxel is occupied the point is
    reported as occupied and as known.  (The voxel (2, 0, 1) is occupied as
    well: it is the one that the index 33 names when the linearisation runs
    over the coordinates in the opposite order.) *)
Theorem point_outside_cube_reads_voxel :
  let p : Vector3f := (quarters (-2), quarters 10, quarters (-2)) in
  let g := AddVoxel (2, 0, 1) true (AddVoxel (1, 0, 2) true small_grid) in
  Vector3i_add
    (Vector3f_cast_int
       (Vector3f_floor
          (Vector3f_div (Vector3f_sub p (origin_ g)) (voxel_size_ g))))
    (Vector3i_Constant (Z.quot (resolution_ g) 2)) = (1, 4, 1)
  /\ GetVoxelIndex p g = 33
  /\ IndexOf (1, 0, 2) (resolution_ g) = 33
  /\ IsUnknown p g = false
  /\ IsOccupied p g = true.
Proof. vm_compute. repeat split; reflexivity. Qed.

(** C5: the undirected graph with the edge {0, 1}.  [RemoveEdges [(0, 1)]]
    has no result, on the graph that [AddEdge] built (with weights) and on
    the graph whose edge list was stored without weights: on the latter the
    first difference holds the row (1, 0), and the row is stored through
    [new_lines.begin()] while [new_lines] is empty.  No edge list without
    the edge and its reverse is reached. *)
Theorem RemoveEdges_without_result :
  let g := (AddEdge (0, 1) F32.one (Graph_of_points false three_points)).1 in
  let h := set_lines [(0, 1); (1, 0)] (Graph_of_points false three_points) in
  lines_ g = [(0, 1); (1, 0)]
  /\ RemoveEdges [(0, 1)] g = None
  /\ thrust.set_difference_of_sorted Vector2i_ltb (lines_ h)
       (thrust.sort Vector2i_ltb [(0, 1)]) = Some [(1, 0)]
  /\ store (@nil Vector2i) [(1, 0)] = None
  /\ RemoveEdges [(0, 1)] h = None.
Proof. vm_compute. repeat split; reflexivity. Qed.

(** C6: a directed graph with the edge (0, 1), a colour for it and no
    weights.  [ConstructGraph] succeeds and leaves the vector of the weights
    empty: the branch for colours without weights sorts and does not fill. *)
Theorem ConstructGraph_with_colors_leaves_weights_empty :
  let g := PaintEdgeColor (0, 1) red
             (set_lines [(0, 1)] (Graph_of_points true three_points)) in
  colors_ g = [red]
  /\ edge_weights_ g = []
  /\ (ConstructGraph g).2 = None
  /\ lines_ (ConstructGraph g).1 = [(0, 1)]
  /\ edge_weights_ (ConstructGraph g).1 = [].
Proof. vm_compute. repeat split; reflexivity. Qed.

(** C7: on three vertices, [PaintNodesColor [2] red] paints the node 0 and
    leaves the node 2 white: the loop runs over the positions of the list
    and not over its elements. *)
Theorem PaintNodesColor_paints_leading_nodes :
  node_colors_ (PaintNodesColor [2] red (Graph_of_points false three_points))
  = [red; Vector3f_Ones; Vector3f_Ones]
  /\ node_colors_ (PaintNodeColor 2 red (Graph_of_points false three_points))
     = [Vector3f_Ones; Vector3f_Ones; red].
Proof. vm_compute. split; reflexivity. Qed.

(** * Further properties of the code *)

(** ** Sorting *)

Section SortFacts.
Context {A : Type} (comp : A -> A -> bool).

Lemma insert_by_Permutation (x : A) (l : list A) :
  Permutation (thrust.insert_by comp x l) (x :: l).
Proof.
  induction l as [|y l IH]; simpl; [reflexivity|].
  destruct (comp y x); [|reflexivity].
  rewrite IH. apply perm_swap.
Qed.

Lemma sort_Permutation (l : list A) : Permutation (thrust.sort comp l) l.
Proof.
  unfold thrust.sort. induction l as [|x l IH]; simpl; [reflexivity|].
  rewrite insert_by_Permutation, IH. reflexivity.
Qed.

Hypothesis comp_asym : forall a b, comp a b = true -> comp b a = false.
Hypothesis comp_trans :
  forall a b c, comp b a = false -> comp c b = false -> comp c a = false.

Lemma HdRel_insert_by (x y : A) (l : list A) :
  HdRel (fun a b => comp b a = false) y l -> comp x y = false ->
  HdRel (fun a b => comp b a = false) y (thrust.insert_by comp x l).
Proof.
  intros Hl Hxy. destruct l as [|z l]; simpl; [constructor; exact Hxy|].
  destruct (comp z x); constructor; [|exact Hxy].
  inversion Hl; assumption.
Qed.

Lemma Sorted_insert_by (x : A) (l : list A) :
  Sorted (fun a b => comp b a = false) l ->
  Sorted (fun a b => comp b a = false) (thrust.insert_by comp x l).
Proof.
  induction l as [|y l IH]; intros Hs; simpl.
  - repeat constructor.
  - inversion Hs as [|? ? Hs' Hhd]; subst.
    destruct (comp y x) eqn:E.
    + constructor; [apply IH, Hs'|].
      apply HdRel_insert_by; [exact Hhd|apply comp_asym, E].
    + constructor; [exact Hs|constructor; exact E].
Qed.

Lemma sort_Sorted (l : list A) :
  Sorted (fun a b => comp b a = false) (thrust.sort comp l).
Proof.
  unfold thrust.sort. induction l as [|x l IH]; simpl; [constructor|].
  apply Sorted_insert_by, IH.
Qed.

Lemma sort_StronglySorted (l : list A) :
  StronglySorted (fun a b => comp b a = false) (thrust.sort comp l).
Proof.
  apply Sorted_StronglySorted; [|apply sort_Sorted].
  intros a b c Hab Hbc. exact (comp_trans a b c Hab Hbc).
Qed.

End SortFacts.

(** The keys that [sort_by_key] delivers are the sorted keys. *)
Lemma fmap_fst_insert_by {K V : Type} (comp : K -> K -> bool)
    (r : K * V) (rows : list (K * V)) :
  (thrust.insert_by (fun a b : K * V => comp a.1 b.1) r rows).*1
  = thrust.insert_by comp r.1 rows.*1.
Proof.
  induction rows as [|q rows IH]; [reflexivity|].
  cbn [thrust.insert_by]. rewrite !fmap_cons. cbn [thrust.insert_by].
  destruct (comp q.1 r.1); rewrite !fmap_cons; [rewrite IH|]; reflexivity.
Qed.

Lemma fmap_fst_sort {K V : Type} (comp : K -> K -> bool)
    (rows : list (K * V)) :
  (thrust.sort (fun a b : K * V => comp a.1 b.1) rows).*1
  = thrust.sort comp rows.*1.
Proof.
  unfold thrust.sort. induction rows as [|r rows IH]; [reflexivity|].
  rewrite fmap_cons. cbn [foldr].
  rewrite fmap_fst_insert_by. f_equal. exact IH.
Qed.

Lemma sort_by_key_keys {K V : Type} (comp : K -> K -> bool)
    (keys : list K) (vals : list V) :
  (thrust.sort_by_key comp keys vals).1 = thrust.sort comp keys.
Proof.
  unfold thrust.sort_by_key. cbn [fst].
  rewrite fmap_fst_sort, fst_zip; [reflexivity|].
  rewrite length_seq. lia.
Qed.

(** ** The order of the edges *)

Lemma Vector2i_ltb_asym (a b : Vector2i) :
  Vector2i_ltb a b = true -> Vector2i_ltb b a = false.
Proof.
  destruct a as [a1 a2], b as [b1 b2]. unfold Vector2i_ltb. cbn [fst snd].
  destruct (Z.ltb_spec a1 b1), (Z.ltb_spec b1 a1), (Z.eqb_spec a1 b1),
    (Z.eqb_spec b1 a1), (Z.ltb_spec a2 b2), (Z.ltb_spec b2 a2);
    cbn; intros; try reflexivity; try discriminate; lia.
Qed.

Lemma Vector2i_le_trans (a b c : Vector2i) :
  Vector2i_ltb b a = false -> Vector2i_ltb c b = false ->
  Vector2i_ltb c a = false.
Proof.
  destruct a as [a1 a2], b as [b1 b2], c as [c1 c2].
  unfold Vector2i_ltb. cbn [fst snd].
  destruct (Z.ltb_spec b1 a1), (Z.eqb_spec b1 a1), (Z.ltb_spec b2 a2),
    (Z.ltb_spec c1 b1), (Z.eqb_spec c1 b1), (Z.ltb_spec c2 b2),
    (Z.ltb_spec c1 a1), (Z.eqb_spec c1 a1), (Z.ltb_spec c2 a2);
    cbn; intros; try reflexivity; try discriminate; lia.
Qed.

(** ** What [ConstructGraph] does to the edge list and its side arrays *)

Lemma sort_edges_lines (g : Graph) :
  lines_ (sort_edges g) = thrust.sort Vector2i_ltb (lines_ g).
Proof.
  unfold sort_edges.
  destruct (HasColors g), (HasWeights g); cbn [andb negb].
  - rewrite <- (sort_by_key_keys Vector2i_ltb (lines_ g)
                  (zip (edge_weights_ g) (colors_ g))).
    destruct (thrust.sort_by_key _ _ _); reflexivity.
  - rewrite <- (sort_by_key_keys Vector2i_ltb (lines_ g) (colors_ g)).
    destruct (thrust.sort_by_key _ _ _); reflexivity.
  - rewrite <- (sort_by_key_keys Vector2i_ltb (lines_ g) (edge_weights_ g)).
    destruct (thrust.sort_by_key _ _ _); reflexivity.
  - reflexivity.
Qed.

Lemma ConstructGraph_lines (g : Graph) :
  lines_ (ConstructGraph g).1
  = if Nat.eqb (length (lines_ g)) 0 then lines_ g
    else thrust.sort Vector2i_ltb (lines_ g).
Proof.
  unfold ConstructGraph. destruct (Nat.eqb (length (lines_ g)) 0);
    [reflexivity|].
  cbn. apply sort_edges_lines.
Qed.

(** [ConstructGraph] reports [EmptyGraph], and returns the graph as it is,
    exactly when the edge list is empty. *)
Lemma ConstructGraph_error_iff_no_edges (g : Graph) :
  (lines_ g = [] -> ConstructGraph g = (g, Some EmptyGraph))
  /\ (lines_ g <> [] -> (ConstructGraph g).2 = None)
  /\ ((ConstructGraph g).2 = Some EmptyGraph <-> lines_ g = []).
Proof.
  unfold ConstructGraph. destruct (lines_ g) as [|e l] eqn:E; cbn.
  - repeat split; auto. congruence.
  - repeat split; try congruence; discriminate.
Qed.

(** X1: after a [ConstructGraph] that succeeds, the edge list is sorted in
    the lexicographic order and holds the edges it held before, each as
    often as before. *)
Theorem ConstructGraph_sorts_edges (g : Graph) :
  (ConstructGraph g).2 = None ->
  StronglySorted Vector2i_le (lines_ (ConstructGraph g).1)
  /\ Permutation (lines_ (ConstructGraph g).1) (lines_ g).
Proof.
  intros Hok. rewrite ConstructGraph_lines.
  unfold ConstructGraph in Hok.
  destruct (Nat.eqb (length (lines_ g)) 0); [discriminate|].
  split.
  - apply sort_StronglySorted.
    + exact Vector2i_ltb_asym.
    + exact Vector2i_le_trans.
  - apply sort_Permutation.
Qed.

(** A graph with one edge in the wrong place. *)
Lemma ConstructGraph_sorts_edges_two :
  (ConstructGraph
     (set_lines [(1, 0); (0, 1)] (Graph_of_points true two_points))).2 = None
  /\ (StronglySorted Vector2i_le
        (lines_ (ConstructGraph
                   (set_lines [(1, 0); (0, 1)]
                      (Graph_of_points true two_points))).1)
      /\ Permutation
           (lines_ (ConstructGraph
                      (set_lines [(1, 0); (0, 1)]
                         (Graph_of_points true two_points))).1)
           (lines_ (set_lines [(1, 0); (0, 1)]
                      (Graph_of_points true two_points)))).
Proof.
  split; [reflexivity|].
  exact (ConstructGraph_sorts_edges
           (set_lines [(1, 0); (0, 1)] (Graph_of_points true two_points))
           eq_refl).
Defined.

(** ** Rows stay together under [sort_by_key] *)

Lemma permute_front_omap {V : Type} (v0 : list V) (perm : list nat) :
  forall v : list V,
    length perm = length v ->
    Forall (fun i => (i < length v0)%nat) perm ->
    imap (fun j x => match perm !! j with
                     | Some i => default x (v0 !! i)
                     | None => x
                     end) v
    = omap (fun i => v0 !! i) perm.
Proof.
  induction perm as [|i perm IH]; intros [|x v] Hlen Hall;
    try discriminate; [reflexivity|].
  rewrite imap_cons. cbn [lookup list_lookup omap list_omap].
  inversion Hall as [|? ? Hi Hall']; subst.
  destruct (lookup_lt_is_Some_2 v0 i Hi) as [y Hy].
  change (list_lookup i v0) with (v0 !! i). rewrite Hy. cbn [default].
  f_equal. apply (IH v); [|exact Hall'].
  cbn in Hlen. lia.
Qed.

(** The row that the key [r.1] forms with the value at the position [r.2]. *)
Lemma zip_omap_rows {K V : Type} (vals : list V) (rows : list (K * nat)) :
  Forall (fun r : K * nat => (r.2 < length vals)%nat) rows ->
  zip rows.*1 (omap (fun i => vals !! i) rows.*2)
  = omap (fun r : K * nat => (fun x => (r.1, x)) <$> vals !! r.2) rows.
Proof.
  induction rows as [|r rows IH]; intros Hall; [reflexivity|].
  inversion Hall as [|? ? Hr Hall']; subst.
  destruct (lookup_lt_is_Some_2 vals r.2 Hr) as [y Hy].
  rewrite !fmap_cons. cbn [omap list_omap].
  change (list_lookup r.2 vals) with (vals !! r.2). rewrite Hy.
  cbn [fmap option_fmap option_map zip zip_with]. f_equal. apply IH, Hall'.
Qed.

Lemma omap_zip_seq {K V : Type} (vals : list V) (keys : list K) :
  forall s : nat,
    (s + length keys <= length vals)%nat ->
    omap (fun r : K * nat => (fun x => (r.1, x)) <$> vals !! r.2)
         (zip keys (seq s (length keys)))
    = zip keys (drop s vals).
Proof.
  induction keys as [|k keys IH]; intros s Hlen; [reflexivity|].
  cbn [length seq zip zip_with omap list_omap fst snd].
  cbn [length] in Hlen.
  destruct (lookup_lt_is_Some_2 vals s ltac:(lia)) as [y Hy].
  change (list_lookup s vals) with (vals !! s). rewrite Hy.
  cbn [fmap option_fmap option_map].
  rewrite (drop_S vals y s Hy). cbn [zip zip_with]. f_equal.
  apply IH. lia.
Qed.

Lemma sort_by_key_rows {K V : Type} (comp : K -> K -> bool)
    (keys : list K) (vals : list V) :
  length vals = length keys ->
  Permutation
    (zip (thrust.sort_by_key comp keys vals).1
         (thrust.sort_by_key comp keys vals).2)
    (zip keys vals).
Proof.
  intros Hlen. unfold thrust.sort_by_key. cbn [fst snd].
  set (rows := thrust.sort (fun a b : K * nat => comp a.1 b.1)
                 (zip keys (seq 0 (length keys)))).
  assert (Hperm : Permutation rows (zip keys (seq 0 (length keys))))
    by apply sort_Permutation.
  assert (Hall : Forall (fun r : K * nat => (r.2 < length vals)%nat) rows).
  { eapply Permutation_Forall; [symmetry; exact Hperm|].
    apply Forall_forall. intros [k i] Hin.
    apply elem_of_zip_r in Hin.
    apply (proj1 (list_elem_of_In _ _)), in_seq in Hin.
    cbn. lia. }
  unfold thrust.permute_front.
  rewrite (permute_front_omap vals rows.*2 vals).
  - rewrite (zip_omap_rows vals rows Hall), Hperm.
    rewrite (omap_zip_seq vals keys 0) by lia. reflexivity.
  - rewrite length_fmap, (Permutation_length Hperm), length_zip, length_seq.
    lia.
  - apply Forall_fmap. exact Hall.
Qed.

Lemma zip_fmap_fst_r {A B C : Type} (l : list A) :
  forall k : list (B * C),
    zip l k.*1 = (fun r : A * (B * C) => (r.1, r.2.1)) <$> zip l k.
Proof.
  induction l as [|x l IH]; intros [|y k]; try reflexivity.
  rewrite fmap_cons. cbn [zip zip_with]. rewrite fmap_cons. cbn [fst snd].
  f_equal. apply IH.
Qed.

Lemma zip_fmap_snd_r {A B C : Type} (l : list A) :
  forall k : list (B * C),
    zip l k.*2 = (fun r : A * (B * C) => (r.1, r.2.2)) <$> zip l k.
Proof.
  induction l as [|x l IH]; intros [|y k]; try reflexivity.
  rewrite fmap_cons. cbn [zip zip_with]. rewrite fmap_cons. cbn [fst snd].
  f_equal. apply IH.
Qed.

Lemma HasWeights_length (g : Graph) :
  HasWeights g = true -> length (edge_weights_ g) = length (lines_ g).
Proof. unfold HasWeights. apply Nat.eqb_eq. Qed.

Lemma HasColors_length (g : Graph) :
  HasColors g = true -> length (colors_ g) = length (lines_ g).
Proof.
  unfold HasColors. rewrite andb_true_iff. intros [_ H].
  apply Nat.eqb_eq, H.
Qed.

Lemma sort_edges_weight_rows (g : Graph) :
  HasWeights g = true ->
  Permutation (zip (lines_ (sort_edges g)) (edge_weights_ (sort_edges g)))
              (zip (lines_ g) (edge_weights_ g)).
Proof.
  intros Hw. pose proof (HasWeights_length g Hw) as Hlw.
  unfold sort_edges. rewrite Hw.
  destruct (HasColors g) eqn:Hc; cbn [andb negb].
  - pose proof (HasColors_length g Hc) as Hlc.
    pose proof (sort_by_key_rows Vector2i_ltb (lines_ g)
                  (zip (edge_weights_ g) (colors_ g))) as H.
    destruct (thrust.sort_by_key Vector2i_ltb (lines_ g)
                (zip (edge_weights_ g) (colors_ g))) as [l wc].
    cbn [fst snd] in H. graph_fields.
    rewrite zip_fmap_fst_r, H by (rewrite length_zip; lia).
    rewrite <- zip_fmap_fst_r, fst_zip by lia. reflexivity.
  - pose proof (sort_by_key_rows Vector2i_ltb (lines_ g) (edge_weights_ g)
                  Hlw) as H.
    destruct (thrust.sort_by_key Vector2i_ltb (lines_ g) (edge_weights_ g))
      as [l w].
    exact H.
Qed.

Lemma sort_edges_color_rows (g : Graph) :
  HasColors g = true ->
  Permutation (zip (lines_ (sort_edges g)) (colors_ (sort_edges g)))
              (zip (lines_ g) (colors_ g)).
Proof.
  intros Hc. pose proof (HasColors_length g Hc) as Hlc.
  unfold sort_edges. rewrite Hc.
  destruct (HasWeights g) eqn:Hw; cbn [andb negb].
  - pose proof (HasWeights_length g Hw) as Hlw.
    pose proof (sort_by_key_rows Vector2i_ltb (lines_ g)
                  (zip (edge_weights_ g) (colors_ g))) as H.
    destruct (thrust.sort_by_key Vector2i_ltb (lines_ g)
                (zip (edge_weights_ g) (colors_ g))) as [l wc].
    cbn [fst snd] in H. graph_fields.
    rewrite zip_fmap_snd_r, H by (rewrite length_zip; lia).
    rewrite <- zip_fmap_snd_r, snd_zip by lia. reflexivity.
  - pose proof (sort_by_key_rows Vector2i_ltb (lines_ g) (colors_ g) Hlc)
      as H.
    destruct (thrust.sort_by_key Vector2i_ltb (lines_ g) (colors_ g))
      as [l c].
    exact H.
Qed.

Lemma ConstructGraph_weight_rows (g : Graph) :
  HasWeights g = true ->
  Permutation (zip (lines_ (ConstructGraph g).1)
                   (edge_weights_ (ConstructGraph g).1))
              (zip (lines_ g) (edge_weights_ g)).
Proof.
  intros Hw. unfold ConstructGraph.
  destruct (Nat.eqb (length (lines_ g)) 0); [reflexivity|].
  cbn. apply sort_edges_weight_rows, Hw.
Qed.

Lemma ConstructGraph_lines_Permutation (g : Graph) :
  Permutation (lines_ (ConstructGraph g).1) (lines_ g).
Proof.
  rewrite ConstructGraph_lines.
  destruct (Nat.eqb (length (lines_ g)) 0); [reflexivity|].
  apply sort_Permutation.
Qed.

Lemma sort_edges_is_directed (g : Graph) :
  is_directed_ (sort_edges g) = is_directed_ g.
Proof.
  unfold sort_edges.
  destruct (HasColors g), (HasWeights g); cbn [andb negb];
    try destruct (thrust.sort_by_key _ _ _); reflexivity.
Qed.

Lemma ConstructGraph_is_directed (g : Graph) :
  is_directed_ (ConstructGraph g).1 = is_directed_ g.
Proof.
  unfold ConstructGraph.
  destruct (Nat.eqb (length (lines_ g)) 0); [reflexivity|].
  cbn. apply sort_edges_is_directed.
Qed.

Lemma ConstructGraph_color_rows (g : Graph) :
  HasColors g = true ->
  Permutation (zip (lines_ (ConstructGraph g).1) (colors_ (ConstructGraph g).1))
              (zip (lines_ g) (colors_ g)).
Proof.
  intros Hc. unfold ConstructGraph.
  destruct (Nat.eqb (length (lines_ g)) 0); [reflexivity|].
  cbn. apply sort_edges_color_rows, Hc.
Qed.

(** X2: [ConstructGraph] keeps every weight with its edge: when the weights
    are parallel to the edges on entry, the rows of edges and weights
    afterwards are the rows before, in another order. *)
Theorem ConstructGraph_keeps_weights_with_edges (g : Graph) :
  HasWeights g = true ->
  Permutation (zip (lines_ (ConstructGraph g).1)
                   (edge_weights_ (ConstructGraph g).1))
              (zip (lines_ g) (edge_weights_ g)).
Proof. apply ConstructGraph_weight_rows. Qed.

(** Two edges with different weights, stored in descending order. *)
Lemma ConstructGraph_keeps_weights_with_edges_two :
  let g := set_edge_weights [F32.of_int 2; F32.one]
             (set_lines [(1, 0); (0, 1)] (Graph_of_points true two_points)) in
  HasWeights g = true
  /\ Permutation (zip (lines_ (ConstructGraph g).1)
                      (edge_weights_ (ConstructGraph g).1))
                 (zip (lines_ g) (edge_weights_ g)).
Proof.
  split; [reflexivity|].
  exact (ConstructGraph_keeps_weights_with_edges
           (set_edge_weights [F32.of_int 2; F32.one]
              (set_lines [(1, 0); (0, 1)] (Graph_of_points true two_points)))
           eq_refl).
Defined.

(** X3: [ConstructGraph] keeps every colour with its edge, with or without
    weights: when the colours are present on entry, the rows of edges and
    colours afterwards are the rows before, in another order. *)
Theorem ConstructGraph_keeps_colors_with_edges (g : Graph) :
  HasColors g = true ->
  Permutation (zip (lines_ (ConstructGraph g).1) (colors_ (ConstructGraph g).1))
              (zip (lines_ g) (colors_ g)).
Proof. apply ConstructGraph_color_rows. Qed.

(** Two edges with different colours, stored in descending order. *)
Lemma ConstructGraph_keeps_colors_with_edges_two :
  let g := set_colors [red; Vector3f_Ones]
             (set_lines [(1, 0); (0, 1)] (Graph_of_points true two_points)) in
  HasColors g = true
  /\ Permutation (zip (lines_ (ConstructGraph g).1)
                      (colors_ (ConstructGraph g).1))
                 (zip (lines_ g) (colors_ g)).
Proof.
  split; [reflexivity|].
  exact (ConstructGraph_keeps_colors_with_edges
           (set_colors [red; Vector3f_Ones]
              (set_lines [(1, 0); (0, 1)] (Graph_of_points true two_points)))
           eq_refl).
Defined.

Lemma resize_to_nil {A : Type} (n : nat) (x : A) :
  resize_to n x [] = replicate n x.
Proof.
  unfold resize_to. rewrite take_nil. cbn [length app].
  f_equal. lia.
Qed.

(** X4: on a graph with edges, without edge colours and with an empty vector
    of weights, [ConstructGraph] gives every edge the weight 1. *)
Theorem ConstructGraph_default_weights (g : Graph) :
  lines_ g <> [] -> HasColors g = false -> edge_weights_ g = [] ->
  (ConstructGraph g).2 = None
  /\ edge_weights_ (ConstructGraph g).1
     = replicate (length (lines_ g)) F32.one.
Proof.
  intros Hl Hc Hw. unfold ConstructGraph.
  destruct (Nat.eqb (length (lines_ g)) 0) eqn:He.
  { apply Nat.eqb_eq in He. destruct (lines_ g); [congruence|discriminate]. }
  split; [reflexivity|]. cbn. unfold sort_edges.
  assert (Hh : HasWeights g = false).
  { unfold HasWeights. rewrite Hw. cbn [length].
    destruct (length (lines_ g)); [discriminate|reflexivity]. }
  rewrite Hc, Hh. cbn [andb negb]. graph_fields.
  rewrite Hw, resize_to_nil, length_sort. reflexivity.
Qed.

(** The path 0 - 1 - 2 stored without weights. *)
Lemma ConstructGraph_default_weights_path :
  let g := set_lines [(0, 1); (1, 2)] (Graph_of_points true three_points) in
  lines_ g <> [] /\ HasColors g = false /\ edge_weights_ g = []
  /\ ((ConstructGraph g).2 = None
      /\ edge_weights_ (ConstructGraph g).1
         = replicate (length (lines_ g)) F32.one).
Proof.
  assert (H1 : lines_ (set_lines [(0, 1); (1, 2)]
                         (Graph_of_points true three_points)) <> [])
    by discriminate.
  split; [exact H1|]. split; [reflexivity|]. split; [reflexivity|].
  exact (ConstructGraph_default_weights
           (set_lines [(0, 1); (1, 2)] (Graph_of_points true three_points))
           H1 eq_refl eq_refl).
Defined.

(** ** What the mutators do to the edge list *)

Lemma ConstructGraph_lines_sorted (g : Graph) :
  StronglySorted Vector2i_le (lines_ (ConstructGraph g).1).
Proof.
  rewrite ConstructGraph_lines.
  destruct (Nat.eqb (length (lines_ g)) 0) eqn:He.
  - apply Nat.eqb_eq in He. destruct (lines_ g); [constructor|discriminate].
  - apply sort_StronglySorted.
    + exact Vector2i_ltb_asym.
    + exact Vector2i_le_trans.
Qed.

Lemma ConstructGraph_success (g : Graph) :
  lines_ g <> [] -> (ConstructGraph g).2 = None.
Proof. apply ConstructGraph_error_iff_no_edges. Qed.

Lemma AddEdge_before_construct (edge : Vector2i) (weight : float) (g : Graph) :
  exists h : Graph,
    AddEdge edge weight g = ConstructGraph h
    /\ is_directed_ h = is_directed_ g
    /\ lines_ h
       = lines_ g ++ edge :: (if is_directed_ g then []
                              else [(edge.2, edge.1)])
    /\ edge_weights_ h
       = edge_weights_ g ++ weight :: (if is_directed_ g then []
                                       else [weight]).
Proof.
  unfold AddEdge. graph_fields.
  destruct (is_directed_ g) eqn:Hd; graph_fields;
    destruct (HasColors _); graph_fields; rewrite ?Hd; graph_fields;
    eexists; (split; [reflexivity|]); graph_fields;
    rewrite <- ?app_assoc; auto.
Qed.

Lemma fill_from_resize_to {A : Type} (n m : nat) (x z : A) (w : list A) :
  length w = n ->
  thrust.fill_from n x (resize_to (n + m) z w) = w ++ replicate m x.
Proof.
  intros Hw. unfold thrust.fill_from, resize_to.
  rewrite (take_ge w (n + m)) by lia.
  rewrite take_app_le, take_ge by lia.
  rewrite length_app, length_replicate. f_equal. f_equal. lia.
Qed.

Lemma AddEdges_before_construct (edges : list Vector2i)
    (weights : list float) (g : Graph) :
  (weights = [] \/ length weights = length edges) ->
  exists h : Graph,
    AddEdges edges weights g = ConstructGraph h
    /\ is_directed_ h = is_directed_ g
    /\ lines_ h
       = lines_ g ++ edges ++ (if is_directed_ g then []
                               else reverse_index_functor <$> edges)
    /\ (is_directed_ g = true \/ weights <> [] ->
        length (edge_weights_ g) = length (lines_ g) ->
        edge_weights_ h
        = edge_weights_ g
          ++ (if Nat.eqb (length weights) 0
              then replicate (length edges) F32.one
              else weights ++ (if is_directed_ g then [] else weights))).
Proof.
  intros Hok. unfold AddEdges.
  assert (Hg : negb (Nat.eqb (length weights) 0)
               && negb (Nat.eqb (length edges) (length weights)) = false).
  { destruct Hok as [->|Hl]; [reflexivity|].
    rewrite Hl, Nat.eqb_refl, andb_false_r. reflexivity. }
  rewrite Hg. cbn zeta. graph_fields.
  destruct (is_directed_ g) eqn:Hd; graph_fields;
    destruct (Nat.eqb (length weights) 0) eqn:Hz; graph_fields;
    rewrite ?Hd; graph_fields;
    destruct (HasColors _); graph_fields;
    eexists; (split; [reflexivity|]); graph_fields;
    rewrite ?Hd, ?app_nil_r, <- ?app_assoc;
    (split; [reflexivity|]); (split; [reflexivity|]);
    intros Hdw Hlen; try reflexivity.
  - rewrite length_app. apply fill_from_resize_to, Hlen.
  - rewrite length_app. apply fill_from_resize_to, Hlen.
  - apply Nat.eqb_eq in Hz. destruct weights; [|discriminate].
    destruct Hdw; congruence.
  - apply Nat.eqb_eq in Hz. destruct weights; [|discriminate].
    destruct Hdw; congruence.
Qed.

Lemma resize_to_id {A : Type} (n : nat) (d : A) (v : list A) :
  length v = n -> resize_to n d v = v.
Proof.
  intros Hv. unfold resize_to. rewrite take_ge by lia.
  replace (n - length v)%nat with 0%nat by lia. apply app_nil_r.
Qed.

Lemma resize_to_overwrite {A : Type} (d : A) (v w : list A) :
  resize_to (length w) d (overwrite v w) = w.
Proof.
  unfold resize_to, overwrite.
  rewrite take_app_le, take_ge by lia.
  rewrite length_app.
  replace (length w - (length w + length (drop (length w) v)))%nat
    with 0%nat by lia.
  apply app_nil_r.
Qed.

Lemma remove_rows_filter {A B : Type} (p : A -> bool) (l : list A) :
  forall v : list B,
    thrust.remove_rows (p <$> l) v
    = (List.filter (fun r : A * B => negb (p r.1)) (zip l v)).*2.
Proof.
  unfold thrust.remove_rows.
  induction l as [|x l IH]; intros [|y v]; try reflexivity.
  rewrite fmap_cons. cbn [zip zip_with List.filter fst snd].
  destruct (p x); cbn [negb]; rewrite ?fmap_cons; cbn [snd];
    [|f_equal]; apply IH.
Qed.

Lemma filter_zip_fst {A B : Type} (p : A -> bool) (l : list A) :
  forall v : list B,
    length v = length l ->
    (List.filter (fun r : A * B => negb (p r.1)) (zip l v)).*1
    = List.filter (fun x => negb (p x)) l.
Proof.
  induction l as [|x l IH]; intros [|y v] Hlen; try discriminate;
    [reflexivity|].
  cbn [zip zip_with List.filter fst snd].
  destruct (p x); cbn [negb]; rewrite ?fmap_cons; cbn [fst];
    [|f_equal]; apply IH; cbn in Hlen; lia.
Qed.

Lemma remove_rows_self {A : Type} (p : A -> bool) (l : list A) :
  thrust.remove_rows (p <$> l) l = List.filter (fun x => negb (p x)) l.
Proof.
  unfold thrust.remove_rows.
  induction l as [|x l IH]; [reflexivity|].
  rewrite fmap_cons. cbn [zip zip_with List.filter fst snd].
  destruct (p x); cbn [negb]; rewrite ?fmap_cons; cbn [snd];
    [|f_equal]; apply IH.
Qed.

Lemma length_remove_rows {A B : Type} (p : A -> bool) (l : list A)
    (v : list B) :
  length v = length l ->
  length (thrust.remove_rows (p <$> l) v)
  = length (List.filter (fun x => negb (p x)) l).
Proof.
  intros Hlen. rewrite remove_rows_filter, length_fmap.
  rewrite <- (filter_zip_fst p l v Hlen), length_fmap. reflexivity.
Qed.

(** The graph that [RemoveEdge] hands to [ConstructGraph]: the rows whose
    edge is neither the edge nor, on an undirected graph, its reverse. *)
Lemma RemoveEdge_before_construct (edge : Vector2i) (g : Graph) :
  exists h : Graph,
    RemoveEdge edge g = ConstructGraph h
    /\ is_directed_ h = is_directed_ g
    /\ lines_ h
       = thrust.remove_if (check_edge edge (is_directed_ g)) (lines_ g)
    /\ (HasWeights g = true ->
        length (edge_weights_ h) = length (lines_ h)
        /\ zip (lines_ h) (edge_weights_ h)
           = List.filter
               (fun r : Vector2i * float =>
                  negb (check_edge edge (is_directed_ g) r.1))
               (zip (lines_ g) (edge_weights_ g))).
Proof.
  unfold RemoveEdge. unfold resize_all, thrust.remove_if.
  destruct (HasColors g) eqn:Hc, (HasWeights g) eqn:Hw; cbn [andb negb];
    eexists; (split; [reflexivity|]); graph_fields;
    try pose proof (HasColors_length g Hc) as Hlc;
    try pose proof (HasWeights_length g Hw) as Hlw;
    rewrite ?length_remove_rows by (rewrite ?length_zip; lia);
    rewrite ?remove_rows_self;
    rewrite ?(resize_to_id _ _ (List.filter _ (lines_ g))) by reflexivity;
    rewrite ?(resize_to_id _ _ (thrust.remove_rows _ (edge_weights_ g)))
      by (apply length_remove_rows; lia);
    (split; [reflexivity|]); (split; [reflexivity|]);
    try discriminate; intros _;
    (split; [apply length_remove_rows; lia|]);
    rewrite remove_rows_filter;
    rewrite <- (filter_zip_fst _ (lines_ g) (edge_weights_ g)) by lia;
    apply zip_fst_snd.
Qed.

Lemma Vector2i_eqb_eq (a b : Vector2i) : Vector2i_eqb a b = true <-> a = b.
Proof.
  destruct a as [a1 a2], b as [b1 b2]. unfold Vector2i_eqb. cbn [fst snd].
  rewrite andb_true_iff, !Z.eqb_eq. split.
  - intros [-> ->]. reflexivity.
  - intros [= -> ->]. split; reflexivity.
Qed.

Lemma check_edge_false (edge : Vector2i) (is_directed : bool) (l : Vector2i) :
  check_edge edge is_directed l = false
  <-> l <> edge /\ (is_directed = true \/ l <> (edge.2, edge.1)).
Proof.
  unfold check_edge. rewrite orb_false_iff, andb_false_iff.
  rewrite negb_false_iff.
  rewrite <- !not_true_iff_false, !Vector2i_eqb_eq. reflexivity.
Qed.

(** X5: [AddEdge] on a graph whose weights are parallel to its edges never
    fails; afterwards the edge list is sorted, and the rows of edges and
    weights are the rows before and the new edge with its weight, followed
    on an undirected graph by the reverse edge with the same weight. *)
Theorem AddEdge_adds_edge_with_weight
    (edge : Vector2i) (weight : float) (g : Graph) :
  HasWeights g = true ->
  (AddEdge edge weight g).2 = None
  /\ StronglySorted Vector2i_le (lines_ (AddEdge edge weight g).1)
  /\ Permutation
       (zip (lines_ (AddEdge edge weight g).1)
            (edge_weights_ (AddEdge edge weight g).1))
       (zip (lines_ g) (edge_weights_ g)
        ++ (edge, weight)
           :: (if is_directed_ g then []
               else [((edge.2, edge.1), weight)])).
Proof.
  intros Hw. pose proof (HasWeights_length g Hw) as Hlw.
  destruct (AddEdge_before_construct edge weight g)
    as (h & -> & Hd & Hl & Hwt).
  split; [|split].
  - apply ConstructGraph_success. rewrite Hl. destruct (lines_ g); discriminate.
  - apply ConstructGraph_lines_sorted.
  - rewrite ConstructGraph_weight_rows.
    + rewrite Hl, Hwt, zip_with_app by lia.
      destruct (is_directed_ g); reflexivity.
    + unfold HasWeights. rewrite Hl, Hwt, !length_app.
      destruct (is_directed_ g); cbn [length]; apply Nat.eqb_eq; lia.
Qed.

(** An edge of weight 2 added to the undirected graph with the edge {0, 1}. *)
Lemma AddEdge_adds_edge_with_weight_second :
  let g := (AddEdge (0, 1) F32.one (Graph_of_points false three_points)).1 in
  HasWeights g = true
  /\ ((AddEdge (1, 2) (F32.of_int 2) g).2 = None
      /\ StronglySorted Vector2i_le
           (lines_ (AddEdge (1, 2) (F32.of_int 2) g).1)
      /\ Permutation
           (zip (lines_ (AddEdge (1, 2) (F32.of_int 2) g).1)
                (edge_weights_ (AddEdge (1, 2) (F32.of_int 2) g).1))
           (zip (lines_ g) (edge_weights_ g)
            ++ ((1, 2), F32.of_int 2)
               :: (if is_directed_ g then []
                   else [((((1, 2) : Vector2i).2, ((1, 2) : Vector2i).1),
                          F32.of_int 2)]))).
Proof.
  split; [reflexivity|].
  exact (AddEdge_adds_edge_with_weight (1, 2) (F32.of_int 2)
           (AddEdge (0, 1) F32.one (Graph_of_points false three_points)).1
           eq_refl).
Defined.

(** X6: [AddEdges] that passes its size check, on a graph whose weights are
    parallel to its edges, with weights given or on a directed graph:
    afterwards the edge list is sorted, and the rows of edges and weights
    are the rows before, the new edges with their weights (1 when none are
    given) and, on an undirected graph, the reverse edges with the same
    weights. *)
Theorem AddEdges_adds_edges_with_weights
    (edges : list Vector2i) (weights : list float) (g : Graph) :
  HasWeights g = true ->
  weights = [] \/ length weights = length edges ->
  is_directed_ g = true \/ weights <> [] ->
  StronglySorted Vector2i_le (lines_ (AddEdges edges weights g).1)
  /\ Permutation
       (zip (lines_ (AddEdges edges weights g).1)
            (edge_weights_ (AddEdges edges weights g).1))
       (zip (lines_ g) (edge_weights_ g)
        ++ (if Nat.eqb (length weights) 0
            then zip edges (replicate (length edges) F32.one)
            else zip edges weights
                 ++ (if is_directed_ g then []
                     else zip (reverse_index_functor <$> edges) weights))).
Proof.
  intros Hw Hok Hdw. pose proof (HasWeights_length g Hw) as Hlw.
  destruct (AddEdges_before_construct edges weights g Hok)
    as (h & -> & Hd & Hl & Hwt).
  specialize (Hwt Hdw Hlw).
  split; [apply ConstructGraph_lines_sorted|].
  assert (Hcases :
    (Nat.eqb (length weights) 0 = true /\ is_directed_ g = true)
    \/ (Nat.eqb (length weights) 0 = false
        /\ length weights = length edges)).
  { destruct (Nat.eqb (length weights) 0) eqn:Hz.
    - left. split; [reflexivity|]. apply Nat.eqb_eq in Hz.
      destruct weights; [|discriminate]. destruct Hdw; congruence.
    - right. split; [reflexivity|].
      destruct Hok as [->|Hlen]; [discriminate|exact Hlen]. }
  assert (HWh : HasWeights h = true).
  { unfold HasWeights. apply Nat.eqb_eq. rewrite Hl, Hwt.
    destruct Hcases as [[-> ->]|[-> Hlen]].
    - rewrite !length_app, length_replicate. cbn [length]. lia.
    - destruct (is_directed_ g);
        rewrite !length_app, ?length_fmap; cbn [length]; lia. }
  rewrite (ConstructGraph_weight_rows h HWh), Hl, Hwt.
  rewrite zip_with_app by lia. f_equiv.
  destruct Hcases as [[-> ->]|[-> Hlen]].
  - rewrite app_nil_r. reflexivity.
  - destruct (is_directed_ g).
    + rewrite !app_nil_r. reflexivity.
    + rewrite zip_with_app by lia. reflexivity.
Qed.

(** Two weighted edges added to an undirected graph. *)
Lemma AddEdges_adds_edges_with_weights_two :
  let g := (AddEdge (0, 1) F32.one (Graph_of_points false three_points)).1 in
  let edges : list Vector2i := [(1, 2); (0, 2)] in
  let weights := [F32.of_int 2; F32.of_int 3] in
  HasWeights g = true
  /\ (weights = [] \/ length weights = length edges)
  /\ (is_directed_ g = true \/ weights <> [])
  /\ (StronglySorted Vector2i_le (lines_ (AddEdges edges weights g).1)
      /\ Permutation
           (zip (lines_ (AddEdges edges weights g).1)
                (edge_weights_ (AddEdges edges weights g).1))
           (zip (lines_ g) (edge_weights_ g)
            ++ (if Nat.eqb (length weights) 0
                then zip edges (replicate (length edges) F32.one)
                else zip edges weights
                     ++ (if is_directed_ g then []
                         else zip (reverse_index_functor <$> edges)
                                  weights)))).
Proof.
  assert (H1 : [F32.of_int 2; F32.of_int 3] = []
               \/ length [F32.of_int 2; F32.of_int 3]
                  = length [((1, 2) : Vector2i); (0, 2)])
    by (right; reflexivity).
  assert (H2 : is_directed_
                 (AddEdge (0, 1) F32.one
                    (Graph_of_points false three_points)).1 = true
               \/ [F32.of_int 2; F32.of_int 3] <> [])
    by (right; discriminate).
  split; [reflexivity|]. split; [exact H1|]. split; [exact H2|].
  exact (AddEdges_adds_edges_with_weights [(1, 2); (0, 2)]
           [F32.of_int 2; F32.of_int 3]
           (AddEdge (0, 1) F32.one (Graph_of_points false three_points)).1
           eq_refl H1 H2).
Defined.


Lemma check_edge_true (edge : Vector2i) (is_directed : bool) (l : Vector2i) :
  check_edge edge is_directed l = true
  <-> l = edge \/ (is_directed = false /\ l = (edge.2, edge.1)).
Proof.
  unfold check_edge. rewrite orb_true_iff, andb_true_iff, negb_true_iff.
  rewrite !Vector2i_eqb_eq. reflexivity.
Qed.

Lemma Permutation_In_iff {A : Type} (x : A) (l k : list A) :
  Permutation l k -> (In x l <-> In x k).
Proof.
  intros H. split; [apply Permutation_in, H|].
  apply Permutation_in. symmetry. exact H.
Qed.

Lemma In_remove_if_iff {A : Type} (pred : A -> bool) (x : A) (l : list A) :
  In x (thrust.remove_if pred l) <-> In x l /\ pred x = false.
Proof.
  unfold thrust.remove_if. rewrite filter_In, negb_true_iff. reflexivity.
Qed.

Lemma remove_if_nil_iff {A : Type} (pred : A -> bool) (l : list A) :
  thrust.remove_if pred l = [] <-> (forall x, In x l -> pred x = true).
Proof.
  unfold thrust.remove_if. induction l as [|y l IH]; cbn [List.filter].
  - split; [intros _ x []|reflexivity].
  - destruct (pred y) eqn:E; cbn [negb].
    + rewrite IH. split.
      * intros H x [<-|Hx]; [exact E|apply H, Hx].
      * intros H x Hx. apply H. right. exact Hx.
    + split; [discriminate|].
      intros H. specialize (H y (or_introl eq_refl)). congruence.
Qed.

(** X7: after [RemoveEdge] the edge list is sorted and holds exactly the
    edges it held before that differ from the edge and, on an undirected
    graph, from its reverse; the call reports [EmptyGraph] exactly when
    every edge of the graph was the edge or, on an undirected graph, its
    reverse. *)
Theorem RemoveEdge_removes_every_occurrence
    (edge : Vector2i) (g : Graph) (x : Vector2i) :
  StronglySorted Vector2i_le (lines_ (RemoveEdge edge g).1)
  /\ (In x (lines_ (RemoveEdge edge g).1)
      <-> In x (lines_ g) /\ x <> edge
          /\ (is_directed_ g = true \/ x <> (edge.2, edge.1)))
  /\ ((RemoveEdge edge g).2 = Some EmptyGraph
      <-> Forall (fun y : Vector2i =>
                    y = edge
                    \/ (is_directed_ g = false /\ y = (edge.2, edge.1)))
                 (lines_ g)).
Proof.
  destruct (RemoveEdge_before_construct edge g) as (h & -> & Hd & Hl & _).
  split; [apply ConstructGraph_lines_sorted|]. split.
  - rewrite (Permutation_In_iff x _ _ (ConstructGraph_lines_Permutation h)).
    rewrite Hl, In_remove_if_iff, check_edge_false. reflexivity.
  - destruct (ConstructGraph_error_iff_no_edges h) as (_ & _ & ->).
    rewrite Hl, remove_if_nil_iff, Forall_forall.
    split; intros H y Hy.
    + apply check_edge_true, H, (proj1 (list_elem_of_In _ _)), Hy.
    + apply check_edge_true, H, (proj2 (list_elem_of_In _ _)), Hy.
Qed.

(** X8: [RemoveEdge] on a graph whose weights are parallel to its edges
    keeps, with their weights, exactly the rows whose edge is neither the
    edge nor, on an undirected graph, its reverse. *)
Theorem RemoveEdge_keeps_other_rows (edge : Vector2i) (g : Graph) :
  HasWeights g = true ->
  Permutation
    (zip (lines_ (RemoveEdge edge g).1) (edge_weights_ (RemoveEdge edge g).1))
    (List.filter
       (fun r : Vector2i * float =>
          negb (check_edge edge (is_directed_ g) r.1))
       (zip (lines_ g) (edge_weights_ g))).
Proof.
  intros Hw.
  destruct (RemoveEdge_before_construct edge g) as (h & -> & Hd & Hl & Hrows).
  destruct (Hrows Hw) as [Hlen <-].
  apply ConstructGraph_weight_rows. unfold HasWeights.
  rewrite Hlen. apply Nat.eqb_refl.
Qed.

(** The reverse edge removed from the undirected path 0 - 1 - 2. *)
Lemma RemoveEdge_keeps_other_rows_path :
  let g := (AddEdges [(0, 1); (1, 2)] [F32.of_int 2; F32.of_int 3]
              (Graph_of_points false three_points)).1 in
  HasWeights g = true
  /\ Permutation
       (zip (lines_ (RemoveEdge (1, 0) g).1)
            (edge_weights_ (RemoveEdge (1, 0) g).1))
       (List.filter
          (fun r : Vector2i * float =>
             negb (check_edge (1, 0) (is_directed_ g) r.1))
          (zip (lines_ g) (edge_weights_ g))).
Proof.
  split; [reflexivity|].
  exact (RemoveEdge_keeps_other_rows (1, 0)
           (AddEdges [(0, 1); (1, 2)] [F32.of_int 2; F32.of_int 3]
              (Graph_of_points false three_points)).1 eq_refl).
Defined.

(** ** When [RemoveEdges] has a result *)

(** X9: [RemoveEdges] stores the rows that remain into vectors that it
    never sized, so that it has a result only when no row remains: whenever
    the call returns, the edge list, the weights and the edge colours are
    empty, the other members are as before, and [ConstructGraph] has
    reported [EmptyGraph]. *)
Theorem RemoveEdges_returns_without_edges
    (edges : list Vector2i) (g h : Graph) (err : option GraphError) :
  RemoveEdges edges g = Some (h, err) ->
  lines_ h = [] /\ edge_weights_ h = [] /\ colors_ h = []
  /\ err = Some EmptyGraph
  /\ points_ h = points_ g
  /\ edge_index_offsets_ h = edge_index_offsets_ g
  /\ node_colors_ h = node_colors_ g
  /\ is_directed_ h = is_directed_ g.
Proof.
  intros H. apply RemoveEdges_returns in H. inversion H; subst.
  repeat split.
Qed.

(** The only edge of a directed graph is removed. *)
Lemma RemoveEdges_returns_without_edges_single :
  let g := (AddEdge (0, 1) F32.one (Graph_of_points true two_points)).1 in
  let h := set_colors [] (set_edge_weights [] (set_lines [] g)) in
  RemoveEdges [(0, 1)] g = Some (h, Some EmptyGraph)
  /\ (lines_ h = [] /\ edge_weights_ h = [] /\ colors_ h = []
      /\ Some EmptyGraph = Some EmptyGraph
      /\ points_ h = points_ g
      /\ edge_index_offsets_ h = edge_index_offsets_ g
      /\ node_colors_ h = node_colors_ g
      /\ is_directed_ h = is_directed_ g).
Proof.
  assert (H : RemoveEdges [(0, 1)]
                (AddEdge (0, 1) F32.one (Graph_of_points true two_points)).1
              = Some (set_colors []
                        (set_edge_weights []
                           (set_lines []
                              (AddEdge (0, 1) F32.one
                                 (Graph_of_points true two_points)).1)),
                      Some EmptyGraph))
    by (vm_compute; reflexivity).
  split; [exact H|].
  exact (RemoveEdges_returns_without_edges [(0, 1)] _ _ _ H).
Defined.

(** ** Both orientations on an undirected graph *)

Lemma AddEdge_symmetric (edge : Vector2i) (weight : float) (g : Graph) :
  is_directed_ g = false -> symmetric_edges g ->
  is_directed_ (AddEdge edge weight g).1 = false
  /\ symmetric_edges (AddEdge edge weight g).1.
Proof.
  intros Hd Hs.
  destruct (AddEdge_before_construct edge weight g)
    as (h & -> & Hdh & Hl & _).
  split; [rewrite ConstructGraph_is_directed; congruence|].
  intros a b.
  rewrite !(Permutation_In_iff _ _ _ (ConstructGraph_lines_Permutation h)).
  rewrite Hl, Hd, !in_app_iff. cbn [In].
  destruct edge as [e1 e2]. cbn [fst snd].
  intros [H|[[= <- <-]|[[= <- <-]|[]]]]; auto.
Qed.

Lemma In_reverse_edges (a b : Z) (edges : list Vector2i) :
  In (a, b) (reverse_index_functor <$> edges) <-> In (b, a) edges.
Proof.
  induction edges as [|[e1 e2] edges IH]; [reflexivity|].
  rewrite fmap_cons. cbn [In reverse_index_functor fst snd]. rewrite IH.
  split; (intros [[= <- <-]|H]; [left; reflexivity|right; exact H]).
Qed.

Lemma AddEdges_symmetric (edges : list Vector2i) (weights : list float)
    (g : Graph) :
  is_directed_ g = false -> symmetric_edges g ->
  is_directed_ (AddEdges edges weights g).1 = false
  /\ symmetric_edges (AddEdges edges weights g).1.
Proof.
  intros Hd Hs.
  destruct (Nat.eqb (length weights) 0) eqn:Hz.
  - apply Nat.eqb_eq in Hz. destruct weights; [|discriminate].
    destruct (AddEdges_before_construct edges [] g (or_introl eq_refl))
      as (h & -> & Hdh & Hl & _).
    split; [rewrite ConstructGraph_is_directed; congruence|].
    intros a b.
    rewrite !(Permutation_In_iff _ _ _ (ConstructGraph_lines_Permutation h)).
    rewrite Hl, Hd, !in_app_iff, !In_reverse_edges.
    intros [H|[H|H]]; auto.
  - destruct (Nat.eqb (length edges) (length weights)) eqn:Hm.
    + apply Nat.eqb_eq in Hm.
      destruct (AddEdges_before_construct edges weights g
                  (or_intror (eq_sym Hm))) as (h & -> & Hdh & Hl & _).
      split; [rewrite ConstructGraph_is_directed; congruence|].
      intros a b.
      rewrite !(Permutation_In_iff _ _ _ (ConstructGraph_lines_Permutation h)).
      rewrite Hl, Hd, !in_app_iff, !In_reverse_edges.
      intros [H|[H|H]]; auto.
    + unfold AddEdges. rewrite Hz, Hm. cbn [negb andb fst].
      split; assumption.
Qed.

Lemma RemoveEdge_symmetric (edge : Vector2i) (g : Graph) :
  is_directed_ g = false -> symmetric_edges g ->
  is_directed_ (RemoveEdge edge g).1 = false
  /\ symmetric_edges (RemoveEdge edge g).1.
Proof.
  intros Hd Hs.
  destruct (RemoveEdge_before_construct edge g) as (h & -> & Hdh & Hl & _).
  split; [rewrite ConstructGraph_is_directed; congruence|].
  intros a b.
  rewrite !(Permutation_In_iff _ _ _ (ConstructGraph_lines_Permutation h)).
  rewrite Hl, !In_remove_if_iff, !check_edge_false.
  destruct edge as [e1 e2]. cbn [fst snd]. rewrite Hd.
  intros (Hin & Hne & [Hf|Hnr]); [discriminate|].
  split; [apply Hs, Hin|]. split; [|right]; congruence.
Qed.

Lemma states_after_symmetric (ops : list GraphOp) (g : Graph) :
  Forall not_bulk_removal ops ->
  is_directed_ g = false -> symmetric_edges g ->
  Forall symmetric_edges (states_after ops g).
Proof.
  revert g. induction ops as [|op ops IH]; intros g Hops Hd Hs; cbn.
  - constructor.
  - inversion Hops as [|? ? Hop Hops']; subst.
    assert (H : exists h, apply_op op g = Some h
                          /\ is_directed_ h = false /\ symmetric_edges h).
    { destruct op; cbn [apply_op]; [eexists; split; [reflexivity|]..|].
      - apply AddEdge_symmetric; assumption.
      - apply AddEdges_symmetric; assumption.
      - apply RemoveEdge_symmetric; assumption.
      - destruct Hop. }
    destruct H as (h & -> & Hd' & Hs').
    constructor; [exact Hs'|apply IH; assumption].
Qed.

(** X10: on an undirected graph that starts without edges, every call of a
    sequence of [AddEdge], [AddEdges] and [RemoveEdge] has a result, and
    after each call every edge (a, b) of the edge list has its reverse
    (b, a) in the edge list. *)
Theorem undirected_edges_stay_symmetric
    (pts : list Vector3f) (ops : list GraphOp) :
  Forall not_bulk_removal ops ->
  length (states_after ops (Graph_of_points false pts)) = length ops
  /\ Forall symmetric_edges (states_after ops (Graph_of_points false pts)).
Proof.
  intros Hops. split; [apply states_after_all_calls, Hops|].
  apply states_after_symmetric; [exact Hops|reflexivity|].
  intros a b [].
Qed.

(** Three calls on three vertices. *)
Lemma undirected_edges_stay_symmetric_three_calls :
  Forall not_bulk_removal
    [Op_AddEdge (0, 1) F32.one; Op_AddEdges [(1, 2); (2, 0)] [];
     Op_RemoveEdge (2, 1)]
  /\ (length
        (states_after
           [Op_AddEdge (0, 1) F32.one; Op_AddEdges [(1, 2); (2, 0)] [];
            Op_RemoveEdge (2, 1)]
           (Graph_of_points false three_points)) = 3%nat
      /\ Forall symmetric_edges
           (states_after
              [Op_AddEdge (0, 1) F32.one; Op_AddEdges [(1, 2); (2, 0)] [];
               Op_RemoveEdge (2, 1)]
              (Graph_of_points false three_points))).
Proof.
  assert (H : Forall not_bulk_removal
                [Op_AddEdge (0, 1) F32.one; Op_AddEdges [(1, 2); (2, 0)] [];
                 Op_RemoveEdge (2, 1)])
    by (repeat constructor).
  split; [exact H|].
  exact (undirected_edges_stay_symmetric three_points _ H).
Defined.

(** ** Painting *)

Lemma sequence_S (k : nat) :
  thrust.sequence (S k) = thrust.sequence k ++ [Z.of_nat k].
Proof.
  unfold thrust.sequence. rewrite seq_S, fmap_app. reflexivity.
Qed.

Lemma vset_of_nat {A : Type} (v : list A) (i : nat) (x : A) :
  vset v (Z.of_nat i) x = <[i := x]> v.
Proof.
  unfold vset. destruct (Z.ltb_spec (Z.of_nat i) 0); [lia|].
  rewrite Nat2Z.id. reflexivity.
Qed.

Lemma vget_of_nat {A : Type} (d : A) (v : list A) (i : nat) :
  vget d v (Z.of_nat i) = default d (v !! i).
Proof.
  unfold vget. destruct (Z.ltb_spec (Z.of_nat i) 0); [lia|].
  rewrite Nat2Z.id. reflexivity.
Qed.

(** A loop over the positions [0 .. k-1] that stores [c] at the positions
    that [p] selects. *)
Lemma foldl_conditional_vset {A : Type} (p : Z -> bool) (c : A) (v : list A)
    (k : nat) :
  foldl (fun cols idx => if p idx then vset cols idx c else cols) v
        (thrust.sequence k)
  = imap (fun i x => if Nat.ltb i k && p (Z.of_nat i) then c else x) v.
Proof.
  induction k as [|k IH].
  - cbn [thrust.sequence seq fmap list_fmap foldl].
    symmetry. rewrite <- (list_fmap_id v) at 2. rewrite <- imap_const.
    apply imap_ext. intros i x _. reflexivity.
  - rewrite sequence_S, foldl_snoc, IH.
    apply list_eq. intros i.
    destruct (p (Z.of_nat k)) eqn:Hp.
    + rewrite vset_of_nat, list_lookup_insert, !list_lookup_imap,
        length_imap.
      destruct (decide (k = i /\ (k < length v)%nat)) as [[-> Hlt]|Hn].
      * destruct (lookup_lt_is_Some_2 v i Hlt) as [x ->]. cbn [fmap option_fmap option_map].
        rewrite Hp, (proj2 (Nat.ltb_lt i (S i))) by lia. reflexivity.
      * destruct (v !! i) as [x|] eqn:Hx; [|reflexivity]. cbn [fmap option_fmap option_map].
        apply lookup_lt_Some in Hx.
        destruct (Nat.ltb_spec i k), (Nat.ltb_spec i (S k));
          try reflexivity; try lia.
    + rewrite !list_lookup_imap.
      destruct (v !! i) as [x|] eqn:Hx; [|reflexivity]. cbn [fmap option_fmap option_map].
      destruct (Nat.ltb_spec i k), (Nat.ltb_spec i (S k));
        try reflexivity; try lia.
      assert (i = k) by lia. subst. rewrite Hp. reflexivity.
Qed.


Lemma length_materialised_nodes (g : Graph) :
  length (materialised (HasNodeColors g) (length (points_ g)) (node_colors_ g))
  = length (points_ g).
Proof.
  unfold materialised. destruct (HasNodeColors g) eqn:H.
  - apply Nat.eqb_eq, H.
  - apply length_resize_to.
Qed.

Lemma length_materialised_edges (g : Graph) :
  length (materialised (HasColors g) (length (lines_ g)) (colors_ g))
  = length (lines_ g).
Proof.
  unfold materialised. destruct (HasColors g) eqn:H.
  - apply HasColors_length, H.
  - apply length_resize_to.
Qed.

(** X11: [PaintNodeColor] on a vertex of the graph leaves one colour per
    vertex, gives the vertex the colour and keeps the colour of every other
    vertex (white where the node colours were absent). *)
Theorem PaintNodeColor_paints_one_node
    (node : Z) (color : Vector3f) (g : Graph) (j : nat) :
  0 <= node < Z.of_nat (length (points_ g)) ->
  j <> Z.to_nat node ->
  length (node_colors_ (PaintNodeColor node color g)) = length (points_ g)
  /\ node_colors_ (PaintNodeColor node color g) !! Z.to_nat node = Some color
  /\ node_colors_ (PaintNodeColor node color g) !! j
     = materialised (HasNodeColors g) (length (points_ g))
         (node_colors_ g) !! j.
Proof.
  intros Hn Hj. pose proof (length_materialised_nodes g) as Hlen.
  assert (E : node_colors_ (PaintNodeColor node color g)
              = <[Z.to_nat node := color]>
                  (materialised (HasNodeColors g) (length (points_ g))
                     (node_colors_ g))).
  { unfold PaintNodeColor, materialised, vset.
    destruct (Z.ltb_spec node 0); [lia|].
    destruct (HasNodeColors g); reflexivity. }
  rewrite E. split; [rewrite length_insert; exact Hlen|].
  split; [apply list_lookup_insert_eq; lia|].
  apply list_lookup_insert_ne; congruence.
Qed.

(** The middle vertex of three, seen from the last one. *)
Lemma PaintNodeColor_paints_one_node_middle :
  let g := Graph_of_points false three_points in
  0 <= 1 < Z.of_nat (length (points_ g))
  /\ 2%nat <> Z.to_nat 1
  /\ (length (node_colors_ (PaintNodeColor 1 red g)) = length (points_ g)
      /\ node_colors_ (PaintNodeColor 1 red g) !! Z.to_nat 1 = Some red
      /\ node_colors_ (PaintNodeColor 1 red g) !! 2%nat
         = materialised (HasNodeColors g) (length (points_ g))
             (node_colors_ g) !! 2%nat).
Proof.
  assert (H : 0 <= 1 < Z.of_nat
                         (length (points_ (Graph_of_points false three_points))))
    by (cbn; lia).
  assert (H2 : 2%nat <> Z.to_nat 1) by (cbn; lia).
  split; [exact H|]. split; [exact H2|].
  exact (PaintNodeColor_paints_one_node 1 red
           (Graph_of_points false three_points) 2 H H2).
Defined.

(** X12: [PaintNodesColor] paints by position: there is one colour per
    vertex afterwards, and the entry [i] of the node colours becomes the
    colour when [i] is below the number of listed nodes and keeps its colour
    otherwise, whatever the list holds. *)
Theorem PaintNodesColor_paints_by_position
    (nodes : list Z) (color : Vector3f) (g : Graph) (i : nat)
    (x : Vector3f) :
  materialised (HasNodeColors g) (length (points_ g)) (node_colors_ g) !! i
  = Some x ->
  length (node_colors_ (PaintNodesColor nodes color g)) = length (points_ g)
  /\ node_colors_ (PaintNodesColor nodes color g) !! i
     = Some (if Nat.ltb i (length nodes) then color else x).
Proof.
  intros Hx.
  assert (E : node_colors_ (PaintNodesColor nodes color g)
              = imap (fun i x => if Nat.ltb i (length nodes) && true
                                 then color else x)
                  (materialised (HasNodeColors g) (length (points_ g))
                     (node_colors_ g))).
  { rewrite <- (foldl_conditional_vset (fun _ => true)).
    unfold PaintNodesColor, materialised, replace_colors_functor.
    destruct (HasNodeColors g); reflexivity. }
  rewrite E. split.
  - rewrite length_imap. apply length_materialised_nodes.
  - rewrite list_lookup_imap, Hx.
    cbn [fmap option_fmap option_map]. rewrite andb_true_r. reflexivity.
Qed.

(** Two listed nodes on three vertices, seen at the second entry. *)
Lemma PaintNodesColor_paints_by_position_second :
  let g := Graph_of_points false three_points in
  materialised (HasNodeColors g) (length (points_ g)) (node_colors_ g)
    !! 1%nat = Some Vector3f_Ones
  /\ (length (node_colors_ (PaintNodesColor [2; 0] red g))
      = length (points_ g)
      /\ node_colors_ (PaintNodesColor [2; 0] red g) !! 1%nat
         = Some (if Nat.ltb 1 (length [2; 0]) then red else Vector3f_Ones)).
Proof.
  split; [reflexivity|].
  exact (PaintNodesColor_paints_by_position [2; 0] red
           (Graph_of_points false three_points) 1 Vector3f_Ones eq_refl).
Defined.

(** X13: [PaintEdgeColor] changes neither the edges nor the weights nor the
    offsets; it leaves one colour per edge, the colour on every row whose
    edge is the edge or, on an undirected graph, its reverse, and the
    earlier colour (white where the colours were absent) on the others. *)
Theorem PaintEdgeColor_paints_matching_rows
    (edge : Vector2i) (color : Vector3f) (g : Graph) (i : nat)
    (l : Vector2i) (x : Vector3f) :
  lines_ g !! i = Some l ->
  materialised (HasColors g) (length (lines_ g)) (colors_ g) !! i = Some x ->
  lines_ (PaintEdgeColor edge color g) = lines_ g
  /\ edge_weights_ (PaintEdgeColor edge color g) = edge_weights_ g
  /\ edge_index_offsets_ (PaintEdgeColor edge color g) = edge_index_offsets_ g
  /\ length (colors_ (PaintEdgeColor edge color g)) = length (lines_ g)
  /\ colors_ (PaintEdgeColor edge color g) !! i
     = Some (if check_edge edge (is_directed_ g) l then color else x).
Proof.
  intros Hl Hx.
  assert (E : colors_ (PaintEdgeColor edge color g)
              = imap (fun i x =>
                        if Nat.ltb i (length (lines_ g))
                           && check_edge edge (is_directed_ g)
                                (vget Vector2i_Zero (lines_ g) (Z.of_nat i))
                        then color else x)
                  (materialised (HasColors g) (length (lines_ g))
                     (colors_ g))).
  { rewrite <- (foldl_conditional_vset
                  (fun idx => check_edge edge (is_directed_ g)
                                (vget Vector2i_Zero (lines_ g) idx))).
    unfold PaintEdgeColor, materialised.
    destruct (HasColors g); reflexivity. }
  split; [unfold PaintEdgeColor; destruct (HasColors g); reflexivity|].
  split; [unfold PaintEdgeColor; destruct (HasColors g); reflexivity|].
  split; [unfold PaintEdgeColor; destruct (HasColors g); reflexivity|].
  rewrite E. split.
  - rewrite length_imap. apply length_materialised_edges.
  - rewrite list_lookup_imap, Hx.
    cbn [fmap option_fmap option_map].
    rewrite vget_of_nat, Hl. cbn [default].
    rewrite (proj2 (Nat.ltb_lt i (length (lines_ g))))
      by (apply lookup_lt_Some in Hl; exact Hl).
    reflexivity.
Qed.

(** The reverse edge painted on the undirected path 0 - 1 - 2, seen at the
    row of the edge (1, 0). *)
Lemma PaintEdgeColor_paints_matching_rows_reverse :
  let g := (AddEdges [(0, 1); (1, 2)] []
              (Graph_of_points false three_points)).1 in
  lines_ g !! 1%nat = Some (1, 0)
  /\ materialised (HasColors g) (length (lines_ g)) (colors_ g) !! 1%nat
     = Some Vector3f_Ones
  /\ (lines_ (PaintEdgeColor (0, 1) red g) = lines_ g
      /\ edge_weights_ (PaintEdgeColor (0, 1) red g) = edge_weights_ g
      /\ edge_index_offsets_ (PaintEdgeColor (0, 1) red g)
         = edge_index_offsets_ g
      /\ length (colors_ (PaintEdgeColor (0, 1) red g)) = length (lines_ g)
      /\ colors_ (PaintEdgeColor (0, 1) red g) !! 1%nat
         = Some (if check_edge (0, 1) (is_directed_ g) (1, 0)
                 then red else Vector3f_Ones)).
Proof.
  split; [reflexivity|]. split; [reflexivity|].
  exact (PaintEdgeColor_paints_matching_rows (0, 1) red
           (AddEdges [(0, 1); (1, 2)] []
              (Graph_of_points false three_points)).1
           1 (1, 0) Vector3f_Ones eq_refl eq_refl).
Defined.

(** ** Shortest paths: shape of the result and edge cases *)

Lemma length_vset {A : Type} (v : list A) (i : Z) (x : A) :
  length (vset v i x) = length v.
Proof. unfold vset. destruct (i <? 0); [reflexivity|apply length_insert]. Qed.

Lemma update_shortest_distances_length (res_tmp : list SSSPResult)
    (l : list Z) :
  forall st : list Z * list SSSPResult,
    length (foldl (update_shortest_distances_functor res_tmp) st l).2
    = length st.2.
Proof.
  induction l as [|idx l IH]; intros [open_flags res]; [reflexivity|].
  cbn [foldl]. rewrite IH. unfold update_shortest_distances_functor.
  destruct (F32.gtb _ _); cbn [snd]; [apply length_vset|reflexivity].
Qed.

Lemma DijkstraPaths_loop_length (g : Graph) (sorted_lines : list Vector2i)
    (table : list Z) (end_node_index : Z) (fuel : nat) :
  forall (st : SSSPState) (res : list SSSPResult),
    DijkstraPaths_loop fuel g sorted_lines table end_node_index st = Some res ->
    length res = length (st_out st).
Proof.
  induction fuel as [|fuel IH]; intros st res; [discriminate|].
  cbn [DijkstraPaths_loop].
  destruct (negb (existsb (Z.eqb 1) (st_open_flags st)));
    [intros [= <-]; reflexivity|].
  destruct ((0 <=? end_node_index) && _); [intros [= <-]; reflexivity|].
  destruct (foldl (relax_functor _ _ _ _ _) _ _) as [open1 res_tmp1].
  match goal with
  | |- context [foldl (update_shortest_distances_functor ?t) ?s ?l] =>
      pose proof (update_shortest_distances_length t l s) as Hlen;
      destruct (foldl (update_shortest_distances_functor t) s l)
        as [open2 out2]
  end.
  intros H. apply IH in H. cbn [st_out snd] in *. congruence.
Qed.

(** X14: whenever [DijkstraPaths] returns, it returns one result per
    vertex. *)
Theorem DijkstraPaths_one_result_per_vertex
    (fuel : nat) (start_node_index end_node_index : Z) (g : Graph)
    (res : list SSSPResult) (err : option GraphError) :
  DijkstraPaths fuel start_node_index end_node_index g = Some (res, err) ->
  length res = length (points_ g).
Proof.
  unfold DijkstraPaths.
  destruct (negb (IsConstructed g)).
  - intros [= <- _]. apply length_replicate.
  - destruct (thrust.sort_by_key _ _ _) as [sorted_lines table].
    destruct (DijkstraPaths_loop _ _ _ _ _ _) as [r|] eqn:E; [|discriminate].
    intros [= <- _]. apply DijkstraPaths_loop_length in E.
    cbn [st_out] in E. rewrite E, length_vset. apply length_replicate.
Qed.

(** The path 0 - 1 - 2 from the vertex 0. *)
Lemma DijkstraPaths_one_result_per_vertex_path :
  let g := (AddEdges [(0, 1); (1, 2)] []
              (Graph_of_points false three_points)).1 in
  DijkstraPaths 8 0 (-1) g
  = Some ([mkSSSPResult F32.zero 0; mkSSSPResult F32.one 0;
           mkSSSPResult (F32.of_int 2) 1], None)
  /\ length [mkSSSPResult F32.zero 0; mkSSSPResult F32.one 0;
             mkSSSPResult (F32.of_int 2) 1] = length (points_ g).
Proof.
  assert (H : DijkstraPaths 8 0 (-1)
                (AddEdges [(0, 1); (1, 2)] []
                   (Graph_of_points false three_points)).1
              = Some ([mkSSSPResult F32.zero 0; mkSSSPResult F32.one 0;
                       mkSSSPResult (F32.of_int 2) 1], None))
    by (vm_compute; reflexivity).
  split; [exact H|].
  exact (DijkstraPaths_one_result_per_vertex 8 0 (-1) _ _ _ H).
Defined.

(** X15: on a graph whose offsets were not built, [DijkstraPaths] reports
    [NotConstructed] and returns the initial result (infinite distance, no
    predecessor) for every vertex, and [DijkstraPath] to a vertex of the
    graph returns the empty path. *)
Theorem Dijkstra_on_unconstructed_graph
    (fuel : nat) (start_node_index end_node_index : Z) (g : Graph) :
  IsConstructed g = false ->
  0 <= end_node_index < Z.of_nat (length (points_ g)) ->
  DijkstraPaths fuel start_node_index end_node_index g
  = Some (replicate (length (points_ g)) SSSPResult_default,
          Some NotConstructed)
  /\ DijkstraPath fuel start_node_index end_node_index g = Some [].
Proof.
  intros Hc He.
  assert (E : DijkstraPaths fuel start_node_index end_node_index g
              = Some (replicate (length (points_ g)) SSSPResult_default,
                      Some NotConstructed)).
  { unfold DijkstraPaths. rewrite Hc. reflexivity. }
  split; [exact E|].
  unfold DijkstraPath. rewrite E.
  replace (vget SSSPResult_default
             (replicate (length (points_ g)) SSSPResult_default)
             end_node_index) with SSSPResult_default; [reflexivity|].
  unfold vget. destruct (end_node_index <? 0); [reflexivity|].
  destruct (replicate _ _ !! _) as [r|] eqn:Hr; [|reflexivity].
  apply lookup_replicate in Hr as [-> _]. reflexivity.
Qed.

(** Three vertices, an edge list that was stored and never constructed. *)
Lemma Dijkstra_on_unconstructed_graph_stored :
  let g := set_lines [(0, 1); (1, 2)] (Graph_of_points true three_points) in
  IsConstructed g = false
  /\ 0 <= 2 < Z.of_nat (length (points_ g))
  /\ (DijkstraPaths 8 0 2 g
      = Some (replicate (length (points_ g)) SSSPResult_default,
              Some NotConstructed)
      /\ DijkstraPath 8 0 2 g = Some []).
Proof.
  assert (H : 0 <= 2 < Z.of_nat
                (length (points_ (set_lines [(0, 1); (1, 2)]
                                    (Graph_of_points true three_points)))))
    by (cbn; lia).
  split; [reflexivity|]. split; [exact H|].
  exact (Dijkstra_on_unconstructed_graph 8 0 2
           (set_lines [(0, 1); (1, 2)] (Graph_of_points true three_points))
           eq_refl H).
Defined.

Lemma vget_vset_same {A : Type} (d : A) (v : list A) (i : Z) (x : A) :
  0 <= i < Z.of_nat (length v) -> vget d (vset v i x) i = x.
Proof.
  intros Hi. unfold vget, vset. destruct (Z.ltb_spec i 0); [lia|].
  rewrite list_lookup_insert_eq by lia. reflexivity.
Qed.

Lemma vget_vset_other {A : Type} (d : A) (v : list A) (i j : Z) (x : A) :
  i <> j -> vget d (vset v i x) j = vget d v j.
Proof.
  intros Hij. unfold vget, vset.
  destruct (Z.ltb_spec j 0); [reflexivity|].
  destruct (Z.ltb_spec i 0); [reflexivity|].
  rewrite list_lookup_insert_ne by lia. reflexivity.
Qed.

Lemma vget_replicate {A : Type} (d : A) (n : nat) (i : Z) :
  vget d (replicate n d) i = d.
Proof.
  unfold vget. destruct (i <? 0); [reflexivity|].
  destruct (replicate n d !! Z.to_nat i) as [r|] eqn:Hr; [|reflexivity].
  apply lookup_replicate in Hr as [-> _]. reflexivity.
Qed.

Lemma filter_nil_iff {A : Type} (f : A -> bool) (l : list A) :
  (forall x, In x l -> f x = false) -> List.filter f l = [].
Proof.
  induction l as [|y l IH]; intros H; [reflexivity|].
  cbn [List.filter]. rewrite (H y (or_introl eq_refl)).
  apply IH. intros x Hx. apply H. right. exact Hx.
Qed.

(** From a vertex to itself nothing is relaxed: the loop of [DijkstraPaths]
    stops at its first test. *)
Lemma DijkstraPaths_same_vertex (fuel : nat) (s : Z) (g : Graph) :
  IsConstructed g = true ->
  0 <= s < Z.of_nat (length (points_ g)) ->
  DijkstraPaths (S fuel) s s g
  = Some (vset (replicate (length (points_ g)) SSSPResult_default) s
            (mkSSSPResult F32.zero s), None).
Proof.
  intros Hc Hs. unfold DijkstraPaths. rewrite Hc. cbn [negb].
  destruct (thrust.sort_by_key _ _ _) as [sorted_lines table].
  cbn [DijkstraPaths_loop st_open_flags st_out st_nt st_indices].
  assert (Hopen : existsb (Z.eqb 1)
                    (vset (replicate (length (points_ g)) 0) s 1) = true).
  { apply existsb_exists. exists 1. split; [|reflexivity].
    apply (proj1 (list_elem_of_In _ _)), list_elem_of_lookup.
    exists (Z.to_nat s). unfold vset. destruct (Z.ltb_spec s 0); [lia|].
    apply list_lookup_insert_eq. rewrite length_replicate. lia. }
  rewrite Hopen. cbn [negb].
  assert (Hstop : List.filter
            (compare_path_length_functor
               (vset (replicate (length (points_ g)) SSSPResult_default) s
                  (mkSSSPResult F32.zero s))
               (vset (replicate (length (points_ g)) 0) s 1) s)
            (take (length (points_ g)) (thrust.sequence (length (points_ g))))
          = []).
  { apply filter_nil_iff. intros idx _.
    unfold compare_path_length_functor.
    destruct (Z.eq_dec idx s) as [->|Hne].
    - rewrite !vget_vset_same by (rewrite length_replicate; lia).
      cbn. reflexivity.
    - rewrite (vget_vset_other 0) by congruence.
      rewrite vget_replicate. reflexivity. }
  rewrite Hstop. cbn [length Nat.eqb].
  destruct (Z.leb_spec 0 s); [|lia]. reflexivity.
Qed.

(** X16: on a constructed graph, [DijkstraPath] from a vertex to itself
    returns the vertex twice: the target is pushed, then the start. *)
Theorem DijkstraPath_to_itself (fuel : nat) (s : Z) (g : Graph) :
  IsConstructed g = true ->
  0 <= s < Z.of_nat (length (points_ g)) ->
  DijkstraPath (S fuel) s s g = Some [s; s].
Proof.
  intros Hc Hs. unfold DijkstraPath.
  rewrite (DijkstraPaths_same_vertex fuel s g Hc Hs).
  rewrite vget_vset_same by (rewrite length_replicate; lia).
  cbn [prev_index_]. destruct (Z.ltb_spec s 0); [lia|].
  cbn [DijkstraPath_walk]. rewrite Z.eqb_refl. reflexivity.
Qed.

(** The vertex 1 of the path 0 - 1 - 2. *)
Lemma DijkstraPath_to_itself_middle :
  let g := (AddEdges [(0, 1); (1, 2)] []
              (Graph_of_points false three_points)).1 in
  IsConstructed g = true
  /\ 0 <= 1 < Z.of_nat (length (points_ g))
  /\ DijkstraPath 4 1 1 g = Some [1; 1].
Proof.
  assert (H : 0 <= 1 < Z.of_nat
                (length (points_ (AddEdges [(0, 1); (1, 2)] []
                                    (Graph_of_points false three_points)).1)))
    by (cbn; lia).
  split; [reflexivity|]. split; [exact H|].
  exact (DijkstraPath_to_itself 3 1
           (AddEdges [(0, 1); (1, 2)] []
              (Graph_of_points false three_points)).1 eq_refl H).
Defined.

(** Scenario 2 of the specification: the path from 0 to 2. *)
Example DijkstraPath_path :
  DijkstraPath 8 0 2
    (AddEdges [(0, 1); (1, 2)] [] (Graph_of_points false three_points)).1
  = Some [0; 1; 2].
Proof. vm_compute. reflexivity. Qed.

(** ** Queries of the grid *)

(** X17: [GetVoxelIndex] returns -1 or a linear index of the dense array,
    between 0 and [resolution^3]. *)
Theorem GetVoxelIndex_in_bounds (point : Vector3f) (g : OccupancyGrid) :
  GetVoxelIndex point g = -1
  \/ 0 <= GetVoxelIndex point g
        < resolution_ g * resolution_ g * resolution_ g.
Proof.
  unfold GetVoxelIndex. cbv zeta.
  match goal with
  | |- context [if ?c then _ else _] => destruct c eqn:E
  end; [left; reflexivity|right].
  apply orb_false_iff in E as [E1 E2].
  apply Z.ltb_ge in E1. apply Z.leb_gt in E2. lia.
Qed.

(** X18: the three queries of a point agree: the point is unknown exactly
    when [GetVoxel] reports no observation, and no point is both occupied
    and unknown. *)
Theorem point_queries_agree (point : Vector3f) (g : OccupancyGrid) :
  IsUnknown point g = negb (GetVoxel point g).1
  /\ IsOccupied point g && IsUnknown point g = false.
Proof.
  unfold IsUnknown, IsOccupied, GetVoxel.
  destruct (GetVoxelIndex point g <? 0) eqn:E; cbn [fst negb andb].
  - split; reflexivity.
  - split; [rewrite negb_involutive; reflexivity|].
    destruct (F32.isnan _); cbn; [reflexivity|apply andb_false_r].
Qed.

(** ** Counting and extracting *)

Lemma known_free_or_occupied (th : float) (v : OccupancyVoxel) :
  F32.isnan th = false ->
  is_known_voxel v = xorb (is_free_voxel th v) (is_occupied_voxel th v)
  /\ is_free_voxel th v && is_occupied_voxel th v = false.
Proof.
  intros Hth. unfold is_known_voxel, is_free_voxel, is_occupied_voxel.
  destruct (F32.isnan (prob_log_ v)) eqn:Hp; cbn [negb andb];
    [split; reflexivity|].
  unfold F32.gtb. change SFltb with F32.ltb.
  destruct (F32.leb (prob_log_ v) th) eqn:Hle.
  - rewrite (leb_ltb_false _ _ Hle). split; reflexivity.
  - destruct (F32.ltb th (prob_log_ v)) eqn:Hlt; [split; reflexivity|].
    rewrite (ltb_false_leb th (prob_log_ v) Hth Hp Hlt) in Hle. discriminate.
Qed.

Lemma filter_partition {A : Type} (f g h : A -> bool) (l : list A) :
  (forall x, h x = xorb (f x) (g x) /\ f x && g x = false) ->
  Permutation (List.filter f l ++ List.filter g l) (List.filter h l).
Proof.
  intros H. induction l as [|x l IH]; [reflexivity|].
  cbn [List.filter]. destruct (H x) as [Hh Hfg]. rewrite Hh.
  destruct (f x), (g x); cbn [xorb] in *; try discriminate.
  - cbn [app]. constructor. exact IH.
  - rewrite <- Permutation_middle. constructor. exact IH.
  - exact IH.
Qed.

Lemma copy_if_counted {A : Type} (pred : A -> bool) (d : A) (l : list A) :
  copy_if pred l (replicate (count_if pred l) d) = List.filter pred l.
Proof.
  unfold copy_if, count_if, overwrite.
  rewrite drop_ge by (rewrite length_replicate; lia). apply app_nil_r.
Qed.

(** X19: when the threshold is not a NaN, every known voxel is counted as
    free or as occupied and never as both: the count of the known voxels is
    the sum of the other two counts. *)
Theorem CountKnown_is_free_plus_occupied (g : OccupancyGrid) :
  F32.isnan (occ_prob_thres_log_ g) = false ->
  CountKnownVoxels g = (CountFreeVoxels g + CountOccupiedVoxels g)%nat.
Proof.
  intros Hth. unfold CountKnownVoxels, CountFreeVoxels, CountOccupiedVoxels,
    count_if.
  rewrite <- length_app.
  apply Permutation_length. symmetry. apply filter_partition.
  intros v. apply known_free_or_occupied, Hth.
Qed.

(** The grid of resolution 4 after a ray. *)
Lemma CountKnown_is_free_plus_occupied_ray :
  let g := Insert (fun _ _ _ _ => true) F32.INT_MIN
             [(quarters 6, quarters 2, quarters 2)]
             (quarters (-6), quarters 2, quarters 2) (F32.of_int (-1))
             small_grid in
  F32.isnan (occ_prob_thres_log_ g) = false
  /\ CountKnownVoxels g = (CountFreeVoxels g + CountOccupiedVoxels g)%nat.
Proof.
  split; [reflexivity|].
  exact (CountKnown_is_free_plus_occupied
           (Insert (fun _ _ _ _ => true) F32.INT_MIN
              [(quarters 6, quarters 2, quarters 2)]
              (quarters (-6), quarters 2, quarters 2) (F32.of_int (-1))
              small_grid) eq_refl).
Defined.

(** X20: each of the three extractions returns the voxels that pass its
    predicate, in the order of the dense array: as many as the matching
    count, the indices being those of the extracted voxels. *)
Theorem extractions_match_counts (g : OccupancyGrid) :
  ExtractKnownVoxels g = List.filter is_known_voxel (voxels_ g)
  /\ ExtractFreeVoxels g
     = List.filter (is_free_voxel (occ_prob_thres_log_ g)) (voxels_ g)
  /\ ExtractOccupiedVoxels g
     = List.filter (is_occupied_voxel (occ_prob_thres_log_ g)) (voxels_ g)
  /\ length (ExtractKnownVoxels g) = CountKnownVoxels g
  /\ length (ExtractFreeVoxels g) = CountFreeVoxels g
  /\ length (ExtractOccupiedVoxels g) = CountOccupiedVoxels g
  /\ ExtractKnownVoxelIndices g = grid_index_ <$> ExtractKnownVoxels g
  /\ ExtractFreeVoxelIndices g = grid_index_ <$> ExtractFreeVoxels g
  /\ ExtractOccupiedVoxelIndices g = grid_index_ <$> ExtractOccupiedVoxels g.
Proof.
  unfold ExtractKnownVoxels, ExtractFreeVoxels, ExtractOccupiedVoxels,
    CountKnownVoxels, CountFreeVoxels, CountOccupiedVoxels.
  rewrite !copy_if_counted.
  repeat split; try reflexivity;
    unfold ExtractKnownVoxelIndices, ExtractFreeVoxelIndices,
      ExtractOccupiedVoxelIndices, CountKnownVoxels, CountFreeVoxels,
      CountOccupiedVoxels, count_if, overwrite;
    rewrite drop_ge by (rewrite length_replicate, length_fmap; lia);
    apply app_nil_r.
Qed.

(** X21: when the threshold is not a NaN, the free and the occupied voxels
    that are extracted are, together, the known voxels that are extracted. *)
Theorem extractions_partition_known (g : OccupancyGrid) :
  F32.isnan (occ_prob_thres_log_ g) = false ->
  Permutation (ExtractFreeVoxels g ++ ExtractOccupiedVoxels g)
              (ExtractKnownVoxels g).
Proof.
  intros Hth.
  unfold ExtractKnownVoxels, ExtractFreeVoxels, ExtractOccupiedVoxels,
    CountKnownVoxels, CountFreeVoxels, CountOccupiedVoxels.
  rewrite !copy_if_counted. apply filter_partition.
  intros v. apply known_free_or_occupied, Hth.
Qed.

(** The grid of resolution 4 after a ray. *)
Lemma extractions_partition_known_ray :
  let g := Insert (fun _ _ _ _ => true) F32.INT_MIN
             [(quarters 6, quarters 2, quarters 2)]
             (quarters (-6), quarters 2, quarters 2) (F32.of_int (-1))
             small_grid in
  F32.isnan (occ_prob_thres_log_ g) = false
  /\ Permutation (ExtractFreeVoxels g ++ ExtractOccupiedVoxels g)
                 (ExtractKnownVoxels g).
Proof.
  split; [reflexivity|].
  exact (extractions_partition_known
           (Insert (fun _ _ _ _ => true) F32.INT_MIN
              [(quarters 6, quarters 2, quarters 2)]
              (quarters (-6), quarters 2, quarters 2) (F32.of_int (-1))
              small_grid) eq_refl).
Defined.

(** ** Updates of the dense array *)

Lemma add_occupancy_functor_length (resolution : Z)
    (lo hi miss hit : float) (occupied : bool)
    (voxels : list OccupancyVoxel) (voxel : Vector3i) :
  length (add_occupancy_functor resolution lo hi miss hit occupied voxels voxel)
  = length voxels.
Proof. unfold add_occupancy_functor. rewrite !length_vset. reflexivity. Qed.

Lemma AddVoxels_length (voxels : list Vector3i) (occupied : bool)
    (g : OccupancyGrid) :
  length (voxels_ (AddVoxels voxels occupied g)) = length (voxels_ g).
Proof.
  unfold AddVoxels. cbn [voxels_ set_voxels].
  generalize (voxels_ g) as vs.
  induction voxels as [|voxel voxels IH]; intros vs; [reflexivity|].
  cbn [foldl]. rewrite IH. apply add_occupancy_functor_length.
Qed.

Lemma AddVoxel_length (voxel : Vector3i) (occupied : bool)
    (g : OccupancyGrid) :
  length (voxels_ (AddVoxel voxel occupied g)) = length (voxels_ g).
Proof.
  unfold AddVoxel. destruct (_ || _); [reflexivity|].
  cbn [voxels_ set_voxels]. apply length_vset.
Qed.

(** X22: [AddVoxel], [AddVoxels] and [Insert] update the dense array in
    place: the number of voxels, the resolution, the size of a voxel, the
    origin and the threshold of a grid are the same after the call. *)
Theorem grid_updates_keep_shape
    (LineSegmentAABB : Vector3f -> Vector3f -> Vector3f -> Vector3f -> bool)
    (INVALID_VOXEL_INDEX : Z) (op : GridOp) (g : OccupancyGrid) :
  length (voxels_ (apply_grid_op LineSegmentAABB INVALID_VOXEL_INDEX op g))
  = length (voxels_ g)
  /\ resolution_ (apply_grid_op LineSegmentAABB INVALID_VOXEL_INDEX op g)
     = resolution_ g
  /\ voxel_size_ (apply_grid_op LineSegmentAABB INVALID_VOXEL_INDEX op g)
     = voxel_size_ g
  /\ origin_ (apply_grid_op LineSegmentAABB INVALID_VOXEL_INDEX op g)
     = origin_ g
  /\ occ_prob_thres_log_
       (apply_grid_op LineSegmentAABB INVALID_VOXEL_INDEX op g)
     = occ_prob_thres_log_ g.
Proof.
  destruct op; cbn [apply_grid_op].
  - split; [apply AddVoxel_length|].
    unfold AddVoxel. destruct (_ || _); repeat split; reflexivity.
  - split; [apply AddVoxels_length|]. repeat split; reflexivity.
  - unfold Insert. destruct (Nat.eqb _ _); [repeat split; reflexivity|].
    cbv zeta. destruct (0 <? F32.to_int _).
    + rewrite !AddVoxels_length. repeat split; reflexivity.
    + rewrite !AddVoxels_length. repeat split; reflexivity.
Qed.

(** X23: [AddVoxel] changes no voxel of the array other than the one at the
    linear index of its argument, as the [int] of the call holds it: the
    index reduced to 32 bits. *)
Theorem AddVoxel_leaves_other_voxels
    (voxel : Vector3i) (occupied : bool) (g : OccupancyGrid) (j : Z) :
  j <> wrap_int (IndexOf voxel (resolution_ g)) ->
  vget OccupancyVoxel_default (voxels_ (AddVoxel voxel occupied g)) j
  = vget OccupancyVoxel_default (voxels_ g) j.
Proof.
  intros Hj. unfold AddVoxel. destruct (_ || _); [reflexivity|].
  cbn [voxels_ set_voxels]. apply vget_vset_other. congruence.
Qed.

(** The voxel (3, 2, 2) of the grid of resolution 4, seen from the index 0. *)
Lemma AddVoxel_leaves_other_voxels_first :
  0 <> wrap_int (IndexOf (3, 2, 2) (resolution_ small_grid))
  /\ vget OccupancyVoxel_default
          (voxels_ (AddVoxel (3, 2, 2) true small_grid)) 0
     = vget OccupancyVoxel_default (voxels_ small_grid) 0.
Proof.
  assert (H : 0 <> wrap_int (IndexOf (3, 2, 2) (resolution_ small_grid)))
    by (vm_compute; discriminate).
  split; [exact H|].
  exact (AddVoxel_leaves_other_voxels (3, 2, 2) true small_grid 0 H).
Defined.

(** A voxel far outside the grid whose index is 2^32: the [int] holds 0, the
    test of the range passes and the voxel at the index 0 is rewritten. *)
Example AddVoxel_index_of_32_bits :
  IndexOf (0, 0, 2 ^ 28) (resolution_ small_grid) = 2 ^ 32
  /\ wrap_int (IndexOf (0, 0, 2 ^ 28) (resolution_ small_grid)) = 0
  /\ grid_index_
       (vget OccupancyVoxel_default
          (voxels_ (AddVoxel (0, 0, 2 ^ 28) true small_grid)) 0)
     = (0, 0, 2 ^ 28)
  /\ F32.isnan
       (prob_log_
          (vget OccupancyVoxel_default
             (voxels_ (AddVoxel (0, 0, 2 ^ 28) true small_grid)) 0))
     = false.
Proof. vm_compute. repeat split; reflexivity. Qed.

(** The clamping of the device code never yields a NaN. *)
Lemma device_clamp_bounds (lo hi p : float) :
  F32.leb lo hi = true ->
  F32.leb lo (F32.fminf (F32.fmaxf p lo) hi) = true
  /\ F32.leb (F32.fminf (F32.fmaxf p lo) hi) hi = true.
Proof.
  intros Hle. destruct (leb_not_nan lo hi Hle) as [Hlo Hhi].
  unfold F32.fminf, F32.fmaxf. rewrite Hlo.
  destruct (F32.isnan p) eqn:Hp.
  - rewrite Hlo, Hhi, (leb_ltb_false lo hi Hle).
    split; [apply leb_refl, Hlo|exact Hle].
  - destruct (F32.ltb p lo) eqn:H1.
    + rewrite Hlo, Hhi, (leb_ltb_false lo hi Hle).
      split; [apply leb_refl, Hlo|exact Hle].
    + pose proof (ltb_false_leb p lo Hp Hlo H1) as Hlp.
      rewrite Hp, Hhi. destruct (F32.ltb hi p) eqn:H2.
      * split; [exact Hle|apply leb_refl, Hhi].
      * split; [exact Hlp|apply (ltb_false_leb hi p Hhi Hp H2)].
Qed.

Lemma add_occupancy_functor_observes (resolution : Z)
    (lo hi miss hit : float) (occupied : bool)
    (voxels : list OccupancyVoxel) (voxel : Vector3i) :
  F32.leb lo hi = true ->
  0 <= to_size_t (IndexOf voxel resolution) < Z.of_nat (length voxels) ->
  observed_between lo hi
    (vget OccupancyVoxel_default
       (add_occupancy_functor resolution lo hi miss hit occupied voxels voxel)
       (to_size_t (IndexOf voxel resolution))).
Proof.
  intros Hle Hidx. unfold add_occupancy_functor.
  rewrite vget_vset_same by (rewrite length_vset; exact Hidx).
  cbn [prob_log_]. rewrite vget_vset_same by exact Hidx. cbn [prob_log_].
  destruct (device_clamp_bounds lo hi
              (F32.add
                 (if F32.isnan
                       (prob_log_
                          (vget OccupancyVoxel_default voxels
                             (to_size_t (IndexOf voxel resolution))))
                  then F32.zero
                  else prob_log_
                         (vget OccupancyVoxel_default voxels
                            (to_size_t (IndexOf voxel resolution))))
                 (if occupied then hit else miss)) Hle) as [H1 H2].
  split; [|split; assumption].
  apply (leb_not_nan _ _ H2).
Qed.

Lemma add_occupancy_functor_other (resolution : Z)
    (lo hi miss hit : float) (occupied : bool)
    (voxels : list OccupancyVoxel) (voxel : Vector3i) (j : Z) :
  to_size_t (IndexOf voxel resolution) <> j ->
  vget OccupancyVoxel_default
    (add_occupancy_functor resolution lo hi miss hit occupied voxels voxel) j
  = vget OccupancyVoxel_default voxels j.
Proof.
  intros Hj. unfold add_occupancy_functor.
  rewrite !vget_vset_other by exact Hj. reflexivity.
Qed.

Lemma foldl_add_occupancy_keeps_observed (resolution : Z)
    (lo hi miss hit : float) (occupied : bool) (j : Z)
    (listed : list Vector3i) :
  F32.leb lo hi = true ->
  forall voxels : list OccupancyVoxel,
    0 <= j < Z.of_nat (length voxels) ->
    observed_between lo hi (vget OccupancyVoxel_default voxels j) ->
    observed_between lo hi
      (vget OccupancyVoxel_default
         (foldl (add_occupancy_functor resolution lo hi miss hit occupied)
                voxels listed) j).
Proof.
  intros Hle. induction listed as [|v listed IH]; intros voxels Hj Hobs;
    [exact Hobs|].
  cbn [foldl]. apply IH.
  - rewrite add_occupancy_functor_length. exact Hj.
  - destruct (Z.eq_dec (to_size_t (IndexOf v resolution)) j) as [<-|Hne].
    + apply add_occupancy_functor_observes; assumption.
    + rewrite add_occupancy_functor_other by exact Hne. exact Hobs.
Qed.

(** X24: when the lower clamping threshold is not above the upper one, a
    voxel that [AddVoxels] lists and whose linear index is inside the dense
    array is observed after the call, with log-odds between the two
    thresholds. *)
Theorem AddVoxels_observes_listed_voxels
    (listed : list Vector3i) (occupied : bool) (g : OccupancyGrid)
    (voxel : Vector3i) :
  F32.leb (clamping_thres_min_ g) (clamping_thres_max_ g) = true ->
  In voxel listed ->
  to_size_t (IndexOf voxel (resolution_ g)) < Z.of_nat (length (voxels_ g)) ->
  observed_between (clamping_thres_min_ g) (clamping_thres_max_ g)
    (vget OccupancyVoxel_default (voxels_ (AddVoxels listed occupied g))
       (to_size_t (IndexOf voxel (resolution_ g)))).
Proof.
  intros Hle Hin Hidx. unfold AddVoxels. cbn [voxels_ set_voxels].
  assert (H0 : 0 <= to_size_t (IndexOf voxel (resolution_ g)))
    by (unfold to_size_t; apply Z.mod_pos_bound; lia).
  revert Hidx. generalize (voxels_ g) as voxels.
  induction listed as [|v listed IH]; intros voxels Hidx; [destruct Hin|].
  cbn [foldl]. destruct Hin as [->|Hin].
  - apply foldl_add_occupancy_keeps_observed;
      [exact Hle|rewrite add_occupancy_functor_length; lia|].
    apply add_occupancy_functor_observes; [exact Hle|lia].
  - apply IH; [exact Hin|]. rewrite add_occupancy_functor_length. exact Hidx.
Qed.

(** Two free voxels in the grid of resolution 4. *)
Lemma AddVoxels_observes_listed_voxels_two :
  F32.leb (clamping_thres_min_ small_grid) (clamping_thres_max_ small_grid)
  = true
  /\ In (1, 2, 2) [(0, 2, 2); (1, 2, 2)]
  /\ to_size_t (IndexOf (1, 2, 2) (resolution_ small_grid))
     < Z.of_nat (length (voxels_ small_grid))
  /\ observed_between (clamping_thres_min_ small_grid)
       (clamping_thres_max_ small_grid)
       (vget OccupancyVoxel_default
          (voxels_ (AddVoxels [(0, 2, 2); (1, 2, 2)] false small_grid))
          (to_size_t (IndexOf (1, 2, 2) (resolution_ small_grid)))).
Proof.
  assert (H1 : F32.leb (clamping_thres_min_ small_grid)
                       (clamping_thres_max_ small_grid) = true)
    by reflexivity.
  assert (H2 : In ((1, 2, 2) : Vector3i) [(0, 2, 2); (1, 2, 2)])
    by (right; left; reflexivity).
  assert (H3 : to_size_t (IndexOf (1, 2, 2) (resolution_ small_grid))
               < Z.of_nat (length (voxels_ small_grid)))
    by (vm_compute; reflexivity).
  split; [exact H1|]. split; [exact H2|]. split; [exact H3|].
  exact (AddVoxels_observes_listed_voxels [(0, 2, 2); (1, 2, 2)] false
           small_grid (1, 2, 2) H1 H2 H3).
Defined.



(** ** The sets of voxels of an insertion *)

Lemma Vector3i_ltb_spec (a b : Vector3i) :
  Vector3i_ltb a b = true
  <-> a.1.1 < b.1.1
      \/ (a.1.1 = b.1.1
          /\ (a.1.2 < b.1.2 \/ (a.1.2 = b.1.2 /\ a.2 < b.2))).
Proof.
  unfold Vector3i_ltb.
  rewrite !orb_true_iff, !andb_true_iff, !orb_true_iff, !andb_true_iff,
    !Z.ltb_lt, !Z.eqb_eq.
  reflexivity.
Qed.

Lemma Vector3i_ltb_false (a b : Vector3i) :
  Vector3i_ltb a b = false
  <-> ~ (a.1.1 < b.1.1
         \/ (a.1.1 = b.1.1
             /\ (a.1.2 < b.1.2 \/ (a.1.2 = b.1.2 /\ a.2 < b.2)))).
Proof.
  rewrite <- Vector3i_ltb_spec. symmetry. apply not_true_iff_false.
Qed.

Lemma Vector3i_ltb_asym (a b : Vector3i) :
  Vector3i_ltb a b = true -> Vector3i_ltb b a = false.
Proof. rewrite Vector3i_ltb_spec, Vector3i_ltb_false. lia. Qed.

Lemma Vector3i_le_trans (a b c : Vector3i) :
  Vector3i_ltb b a = false -> Vector3i_ltb c b = false ->
  Vector3i_ltb c a = false.
Proof. rewrite !Vector3i_ltb_false. lia. Qed.

Lemma Vector3i_lt_trans (a b c : Vector3i) :
  Vector3i_ltb a b = true -> Vector3i_ltb b c = true ->
  Vector3i_ltb a c = true.
Proof. rewrite !Vector3i_ltb_spec. lia. Qed.

Lemma Vector3i_total (a b : Vector3i) :
  Vector3i_ltb a b = false -> Vector3i_ltb b a = false -> a = b.
Proof.
  rewrite !Vector3i_ltb_false. destruct a as [[a1 a2] a3], b as [[b1 b2] b3].
  cbn [fst snd]. intros H1 H2.
  assert (a1 = b1) by lia. assert (a2 = b2) by lia. assert (a3 = b3) by lia.
  congruence.
Qed.

Lemma Vector3i_ltb_irrefl (a : Vector3i) : Vector3i_ltb a a = false.
Proof. rewrite Vector3i_ltb_false. lia. Qed.

Lemma Vector3i_eqb_refl (a : Vector3i) : Vector3i_eqb a a = true.
Proof. unfold Vector3i_eqb. rewrite !Z.eqb_refl. reflexivity. Qed.

(** [unique] on a sorted list leaves a list that ascends strictly. *)
Lemma unique_from_sorted (l : list Vector3i) :
  forall prev : Vector3i,
    StronglySorted (fun a b => Vector3i_ltb b a = false) (prev :: l) ->
    StronglySorted Vector3i_lt (prev :: thrust.unique_from Vector3i_eqb prev l).
Proof.
  induction l as [|y l IH]; intros prev Hs; cbn [thrust.unique_from].
  - repeat constructor.
  - inversion Hs as [|? ? Hs' Hall]; subst.
    inversion Hall as [|? ? Hpy Hall']; subst.
    inversion Hs' as [|? ? Hs'' Hally]; subst.
    destruct (Vector3i_eqb prev y) eqn:E.
    + apply Vector3i_eqb_eq in E. subst y. apply IH. constructor; assumption.
    + specialize (IH y Hs').
      assert (Hlt : Vector3i_ltb prev y = true).
      { destruct (Vector3i_ltb prev y) eqn:Hl; [reflexivity|].
        rewrite (Vector3i_total prev y Hl Hpy), Vector3i_eqb_refl in E.
        discriminate. }
      constructor; [exact IH|].
      inversion IH as [|? ? _ Hally']; subst.
      constructor; [exact Hlt|].
      eapply Forall_impl; [exact Hally'|].
      intros z Hz. exact (Vector3i_lt_trans prev y z Hlt Hz).
Qed.

Lemma unique_sorted (l : list Vector3i) :
  StronglySorted (fun a b => Vector3i_ltb b a = false) l ->
  StronglySorted Vector3i_lt (thrust.unique Vector3i_eqb l).
Proof.
  destruct l as [|x l]; [constructor|]. apply unique_from_sorted.
Qed.

Lemma In_unique_from_inv (l : list Vector3i) :
  forall prev x : Vector3i,
    In x (thrust.unique_from Vector3i_eqb prev l) -> In x l.
Proof.
  induction l as [|y l IH]; intros prev x; cbn [thrust.unique_from];
    [tauto|].
  destruct (Vector3i_eqb prev y).
  - intros H. right. exact (IH _ _ H).
  - intros [<-|H]; [left; reflexivity|right; exact (IH _ _ H)].
Qed.

Lemma In_unique_inv (x : Vector3i) (l : list Vector3i) :
  In x (thrust.unique Vector3i_eqb l) -> In x l.
Proof.
  destruct l as [|y l]; [tauto|]. cbn [thrust.unique].
  intros [<-|H]; [left; reflexivity|right; exact (In_unique_from_inv _ _ _ H)].
Qed.

Lemma compact_voxels_sorted (max_idx : Z) (candidates : list Vector3i) :
  StronglySorted Vector3i_lt (compact_voxels max_idx candidates).
Proof.
  unfold compact_voxels. apply unique_sorted, sort_StronglySorted.
  - exact Vector3i_ltb_asym.
  - exact Vector3i_le_trans.
Qed.

Lemma compact_voxels_In (max_idx : Z) (x : Vector3i)
    (candidates : list Vector3i) :
  In x (compact_voxels max_idx candidates)
  <-> In x candidates /\ out_of_range_voxel max_idx x = false.
Proof.
  split.
  - unfold compact_voxels. intros H. apply In_unique_inv in H.
    apply (Permutation_in _ (sort_Permutation Vector3i_ltb _)) in H.
    apply In_remove_if_iff in H. exact H.
  - intros [H1 H2]. apply compact_voxels_keeps; assumption.
Qed.

(** X26: the set of voxels that [ComputeFreeVoxels] and
    [ComputeOccupiedVoxels] return ascends strictly in the lexicographic
    order, so that no voxel is there twice, and holds exactly the candidates
    that the range test of the [remove_if] lets pass. *)
Theorem compact_voxels_is_a_sorted_set
    (max_idx : Z) (candidates : list Vector3i) (x : Vector3i) :
  StronglySorted Vector3i_lt (compact_voxels max_idx candidates)
  /\ NoDup (compact_voxels max_idx candidates)
  /\ (In x (compact_voxels max_idx candidates)
      <-> In x candidates /\ out_of_range_voxel max_idx x = false).
Proof.
  split; [apply compact_voxels_sorted|]. split; [|apply compact_voxels_In].
  pose proof (compact_voxels_sorted max_idx candidates) as Hs.
  induction Hs as [|y l Hs IH Hall]; constructor; [|exact IH].
  intros Hin. rewrite Forall_forall in Hall. apply Hall in Hin.
  unfold Vector3i_lt in Hin. rewrite Vector3i_ltb_irrefl in Hin.
  discriminate.
Qed.

Lemma sorted_head_below (y x : Vector3i) (l : list Vector3i) :
  StronglySorted Vector3i_lt (y :: l) -> In x l -> Vector3i_ltb y x = true.
Proof.
  intros Hs Hin. inversion Hs as [|? ? _ Hall]; subst.
  rewrite Forall_forall in Hall.
  apply Hall, (proj2 (list_elem_of_In _ _)), Hin.
Qed.

(** The merge of [set_difference] on two lists that ascend strictly keeps
    the elements of the first list that are not in the second. *)
Lemma set_difference_sorted (l1 : list Vector3i) :
  forall l2 : list Vector3i,
    StronglySorted Vector3i_lt l1 -> StronglySorted Vector3i_lt l2 ->
    forall x : Vector3i,
      In x (thrust.set_difference Vector3i_ltb l1 l2)
      <-> In x l1 /\ ~ In x l2.
Proof.
  induction l1 as [|y l1 IH]; intros l2 Hs1 Hs2 x;
    [cbn; tauto|].
  assert (Hs1' : StronglySorted Vector3i_lt l1)
    by (inversion Hs1; assumption).
  induction l2 as [|z l2 IH2]; [cbn; tauto|].
  assert (Hs2' : StronglySorted Vector3i_lt l2)
    by (inversion Hs2; assumption).
  cbn [thrust.set_difference].
  destruct (Vector3i_ltb y z) eqn:Hyz.
  - cbn [In]. rewrite (IH (z :: l2) Hs1' Hs2 x). cbn [In]. split.
    + intros [<-|[H1 H2]]; [|tauto]. split; [left; reflexivity|].
      intros [->|Hin].
      * rewrite Vector3i_ltb_irrefl in Hyz. discriminate.
      * pose proof (sorted_head_below z y l2 Hs2 Hin) as Hzy.
        rewrite (Vector3i_ltb_asym _ _ Hzy) in Hyz. discriminate.
    + intros [[<-|H1] H2]; [left; reflexivity|right; tauto].
  - destruct (Vector3i_ltb z y) eqn:Hzy.
    + specialize (IH2 Hs2'). cbn [thrust.set_difference] in IH2.
      rewrite IH2. cbn [In]. split.
      * intros [H1 H2]. split; [exact H1|]. intros [->|Hin]; [|tauto].
        destruct H1 as [->|H1].
        -- rewrite Vector3i_ltb_irrefl in Hzy. discriminate.
        -- pose proof (sorted_head_below y x l1 Hs1 H1) as Hyx.
           pose proof (Vector3i_lt_trans _ _ _ Hzy Hyx) as Hxx.
           rewrite Vector3i_ltb_irrefl in Hxx. discriminate.
      * intros [H1 H2]. split; [exact H1|]. tauto.
    + pose proof (Vector3i_total y z Hyz Hzy) as ->.
      rewrite (IH l2 Hs1' Hs2' x). cbn [In]. split.
      * intros [H1 H2]. split; [right; exact H1|].
        intros [->|Hin]; [|tauto].
        pose proof (sorted_head_below x x l1 Hs1 H1) as Hxx.
        rewrite Vector3i_ltb_irrefl in Hxx. discriminate.
      * intros [[->|H1] H2]; [tauto|]. split; [exact H1|tauto].
Qed.

(** X27: the free voxels that [Insert] updates, the difference of the free
    and of the occupied set of the insertion, are the free voxels that are
    not occupied: an occupied observation wins over a free one. *)
Theorem free_voxels_exclude_occupied
    (max_idx : Z) (free_candidates occupied_candidates : list Vector3i)
    (x : Vector3i) :
  In x (thrust.set_difference Vector3i_ltb
          (compact_voxels max_idx free_candidates)
          (compact_voxels max_idx occupied_candidates))
  <-> In x (compact_voxels max_idx free_candidates)
      /\ ~ In x (compact_voxels max_idx occupied_candidates).
Proof.
  apply set_difference_sorted; apply compact_voxels_sorted.
Qed.

(** ** Distances as weights *)

Lemma SFabs_binary_round_aux (s s' : bool) (m e : Z) (l : location) :
  SFabs (binary_round_aux F32.prec F32.emax s m e l)
  = SFabs (binary_round_aux F32.prec F32.emax s' m e l).
Proof.
  unfold binary_round_aux.
  destruct (shr_fexp F32.prec F32.emax m e l) as [mrs' e'].
  destruct (shr_fexp F32.prec F32.emax _ e' loc_Exact) as [mrs'' e''].
  destruct (shr_m mrs''); try reflexivity.
  destruct (e'' <=? F32.emax - F32.prec); reflexivity.
Qed.

Lemma SFabs_binary_normalize_opp (m e : Z) :
  SFabs (binary_normalize F32.prec F32.emax (- m) e false)
  = SFabs (binary_normalize F32.prec F32.emax m e false).
Proof.
  destruct m as [|p|p]; [reflexivity| |];
    change (- Z.pos p) with (Z.neg p); change (- Z.neg p) with (Z.pos p);
    unfold binary_normalize, binary_round;
    destruct (shl_align _ _ _) as [mz ez]; apply SFabs_binary_round_aux.
Qed.

Lemma SFabs_sub_swap (x y : float) :
  SFabs (F32.sub x y) = SFabs (F32.sub y x).
Proof.
  unfold F32.sub.
  destruct x as [sx|sx| |sx mx ex], y as [sy|sy| |sy my ey];
    try reflexivity;
    try (destruct sx, sy; reflexivity).
  cbn [SFsub]. rewrite (Z.min_comm ey ex).
  rewrite <- SFabs_binary_normalize_opp. f_equal. f_equal. lia.
Qed.

Lemma mul_self_abs (u v : float) :
  SFabs u = SFabs v -> F32.mul u u = F32.mul v v.
Proof.
  unfold F32.mul.
  destruct u as [su|su| |su mu eu], v as [sv|sv| |sv mv ev];
    cbn [SFabs]; try discriminate; intros H;
    try reflexivity; try (destruct su, sv; reflexivity).
  injection H as -> ->. cbn [SFmul]. destruct su, sv; reflexivity.
Qed.

Lemma Vector3f_norm_sub_swap (p q : Vector3f) :
  Vector3f_norm (Vector3f_sub p q) = Vector3f_norm (Vector3f_sub q p).
Proof.
  unfold Vector3f_norm, Vector3f_sub. cbn [fst snd].
  rewrite (mul_self_abs _ _ (SFabs_sub_swap p.1.1 q.1.1)),
    (mul_self_abs _ _ (SFabs_sub_swap p.1.2 q.1.2)),
    (mul_self_abs _ _ (SFabs_sub_swap p.2 q.2)).
  reflexivity.
Qed.

Lemma SetEdgeWeightsFromDistance_weights (g : Graph) :
  edge_weights_ (SetEdgeWeightsFromDistance g)
  = (fun edge : Vector2i =>
       Vector3f_norm
         (Vector3f_sub (vget Vector3f_Zero (points_ g) edge.1)
                       (vget Vector3f_Zero (points_ g) edge.2)))
      <$> lines_ g.
Proof.
  unfold SetEdgeWeightsFromDistance. cbn [edge_weights_ set_edge_weights].
  unfold overwrite.
  rewrite drop_ge by (rewrite length_resize_to, length_fmap; lia).
  apply app_nil_r.
Qed.

(** X28: after [SetEdgeWeightsFromDistance] there is one weight per edge,
    the edges are as before, and the row of an edge (a, b) and the row of
    its reverse (b, a) carry the same weight. *)
Theorem SetEdgeWeightsFromDistance_symmetric
    (g : Graph) (i j : nat) (a b : Z) :
  lines_ g !! i = Some (a, b) ->
  lines_ g !! j = Some (b, a) ->
  lines_ (SetEdgeWeightsFromDistance g) = lines_ g
  /\ HasWeights (SetEdgeWeightsFromDistance g) = true
  /\ edge_weights_ (SetEdgeWeightsFromDistance g) !! i
     = edge_weights_ (SetEdgeWeightsFromDistance g) !! j
  /\ is_Some (edge_weights_ (SetEdgeWeightsFromDistance g) !! i).
Proof.
  intros Hi Hj. split; [reflexivity|]. split.
  { unfold HasWeights.
    rewrite SetEdgeWeightsFromDistance_weights, length_fmap.
    apply Nat.eqb_refl. }
  rewrite SetEdgeWeightsFromDistance_weights.
  rewrite !list_lookup_fmap. unfold Vector2i in *. rewrite Hi, Hj.
  cbn [fmap option_fmap option_map fst snd].
  split; [|eexists; reflexivity].
  f_equal. apply Vector3f_norm_sub_swap.
Qed.

(** The undirected path 0 - 1 - 2: the rows of (0, 1) and of (1, 0). *)
Lemma SetEdgeWeightsFromDistance_symmetric_path :
  let g := (AddEdges [(0, 1); (1, 2)] []
              (Graph_of_points false three_points)).1 in
  lines_ g !! 0%nat = Some (0, 1)
  /\ lines_ g !! 1%nat = Some (1, 0)
  /\ (lines_ (SetEdgeWeightsFromDistance g) = lines_ g
      /\ HasWeights (SetEdgeWeightsFromDistance g) = true
      /\ edge_weights_ (SetEdgeWeightsFromDistance g) !! 0%nat
         = edge_weights_ (SetEdgeWeightsFromDistance g) !! 1%nat
      /\ is_Some (edge_weights_ (SetEdgeWeightsFromDistance g) !! 0%nat)).
Proof.
  split; [reflexivity|]. split; [reflexivity|].
  exact (SetEdgeWeightsFromDistance_symmetric
           (AddEdges [(0, 1); (1, 2)] []
              (Graph_of_points false three_points)).1
           0 1 0 1 eq_refl eq_refl).
Defined.

(** ** Bounds and reconstruction *)

(** X29: on a grid without a known voxel, [GetMinBound] and [GetMaxBound]
    both return the origin. *)
Theorem bounds_of_unobserved_grid (g : OccupancyGrid) :
  CountKnownVoxels g = 0%nat ->
  ExtractKnownVoxels g = []
  /\ GetMinBound g = origin_ g /\ GetMaxBound g = origin_ g.
Proof.
  intros H.
  assert (E : ExtractKnownVoxels g = []).
  { unfold ExtractKnownVoxels, CountKnownVoxels. rewrite copy_if_counted.
    unfold CountKnownVoxels, count_if in H.
    destruct (List.filter is_known_voxel (voxels_ g)); [reflexivity|].
    discriminate. }
  unfold GetMinBound, GetMaxBound. rewrite E. repeat split.
Qed.

(** The grid of resolution 4 before any insertion. *)
Lemma bounds_of_unobserved_grid_new :
  CountKnownVoxels small_grid = 0%nat
  /\ (ExtractKnownVoxels small_grid = []
      /\ GetMinBound small_grid = origin_ small_grid
      /\ GetMaxBound small_grid = origin_ small_grid).
Proof.
  split; [reflexivity|].
  exact (bounds_of_unobserved_grid small_grid eq_refl).
Defined.

(** X30: [ReconstructVoxels] sets the size of a voxel and the resolution and
    resizes the dense array to [resolution^3] voxels; a voxel that was in
    the array at a position that the new array still has keeps its state. *)
Theorem ReconstructVoxels_keeps_voxels
    (voxel_size : float) (resolution : Z) (g : OccupancyGrid) (i : nat)
    (v : OccupancyVoxel) :
  voxels_ g !! i = Some v ->
  (i < Z.to_nat (resolution * resolution * resolution))%nat ->
  length (voxels_ (ReconstructVoxels voxel_size resolution g))
  = Z.to_nat (resolution * resolution * resolution)
  /\ resolution_ (ReconstructVoxels voxel_size resolution g) = resolution
  /\ voxel_size_ (ReconstructVoxels voxel_size resolution g) = voxel_size
  /\ voxels_ (ReconstructVoxels voxel_size resolution g) !! i = Some v.
Proof.
  intros Hv Hi. unfold ReconstructVoxels.
  cbn [voxels_ resolution_ voxel_size_].
  split; [apply length_resize_to|]. split; [reflexivity|].
  split; [reflexivity|].
  unfold resize_to. rewrite lookup_app_l.
  - rewrite lookup_take_lt by exact Hi. exact Hv.
  - rewrite length_take. apply lookup_lt_Some in Hv. lia.
Qed.

(** The grid of resolution 4 with one occupied voxel, rebuilt at the
    resolution 2. *)
Lemma ReconstructVoxels_keeps_voxels_smaller :
  let g := AddVoxel (1, 0, 0) true small_grid in
  voxels_ g !! 1%nat
  = Some (mkOccupancyVoxel (1, 0, 0) (F32.zero, F32.zero, F32.one)
            (prob_hit_log_ small_grid))
  /\ (1 < Z.to_nat (2 * 2 * 2))%nat
  /\ (length (voxels_ (ReconstructVoxels F32.one 2 g)) = Z.to_nat (2 * 2 * 2)
      /\ resolution_ (ReconstructVoxels F32.one 2 g) = 2
      /\ voxel_size_ (ReconstructVoxels F32.one 2 g) = F32.one
      /\ voxels_ (ReconstructVoxels F32.one 2 g) !! 1%nat
         = Some (mkOccupancyVoxel (1, 0, 0) (F32.zero, F32.zero, F32.one)
                   (prob_hit_log_ small_grid))).
Proof.
  assert (H1 : voxels_ (AddVoxel (1, 0, 0) true small_grid) !! 1%nat
               = Some (mkOccupancyVoxel (1, 0, 0)
                         (F32.zero, F32.zero, F32.one)
                         (prob_hit_log_ small_grid)))
    by (vm_compute; reflexivity).
  assert (H2 : (1 < Z.to_nat (2 * 2 * 2))%nat) by (cbn; lia).
  split; [exact H1|]. split; [exact H2|].
  exact (ReconstructVoxels_keeps_voxels F32.one 2
           (AddVoxel (1, 0, 0) true small_grid) 1 _ H1 H2).
Defined.
